(** * MEL3 bingo server: session, ledger and broadcast engine

    A shallow embedding of the TypeScript sources and the properties
    the specification states about them.

    - [Double]      : the numbers of JavaScript where their rounding
                      matters (IEEE binary64)
    - [Interfaces]  : models/interfaces.ts (Player, Room, Winner,
                      src/unnamed/part_000)
    - [PlayerModel] : models/player.ts (class PlayerModel,
                      src/unnamed/part_002)
    - [RoomModel]   : models/room.ts (class RoomModel)
    - [Broadcaster] : services/broadcaster.ts
    - [Main]        : the message handlers of the modular server
                      (src/unnamed/part_001), and [handleKickPlayer],
                      to which its admin dispatch hands [kick_player]
                      (src/auth.ts, 1137-1156)
    - [Server]      : the standalone single-file server (third unit of
                      src/auth.ts, from line 1325), with its own Player
                      and Room types
    - [Auth]        : the rate limiter of middlewares/auth.ts (first
                      unit of src/auth.ts)

    Modelling conventions.
    - A JavaScript [number] that is stored as money, a bingo number or
      a capacity is a whole number ([Z]): the stakes the validator admits
      are 25, 50, ..., 5000, and a whole number of magnitude up to 2^53
      is a double.  What [calculateWinnings] computes from the stakes it
      computes in IEEE binary64 as the source does ([Double], on the
      Standard Library's [SpecFloat]): the service charge, the prize
      pool, the ratio of the stakes and [Math.floor] of the product.
    - [Date] values and [Date.now()] are integers (milliseconds); an
      operation that reads the clock takes the reading as [now].
    - A [Map<string, T>] is a [gmap string T], a [Set<T>] a [gset T];
      [forEach] and [Array.from] visit [elements] of the set, whose
      order is not the insertion order of JavaScript: no statement below
      depends on the order in which members are visited.
    - An optional field is an [option]; [x || 0] is [or0 x].
    - A socket object is named by a number; what the transport does with
      it (its [readyState], whether [send] throws) is an environment
      [network].
    - In-place mutation of an object stored in a map is written as the
      re-insertion of the updated record under the same key. *)

From Stdlib Require Import ZArith QArith Qround List Ascii String Lia.
From Stdlib Require SpecFloat.
From stdpp Require Import base option list gmap sets strings.

Local Open Scope string_scope.
Local Open Scope list_scope.
Local Open Scope Z_scope.

(** [x || 0] on an optional number. *)
Definition or0 (x : option Z) : Z := default 0 x.

(** [!s] on a string: the empty string is the only falsy one. *)
Definition isEmpty (s : string) : bool := bool_decide (s = EmptyString).

(** A socket is named by a number. *)
Abbreviation endpoint := nat (only parsing).

(** * JavaScript numbers

    IEEE binary64 with round to nearest, ties to even: the operations of
    [SpecFloat] at 53 bits of precision. *)

Module Double.
Import SpecFloat.

Definition t : Type := spec_float.

Definition prec : Z := 53.
Definition emax : Z := 1024.

Definition add : t → t → t := SFadd prec emax.
Definition sub : t → t → t := SFsub prec emax.
Definition mul : t → t → t := SFmul prec emax.
Definition div : t → t → t := SFdiv prec emax.

(** The double of a whole number: the number itself up to 2^53, the
    nearest double beyond. *)
Definition ofZ (z : Z) : t := binary_normalize prec emax z 0 false.

(** [Math.floor]: NaN, the infinities, the zeros and the doubles without
    a fractional part are returned as they are. *)
Definition floor (x : t) : t :=
  match x with
  | S754_finite s m (Zneg k) =>
    let q := Z.shiftr (Zpos m) (Zpos k) in
    if s then
      binary_normalize prec emax
        (- (if Z.shiftl q (Zpos k) =? Zpos m then q else q + 1)) 0 true
    else binary_normalize prec emax q 0 false
  | _ => x
  end.

(** The whole number a double is, when it is one. *)
Definition toZ (x : t) : option Z :=
  match x with
  | S754_zero _ => Some 0
  | S754_finite s m e =>
    match e with
    | Zneg k =>
      let q := Z.shiftr (Zpos m) (Zpos k) in
      if Z.shiftl q (Zpos k) =? Zpos m then Some (cond_Zopp s q) else None
    | _ => Some (cond_Zopp s (Z.shiftl (Zpos m) e))
    end
  | S754_infinity _ | S754_nan => None
  end.

End Double.

(** * models/interfaces.ts *)

Module Interfaces.

(** Outbound messages.  [Event] is an object literal with its [type] tag
    and the rest of its fields serialised; [Batch] is the envelope
    [{ type: "batch", messages, timestamp }] built by [batchBroadcast]. *)
#[local] Set Warnings "-register-all".
Inductive message : Type :=
| Event (type : string) (payload : string)
| Batch (messages : list message) (timestamp : Z).

Module Winner.
Record t : Type := mk {
  playerId : string;
  name : string;
  pattern : string;
  amount : Z;
  timestamp : Z
}.
Definition with_amount (a : Z) (w : t) : t :=
  mk (playerId w) (name w) (pattern w) a (timestamp w).
End Winner.

Module Player.
Record t : Type := mk {
  id : string;
  name : string;
  phone : string;
  stake : Z;
  gameType : string;
  payment : Z;
  wonAmount : option Z;
  withdrawn : option Z;
  balance : option Z;
  joinedAt : Z;
  socket : endpoint;
  roomId : option string;
  markedNumbers : gset Z;
  lastActive : option Z
}.
Definition with_payment (v : Z) (p : t) : t :=
  mk (id p) (name p) (phone p) (stake p) (gameType p) v (wonAmount p)
     (withdrawn p) (balance p) (joinedAt p) (socket p) (roomId p)
     (markedNumbers p) (lastActive p).
Definition with_wonAmount (v : option Z) (p : t) : t :=
  mk (id p) (name p) (phone p) (stake p) (gameType p) (payment p) v
     (withdrawn p) (balance p) (joinedAt p) (socket p) (roomId p)
     (markedNumbers p) (lastActive p).
Definition with_withdrawn (v : option Z) (p : t) : t :=
  mk (id p) (name p) (phone p) (stake p) (gameType p) (payment p)
     (wonAmount p) v (balance p) (joinedAt p) (socket p) (roomId p)
     (markedNumbers p) (lastActive p).
Definition with_balance (v : option Z) (p : t) : t :=
  mk (id p) (name p) (phone p) (stake p) (gameType p) (payment p)
     (wonAmount p) (withdrawn p) v (joinedAt p) (socket p) (roomId p)
     (markedNumbers p) (lastActive p).
Definition with_socket (v : endpoint) (p : t) : t :=
  mk (id p) (name p) (phone p) (stake p) (gameType p) (payment p)
     (wonAmount p) (withdrawn p) (balance p) (joinedAt p) v (roomId p)
     (markedNumbers p) (lastActive p).
Definition with_roomId (v : option string) (p : t) : t :=
  mk (id p) (name p) (phone p) (stake p) (gameType p) (payment p)
     (wonAmount p) (withdrawn p) (balance p) (joinedAt p) (socket p) v
     (markedNumbers p) (lastActive p).
Definition with_markedNumbers (v : gset Z) (p : t) : t :=
  mk (id p) (name p) (phone p) (stake p) (gameType p) (payment p)
     (wonAmount p) (withdrawn p) (balance p) (joinedAt p) (socket p)
     (roomId p) v (lastActive p).
Definition with_lastActive (v : option Z) (p : t) : t :=
  mk (id p) (name p) (phone p) (stake p) (gameType p) (payment p)
     (wonAmount p) (withdrawn p) (balance p) (joinedAt p) (socket p)
     (roomId p) (markedNumbers p) v.
End Player.

(** An entry of [room.queuedMessages]. *)
Record queued : Type := mkQueued {
  q_message : message;
  q_timestamp : Z
}.

Module Room.
(** The last three fields are not declared by the interface: the
    broadcaster attaches them to the room object at run time. *)
Record t : Type := mk {
  id : string;
  gameType : string;
  stake : Z;
  players : gset string;
  admin : option endpoint;
  active : bool;
  calledNumbers : list Z;
  winners : list Winner.t;
  createdAt : Z;
  startedAt : option Z;
  endedAt : option Z;
  lastBroadcast : option Z;
  queuedMessages : option (list queued);
  broadcastTimeout : option positive
}.
Definition with_players (v : gset string) (r : t) : t :=
  mk (id r) (gameType r) (stake r) v (admin r) (active r) (calledNumbers r)
     (winners r) (createdAt r) (startedAt r) (endedAt r) (lastBroadcast r)
     (queuedMessages r) (broadcastTimeout r).
Definition with_admin (v : option endpoint) (r : t) : t :=
  mk (id r) (gameType r) (stake r) (players r) v (active r) (calledNumbers r)
     (winners r) (createdAt r) (startedAt r) (endedAt r) (lastBroadcast r)
     (queuedMessages r) (broadcastTimeout r).
Definition with_active (v : bool) (r : t) : t :=
  mk (id r) (gameType r) (stake r) (players r) (admin r) v (calledNumbers r)
     (winners r) (createdAt r) (startedAt r) (endedAt r) (lastBroadcast r)
     (queuedMessages r) (broadcastTimeout r).
Definition with_calledNumbers (v : list Z) (r : t) : t :=
  mk (id r) (gameType r) (stake r) (players r) (admin r) (active r) v
     (winners r) (createdAt r) (startedAt r) (endedAt r) (lastBroadcast r)
     (queuedMessages r) (broadcastTimeout r).
Definition with_winners (v : list Winner.t) (r : t) : t :=
  mk (id r) (gameType r) (stake r) (players r) (admin r) (active r)
     (calledNumbers r) v (createdAt r) (startedAt r) (endedAt r)
     (lastBroadcast r) (queuedMessages r) (broadcastTimeout r).
Definition with_startedAt (v : option Z) (r : t) : t :=
  mk (id r) (gameType r) (stake r) (players r) (admin r) (active r)
     (calledNumbers r) (winners r) (createdAt r) v (endedAt r)
     (lastBroadcast r) (queuedMessages r) (broadcastTimeout r).
Definition with_endedAt (v : option Z) (r : t) : t :=
  mk (id r) (gameType r) (stake r) (players r) (admin r) (active r)
     (calledNumbers r) (winners r) (createdAt r) (startedAt r) v
     (lastBroadcast r) (queuedMessages r) (broadcastTimeout r).
Definition with_lastBroadcast (v : option Z) (r : t) : t :=
  mk (id r) (gameType r) (stake r) (players r) (admin r) (active r)
     (calledNumbers r) (winners r) (createdAt r) (startedAt r) (endedAt r)
     v (queuedMessages r) (broadcastTimeout r).
Definition with_queuedMessages (v : option (list queued)) (r : t) : t :=
  mk (id r) (gameType r) (stake r) (players r) (admin r) (active r)
     (calledNumbers r) (winners r) (createdAt r) (startedAt r) (endedAt r)
     (lastBroadcast r) v (broadcastTimeout r).
Definition with_broadcastTimeout (v : option positive) (r : t) : t :=
  mk (id r) (gameType r) (stake r) (players r) (admin r) (active r)
     (calledNumbers r) (winners r) (createdAt r) (startedAt r) (endedAt r)
     (lastBroadcast r) (queuedMessages r) v.
End Room.

End Interfaces.

(** * models/player.ts *)

Module PlayerModel.
Import Interfaces.

(** The result object of [processWithdrawal]. *)
Record WithdrawalResult : Type := mkResult {
  success : bool;
  player : option Player.t;
  error : option string
}.

Definition get (playerId : string) (players : gmap string Player.t)
  : option Player.t :=
  players !! playerId.

Definition processWin (now : Z) (playerId : string) (amount : Z)
  (players : gmap string Player.t)
  : gmap string Player.t * option Player.t :=
  match players !! playerId with
  | None => (players, None)
  | Some player =>
    let player := Player.with_wonAmount (Some (or0 (Player.wonAmount player) + amount)) player in
    let player := Player.with_balance (Some (or0 (Player.balance player) + amount)) player in
    let player := Player.with_lastActive (Some now) player in
    (<[playerId := player]> players, Some player)
  end.

Definition processWithdrawal (now : Z) (playerId : string) (amount : Z)
  (players : gmap string Player.t)
  : gmap string Player.t * WithdrawalResult :=
  match players !! playerId with
  | None => (players, mkResult false None (Some "Player not found"))
  | Some player =>
    if or0 (Player.balance player) <? amount then
      (players, mkResult false None (Some "Insufficient balance"))
    else
      let player := Player.with_balance (Some (or0 (Player.balance player) - amount)) player in
      let player := Player.with_withdrawn (Some (or0 (Player.withdrawn player) + amount)) player in
      let player := Player.with_lastActive (Some now) player in
      (<[playerId := player]> players, mkResult true (Some player) None)
  end.

Definition clearMarkedNumbers (playerId : string)
  (players : gmap string Player.t) : gmap string Player.t :=
  match players !! playerId with
  | Some player => <[playerId := Player.with_markedNumbers ∅ player]> players
  | None => players
  end.

Definition joinRoom (now : Z) (playerId roomId : string)
  (players : gmap string Player.t) : gmap string Player.t * bool :=
  match players !! playerId with
  | None => (players, false)
  | Some player =>
    let player := Player.with_roomId (Some roomId) player in
    let player := Player.with_lastActive (Some now) player in
    (<[playerId := player]> players, true)
  end.

Definition leaveRoom (now : Z) (playerId : string)
  (players : gmap string Player.t) : gmap string Player.t * bool :=
  match players !! playerId with
  | None => (players, false)
  | Some player =>
    let player := Player.with_roomId None player in
    let player := Player.with_markedNumbers ∅ player in
    let player := Player.with_lastActive (Some now) player in
    (<[playerId := player]> players, true)
  end.

Definition markNumber (now : Z) (playerId : string) (number : Z) (marked : bool)
  (players : gmap string Player.t) : gmap string Player.t :=
  match players !! playerId with
  | None => players
  | Some player =>
    let player :=
      if marked
      then Player.with_markedNumbers (Player.markedNumbers player ∪ {[number]}) player
      else Player.with_markedNumbers (Player.markedNumbers player ∖ {[number]}) player in
    let player := Player.with_lastActive (Some now) player in
    <[playerId := player]> players
  end.

(** [isInRoom(playerId, roomId?)]: an absent or empty [roomId] asks
    whether the player is in any room. *)
Definition isInRoom (playerId : string) (roomId : option string)
  (players : gmap string Player.t) : bool :=
  match players !! playerId with
  | None => false
  | Some player =>
    match roomId with
    | Some r =>
      if isEmpty r then bool_decide (Player.roomId player ≠ None)
      else bool_decide (Player.roomId player = Some r)
    | None => bool_decide (Player.roomId player ≠ None)
    end
  end.

End PlayerModel.


(** * models/room.ts *)

Module RoomModel.
Import Interfaces.

(** The private [rooms] map and [roomSequence] counter of the class, and
    the [playerModel] singleton imported from player.ts, which the
    methods read and mutate. *)
Record Store : Type := mkStore {
  rooms : gmap string Room.t;
  roomSequence : nat;
  playerModel : gmap string Player.t
}.

Definition with_rooms (v : gmap string Room.t) (st : Store) : Store :=
  mkStore v (roomSequence st) (playerModel st).
Definition with_playerModel (v : gmap string Player.t) (st : Store) : Store :=
  mkStore (rooms st) (roomSequence st) v.

Definition get (roomId : string) (st : Store) : option Room.t :=
  rooms st !! roomId.

(** The callback [player.roomId = null; player.markedNumbers.clear()]. *)
Definition detachPlayer (pm : gmap string Player.t) (playerId : string)
  : gmap string Player.t :=
  match pm !! playerId with
  | Some player =>
    <[playerId := Player.with_markedNumbers ∅ (Player.with_roomId None player)]> pm
  | None => pm
  end.

Definition remove (roomId : string) (st : Store) : Store * bool :=
  let pm :=
    match rooms st !! roomId with
    | Some room => foldl detachPlayer (playerModel st) (elements (Room.players room))
    | None => playerModel st
    end in
  (mkStore (delete roomId (rooms st)) (roomSequence st) pm,
   bool_decide (is_Some (rooms st !! roomId))).

Definition addPlayer (roomId playerId : string) (st : Store) : Store * bool :=
  match rooms st !! roomId with
  | None => (st, false)
  | Some room =>
    (with_rooms (<[roomId := Room.with_players (Room.players room ∪ {[playerId]}) room]> (rooms st)) st,
     true)
  end.

Definition removePlayer (roomId playerId : string) (st : Store) : Store * bool :=
  match rooms st !! roomId with
  | None => (st, false)
  | Some room =>
    let removed := bool_decide (playerId ∈ Room.players room) in
    let room := Room.with_players (Room.players room ∖ {[playerId]}) room in
    let st := with_rooms (<[roomId := room]> (rooms st)) st in
    if bool_decide (size (Room.players room) = 0%nat)
    then ((remove roomId st).1, removed)
    else (st, removed)
  end.

Definition getPlayerCount (roomId : string) (st : Store) : nat :=
  match rooms st !! roomId with
  | Some room => size (Room.players room)
  | None => 0%nat
  end.

Definition isFull (roomId : string) (maxPlayers : Z) (st : Store) : bool :=
  match rooms st !! roomId with
  | Some room => bool_decide (maxPlayers ≤ Z.of_nat (size (Room.players room)))
  | None => true
  end.

(** [isFull(roomId)] with the default [maxPlayers = 90]. *)
Definition isFull_default (roomId : string) (st : Store) : bool :=
  isFull roomId 90 st.

Definition hasPlayer (roomId playerId : string) (st : Store) : bool :=
  match rooms st !! roomId with
  | Some room => bool_decide (playerId ∈ Room.players room)
  | None => false
  end.

Definition startGame (now : Z) (roomId : string) (st : Store) : Store * bool :=
  match rooms st !! roomId with
  | None => (st, false)
  | Some room =>
    if Room.active room then (st, false)
    else
      let room := Room.with_active true room in
      let room := Room.with_startedAt (Some now) room in
      let room := Room.with_calledNumbers [] room in
      let room := Room.with_winners [] room in
      let pm := foldl (λ pm playerId, PlayerModel.clearMarkedNumbers playerId pm)
                  (playerModel st) (elements (Room.players room)) in
      (mkStore (<[roomId := room]> (rooms st)) (roomSequence st) pm, true)
  end.

(** [player?.stake || 0]. *)
Definition stakeOf (pm : gmap string Player.t) (playerId : string) : Z :=
  match pm !! playerId with
  | Some player => Player.stake player
  | None => 0
  end.

(** The literal [0.03]: the double nearest to 3/100. *)
Definition serviceChargeRate : Double.t :=
  Double.div (Double.ofZ 3) (Double.ofZ 100).

(** The body of [room.winners.forEach]: the winner objects are updated
    in place and [processWin] is called on the player store as it stands
    after the winners before.  The amount is [Math.floor] of a double:
    a whole number, or NaN or an infinity when the ratio is one (the
    stakes of the winners sum to zero).  The ledger of the model holds
    whole numbers: it has no state for a NaN or an infinity that the
    source stores as amount and adds to a balance, and the result is
    [None] then. *)
Fixpoint payWinners (now : Z) (prizePool totalWinnerStake : Double.t)
  (winners : list Winner.t) (pm : gmap string Player.t)
  : option (list Winner.t * gmap string Player.t) :=
  match winners with
  | [] => Some ([], pm)
  | winner :: rest =>
    match pm !! Winner.playerId winner with
    | Some player =>
      let stakeRatio := Double.div (Double.ofZ (Player.stake player)) totalWinnerStake in
      let winAmount := Double.floor (Double.mul prizePool stakeRatio) in
      winAmount ← Double.toZ winAmount;
      let winner := Winner.with_amount winAmount winner in
      let pm := (PlayerModel.processWin now (Winner.playerId winner) winAmount pm).1 in
      '(rest, pm) ← payWinners now prizePool totalWinnerStake rest pm;
      Some (winner :: rest, pm)
    | None =>
      '(rest, pm) ← payWinners now prizePool totalWinnerStake rest pm;
      Some (winner :: rest, pm)
    end
  end.

(** [calculateWinnings(room)]: the room object and the player store
    after the call.  The two sums run over doubles from 0, as [reduce]
    does. *)
Definition calculateWinnings (now : Z) (room : Room.t)
  (pm : gmap string Player.t) : option (Room.t * gmap string Player.t) :=
  if bool_decide (length (Room.winners room) = 0%nat) then Some (room, pm)
  else
    let totalStake :=
      foldl (λ sum playerId, Double.add sum (Double.ofZ (stakeOf pm playerId)))
            (Double.ofZ 0) (elements (Room.players room)) in
    let serviceCharge := Double.mul totalStake serviceChargeRate in
    let prizePool := Double.sub totalStake serviceCharge in
    let totalWinnerStake :=
      foldl (λ sum winner,
               Double.add sum (Double.ofZ (stakeOf pm (Winner.playerId winner))))
            (Double.ofZ 0) (Room.winners room) in
    '(winners, pm) ← payWinners now prizePool totalWinnerStake (Room.winners room) pm;
    Some (Room.with_winners winners room, pm).

Definition endGame (now : Z) (roomId : string) (st : Store)
  : option (Store * bool) :=
  match rooms st !! roomId with
  | None => Some (st, false)
  | Some room =>
    if negb (Room.active room) then Some (st, false)
    else
      let room := Room.with_active false room in
      let room := Room.with_endedAt (Some now) room in
      '(room, pm) ← calculateWinnings now room (playerModel st);
      Some (mkStore (<[roomId := room]> (rooms st)) (roomSequence st) pm, true)
  end.

Definition callNumber (roomId : string) (number : Z) (st : Store) : Store * bool :=
  match rooms st !! roomId with
  | None => (st, false)
  | Some room =>
    if negb (Room.active room) then (st, false)
    else
      (with_rooms (<[roomId := Room.with_calledNumbers (Room.calledNumbers room ++ [number]) room]> (rooms st)) st,
       true)
  end.

(** [winner] comes without its timestamp, which is [now]. *)
Definition addWinner (now : Z) (roomId : string)
  (playerId name pattern : string) (amount : Z) (st : Store) : Store * bool :=
  match rooms st !! roomId with
  | None => (st, false)
  | Some room =>
    if negb (Room.active room) then (st, false)
    else
      let w := Winner.mk playerId name pattern amount now in
      (with_rooms (<[roomId := Room.with_winners (Room.winners room ++ [w]) room]> (rooms st)) st,
       true)
  end.

Definition getCalledNumbers (roomId : string) (st : Store) : list Z :=
  match rooms st !! roomId with
  | Some room => Room.calledNumbers room
  | None => []
  end.

Definition getWinners (roomId : string) (st : Store) : list Winner.t :=
  match rooms st !! roomId with
  | Some room => Room.winners room
  | None => []
  end.

Definition setAdmin (roomId : string) (adminSocket : option endpoint)
  (st : Store) : Store * bool :=
  match rooms st !! roomId with
  | None => (st, false)
  | Some room =>
    (with_rooms (<[roomId := Room.with_admin adminSocket room]> (rooms st)) st, true)
  end.

Definition isGameActive (roomId : string) (st : Store) : bool :=
  match rooms st !! roomId with
  | Some room => Room.active room
  | None => false
  end.

Definition pauseGame (roomId : string) (st : Store) : Store * bool :=
  match rooms st !! roomId with
  | None => (st, false)
  | Some room =>
    if negb (Room.active room) then (st, false)
    else (with_rooms (<[roomId := Room.with_active false room]> (rooms st)) st, true)
  end.

Definition resumeGame (roomId : string) (st : Store) : Store * bool :=
  match rooms st !! roomId with
  | None => (st, false)
  | Some room =>
    if Room.active room then (st, false)
    else (with_rooms (<[roomId := Room.with_active true room]> (rooms st)) st, true)
  end.

End RoomModel.

(** * services/broadcaster.ts *)

Module Broadcaster.
Import Interfaces.

(** What the transport does with a socket at the time of a call: its
    [readyState] (1 is OPEN) and whether [send] throws. *)
Record link : Type := mkLink {
  readyState : Z;
  sendThrows : bool
}.

Definition network : Type := endpoint → link.

(** What a fan-out did: the messages put on sockets, in order, and the
    player ids whose failure went to [console.error]. *)
Record dispatch : Type := mkDispatch {
  sent : list (endpoint * message);
  errors : list string
}.

Definition sentCount (d : dispatch) : nat := length (sent d).

Definition sendToClient (net : network) (client : endpoint) (msg : message)
  : bool * list (endpoint * message) :=
  if negb (readyState (net client) =? 1) then (false, [])
  else if sendThrows (net client) then (false, [])
  else (true, [(client, msg)]).

(** The callback of [room.players.forEach] in [broadcastToRoom]. *)
Definition sendToMember (net : network) (pm : gmap string Player.t)
  (msg : message) (d : dispatch) (playerId : string) : dispatch :=
  match pm !! playerId with
  | Some player =>
    if readyState (net (Player.socket player)) =? 1 then
      if sendThrows (net (Player.socket player))
      then mkDispatch (sent d) (errors d ++ [playerId])
      else mkDispatch (sent d ++ [(Player.socket player, msg)]) (errors d)
    else d
  | None => d
  end.

Definition broadcastToRoom (net : network) (roomId : string) (msg : message)
  (st : RoomModel.Store) : dispatch :=
  match RoomModel.rooms st !! roomId with
  | None => mkDispatch [] []
  | Some room =>
    foldl (sendToMember net (RoomModel.playerModel st) msg) (mkDispatch [] [])
          (elements (Room.players room))
  end.

(** The server as the broadcaster sees it: the two stores, the timers
    set by [setTimeout] that have not fired, the next timer id, and
    everything put on a socket so far. *)
Record Timer : Type := mkTimer {
  timerId : positive;
  timerRoom : string;
  timerDelay : Z
}.

Record World : Type := mkWorld {
  store : RoomModel.Store;
  timers : list Timer;
  nextTimerId : positive;
  wire : list (endpoint * message)
}.

Definition setRoom (roomId : string) (room : Room.t) (w : World) : World :=
  mkWorld (RoomModel.with_rooms (<[roomId := room]> (RoomModel.rooms (store w))) (store w))
          (timers w) (nextTimerId w) (wire w).

Definition transmit (d : dispatch) (w : World) : World :=
  mkWorld (store w) (timers w) (nextTimerId w) (wire w ++ sent d).

Definition batchBroadcast (net : network) (now : Z) (roomId : string)
  (messages : list message) (w : World) : World * bool :=
  match RoomModel.rooms (store w) !! roomId with
  | None => (w, false)
  | Some _ => (transmit (broadcastToRoom net roomId (Batch messages now) (store w)) w, true)
  end.

(** The value [rateLimitedBroadcast] returns: [false], [true], or the
    number that [broadcastToRoom] returned. *)
Inductive rlResult : Type :=
| NoRoom
| Queued
| Broadcast (sentCount : nat).

Definition rateLimitedBroadcast (net : network) (now : Z) (roomId : string)
  (msg : message) (minInterval : Z) (w : World) : World * rlResult :=
  match RoomModel.rooms (store w) !! roomId with
  | None => (w, NoRoom)
  | Some room =>
    let lastBroadcast := or0 (Room.lastBroadcast room) in
    if now - lastBroadcast <? minInterval then
      let queue := default [] (Room.queuedMessages room) ++ [mkQueued msg now] in
      let room := Room.with_queuedMessages (Some queue) room in
      match Room.broadcastTimeout room with
      | None =>
        let room := Room.with_broadcastTimeout (Some (nextTimerId w)) room in
        let w := setRoom roomId room w in
        (mkWorld (store w)
                 (timers w ++ [mkTimer (nextTimerId w) roomId minInterval])
                 (Pos.succ (nextTimerId w)) (wire w),
         Queued)
      | Some _ => (setRoom roomId room w, Queued)
      end
    else
      let room := Room.with_lastBroadcast (Some now) room in
      let w := setRoom roomId room w in
      let d := broadcastToRoom net roomId msg (store w) in
      (transmit d w, Broadcast (sentCount d))
  end.

(** [processQueuedMessages], the callback of the timer.  When the room
    is gone, [room.broadcastTimeout = null] is an assignment to a
    property of [undefined] and throws: [None]. *)
Definition processQueuedMessages (net : network) (now : Z) (roomId : string)
  (w : World) : option World :=
  match RoomModel.rooms (store w) !! roomId with
  | None => None
  | Some room =>
    match Room.queuedMessages room with
    | None | Some [] =>
      Some (setRoom roomId (Room.with_broadcastTimeout None room) w)
    | Some (first :: more) =>
      let messagesToSend := first :: more in
      let room := Room.with_queuedMessages (Some []) room in
      let w := setRoom roomId room w in
      let w :=
        if bool_decide (1 < length messagesToSend)%nat
        then (batchBroadcast net now roomId (map q_message messagesToSend) w).1
        else transmit (broadcastToRoom net roomId (q_message first) (store w)) w in
      let room := Room.with_lastBroadcast (Some now) room in
      let room := Room.with_broadcastTimeout None room in
      Some (setRoom roomId room w)
    end
  end.

(** The steps of the rate limiter: a call of [rateLimitedBroadcast], or
    a pending timer that fires and runs its callback. *)
Inductive step : World → World → Prop :=
| step_call net now roomId msg minInterval w :
    step w (rateLimitedBroadcast net now roomId msg minInterval w).1
| step_fire net now before t after w w' :
    timers w = before ++ t :: after →
    processQueuedMessages net now (timerRoom t)
      (mkWorld (store w) (before ++ after) (nextTimerId w) (wire w)) = Some w' →
    step w w'.

(** A world in which no timer is pending and no room believes one is. *)
Definition quiet (w : World) : Prop :=
  timers w = [] ∧
  ∀ roomId room, RoomModel.rooms (store w) !! roomId = Some room →
                 Room.broadcastTimeout room = None ∧
                 default [] (Room.queuedMessages room) = [].

Inductive reachable : World → Prop :=
| reachable_quiet w : quiet w → reachable w
| reachable_step w w' : reachable w → step w w' → reachable w'.

(** The flushes of [roomId] that are scheduled. *)
Definition pendingFlushes (roomId : string) (w : World) : list Timer :=
  filter (λ t, timerRoom t = roomId) (timers w).

(** [sendToPlayer] and [sendToPlayers]: the answer or the count, and
    what was put on sockets. *)
Definition sendToPlayer (net : network) (playerId : string) (msg : message)
  (pm : gmap string Player.t) : bool * list (endpoint * message) :=
  match pm !! playerId with
  | None => (false, [])
  | Some player =>
    if negb (readyState (net (Player.socket player)) =? 1) then (false, [])
    else sendToClient net (Player.socket player) msg
  end.

Definition sendToPlayers (net : network) (playerIds : list string) (msg : message)
  (pm : gmap string Player.t) : nat * list (endpoint * message) :=
  foldl (λ acc playerId,
           let '(ok, out) := sendToPlayer net playerId msg pm in
           (if ok then S acc.1 else acc.1, acc.2 ++ out))
        (0%nat, []) playerIds.

(** [broadcastNumberCall]: the call goes to the members through
    [broadcastToRoom], and a message of its own goes to the admin bound
    to the room. *)
Definition broadcastNumberCall (net : network) (roomId : string) (number : Z)
  (st : RoomModel.Store) : bool * list (endpoint * message) :=
  match RoomModel.rooms st !! roomId with
  | None => (false, [])
  | Some room =>
    if negb (Room.active room) then (false, [])
    else
      let toMembers := sent (broadcastToRoom net roomId (Event "number_called" roomId) st) in
      let toAdmin :=
        match Room.admin room with
        | Some admin => (sendToClient net admin (Event "admin_number_called" roomId)).2
        | None => []
        end in
      (true, toMembers ++ toAdmin)
  end.

(** [cleanupBroadcastTimeouts]: every room that holds a timer has it
    cleared with [clearTimeout] and forgets it. *)
Definition heldTimers (st : RoomModel.Store) : list positive :=
  omap (λ kv, Room.broadcastTimeout kv.2) (map_to_list (RoomModel.rooms st)).

Definition forgetTimer (room : Room.t) : Room.t :=
  match Room.broadcastTimeout room with
  | Some _ => Room.with_broadcastTimeout None room
  | None => room
  end.

Definition cleanupBroadcastTimeouts (w : World) : World :=
  mkWorld (RoomModel.with_rooms (forgetTimer <$> RoomModel.rooms (store w)) (store w))
          (filter (λ t, timerId t ∉ heldTimers (store w)) (timers w))
          (nextTimerId w) (wire w).

End Broadcaster.

(** * Message handlers: what they share *)

(** A socket as a handler sees it: the transport socket together with
    the [playerId] and [isAdmin] properties the server attached to it. *)
Record WebSocketClient : Type := mkWs {
  ws_socket : endpoint;
  ws_playerId : option string;
  ws_isAdmin : bool
}.

(** What a handler asks of the dispatch layer.  The payload of an
    [Event] keeps the text of an error, without the values the source
    interpolates into it, and abbreviates other objects; the timestamp
    every message carries is left out. *)
Inductive effect : Type :=
| SendToClient (ws : endpoint) (msg : Interfaces.message)
| BroadcastToRoom (roomId : string) (msg : Interfaces.message)
| BroadcastToAdmins (msg : Interfaces.message)
| CloseIfOpen (ws : endpoint) (code : Z) (reason : string).

Definition errorEvent (text : string) : Interfaces.message :=
  Interfaces.Event "error" text.

(** * The handlers of the modular server (src/unnamed/part_001) *)

Module Main.
Import Interfaces.

Record State : Type := mkState {
  rooms : gmap string Room.t;
  players : gmap string Player.t;
  adminConnections : gset endpoint
}.

Definition handleLeaveRoom (ws : WebSocketClient) (playerId roomId : string)
  (st : State) : State * list effect :=
  match players st !! playerId, rooms st !! roomId with
  | Some player, Some room =>
    let room := Room.with_players (Room.players room ∖ {[playerId]}) room in
    let player := Player.with_roomId None player in
    let players' := <[playerId := player]> (players st) in
    if bool_decide (size (Room.players room) = 0%nat) then
      (mkState (delete roomId (rooms st)) players' (adminConnections st),
       [SendToClient (ws_socket ws) (Event "room_left" roomId)])
    else
      (mkState (<[roomId := room]> (rooms st)) players' (adminConnections st),
       [BroadcastToRoom roomId (Event "player_left" playerId);
        SendToClient (ws_socket ws) (Event "room_left" roomId)])
  | _, _ => (st, [])
  end.

Definition handleWebSocketClose (ws : WebSocketClient) (st : State)
  : State * list effect :=
  if ws_isAdmin ws then
    (mkState (rooms st) (players st) (adminConnections st ∖ {[ws_socket ws]}), [])
  else
    match ws_playerId ws with
    | None => (st, [])
    | Some playerId =>
      match (if isEmpty playerId then None else players st !! playerId) with
      | None => (st, [])
      | Some player =>
        let '(rooms', fx) :=
          match Player.roomId player with
          | None => (rooms st, [])
          | Some roomId =>
            if isEmpty roomId then (rooms st, [])
            else
              match rooms st !! roomId with
              | None => (rooms st, [])
              | Some room =>
                let room := Room.with_players (Room.players room ∖ {[playerId]}) room in
                (if bool_decide (size (Room.players room) = 0%nat)
                 then delete (Room.id room) (<[roomId := room]> (rooms st))
                 else <[roomId := room]> (rooms st),
                 [BroadcastToRoom (Room.id room) (Event "player_left" playerId)])
              end
          end in
        (mkState rooms' (delete playerId (players st)) (adminConnections st),
         fx ++ [BroadcastToAdmins (Event "player_disconnected" playerId)])
      end
    end.

(** The room [handleJoinRoom] creates for an id that has none. *)
Definition newRoom (now : Z) (roomId : string) : Room.t :=
  Room.mk roomId "75ball" 25 ∅ None false [] [] now None None None None None.

Definition handleJoinRoom (now : Z) (ws : WebSocketClient)
  (playerId roomId : string) (st : State) : State * list effect :=
  match players st !! playerId with
  | None => (st, [SendToClient (ws_socket ws) (errorEvent "Player not found")])
  | Some player =>
    let '(room, st) :=
      match rooms st !! roomId with
      | Some room => (room, st)
      | None =>
        let room := newRoom now roomId in
        (room, mkState (<[roomId := room]> (rooms st)) (players st) (adminConnections st))
      end in
    if bool_decide (90 ≤ size (Room.players room))%nat then
      (st, [SendToClient (ws_socket ws) (errorEvent "Room is full")])
    else
      let room := Room.with_players (Room.players room ∪ {[playerId]}) room in
      let player := Player.with_roomId (Some roomId) player in
      let player := Player.with_socket (ws_socket ws) player in
      (mkState (<[roomId := room]> (rooms st)) (<[playerId := player]> (players st))
               (adminConnections st),
       [BroadcastToRoom roomId (Event "player_joined" playerId);
        SendToClient (ws_socket ws) (Event "room_joined" roomId)])
  end.

Definition handleWithdraw (ws : WebSocketClient) (playerId : string) (amount : Z)
  (st : State) : State * list effect :=
  match players st !! playerId with
  | None => (st, [SendToClient (ws_socket ws) (errorEvent "Player not found")])
  | Some player =>
    if or0 (Player.balance player) <? amount then
      (st, [SendToClient (ws_socket ws) (errorEvent "Insufficient balance")])
    else
      let player := Player.with_balance (Some (or0 (Player.balance player) - amount)) player in
      let player := Player.with_withdrawn (Some (or0 (Player.withdrawn player) + amount)) player in
      (mkState (rooms st) (<[playerId := player]> (players st)) (adminConnections st),
       [BroadcastToAdmins (Event "withdrawal_request" playerId);
        SendToClient (ws_socket ws) (Event "withdrawal_processing" playerId)])
  end.

(** [handleKickPlayer], to which [handleAdminCommand] hands the command
    [kick_player] of an admin socket; it stands with the handlers of
    this server in src/auth.ts (1137-1156).  An id that is missing from
    the command is an id nobody is registered under.  [close] on a
    socket that is not open closes nothing. *)
Definition handleKickPlayer (ws : WebSocketClient) (playerId : string)
  (st : State) : State * list effect :=
  match players st !! playerId with
  | None => (st, [])
  | Some player =>
    let '(rooms', fx) :=
      match Player.roomId player with
      | None => (rooms st, [])
      | Some roomId =>
        if isEmpty roomId then (rooms st, [])
        else
          match rooms st !! roomId with
          | None => (rooms st, [])
          | Some room =>
            let room := Room.with_players (Room.players room ∖ {[playerId]}) room in
            (<[roomId := room]> (rooms st),
             [BroadcastToRoom (Room.id room) (Event "player_kicked" playerId)])
          end
      end in
    (mkState rooms' (delete playerId (players st)) (adminConnections st),
     fx ++ [CloseIfOpen (Player.socket player) 1000 "Kicked by admin"])
  end.

End Main.

(** * The standalone server (third unit of src/auth.ts) *)

Module Server.
Import Interfaces.

(** Its own [Player] interface.  The fields [lastPing], [isAdmin],
    [adminToken] and [deviceInfo] are declared but never written on a
    player object and are left out. *)
Module Player.
Record t : Type := mk {
  id : string;
  name : string;
  phone : string;
  stake : Z;
  gameType : string;
  payment : Z;
  joinedAt : Z;
  socket : option endpoint;
  roomId : option string;
  markedNumbers : gset Z;
  balance : Z;
  wonAmount : option Z;
  withdrawn : option Z;
  lastPong : option Z
}.
Definition with_socket (v : option endpoint) (p : t) : t :=
  mk (id p) (name p) (phone p) (stake p) (gameType p) (payment p)
     (joinedAt p) v (roomId p) (markedNumbers p) (balance p) (wonAmount p)
     (withdrawn p) (lastPong p).
Definition with_roomId (v : option string) (p : t) : t :=
  mk (id p) (name p) (phone p) (stake p) (gameType p) (payment p)
     (joinedAt p) (socket p) v (markedNumbers p) (balance p) (wonAmount p)
     (withdrawn p) (lastPong p).
Definition with_markedNumbers (v : gset Z) (p : t) : t :=
  mk (id p) (name p) (phone p) (stake p) (gameType p) (payment p)
     (joinedAt p) (socket p) (roomId p) v (balance p) (wonAmount p)
     (withdrawn p) (lastPong p).
Definition with_balance (v : Z) (p : t) : t :=
  mk (id p) (name p) (phone p) (stake p) (gameType p) (payment p)
     (joinedAt p) (socket p) (roomId p) (markedNumbers p) v (wonAmount p)
     (withdrawn p) (lastPong p).
Definition with_wonAmount (v : option Z) (p : t) : t :=
  mk (id p) (name p) (phone p) (stake p) (gameType p) (payment p)
     (joinedAt p) (socket p) (roomId p) (markedNumbers p) (balance p) v
     (withdrawn p) (lastPong p).
Definition with_withdrawn (v : option Z) (p : t) : t :=
  mk (id p) (name p) (phone p) (stake p) (gameType p) (payment p)
     (joinedAt p) (socket p) (roomId p) (markedNumbers p) (balance p)
     (wonAmount p) v (lastPong p).
End Player.

(** Its own [Room] interface ([adminSocket] is declared and never used). *)
Module Room.
Record t : Type := mk {
  id : string;
  gameType : string;
  stake : Z;
  players : gset string;
  admin : option endpoint;
  active : bool;
  calledNumbers : list Z;
  winners : list Winner.t;
  createdAt : Z
}.
Definition with_gameType (v : string) (r : t) : t :=
  mk (id r) v (stake r) (players r) (admin r) (active r) (calledNumbers r)
     (winners r) (createdAt r).
Definition with_stake (v : Z) (r : t) : t :=
  mk (id r) (gameType r) v (players r) (admin r) (active r) (calledNumbers r)
     (winners r) (createdAt r).
Definition with_players (v : gset string) (r : t) : t :=
  mk (id r) (gameType r) (stake r) v (admin r) (active r) (calledNumbers r)
     (winners r) (createdAt r).
Definition with_admin (v : option endpoint) (r : t) : t :=
  mk (id r) (gameType r) (stake r) (players r) v (active r) (calledNumbers r)
     (winners r) (createdAt r).
Definition with_active (v : bool) (r : t) : t :=
  mk (id r) (gameType r) (stake r) (players r) (admin r) v (calledNumbers r)
     (winners r) (createdAt r).
Definition with_calledNumbers (v : list Z) (r : t) : t :=
  mk (id r) (gameType r) (stake r) (players r) (admin r) (active r) v
     (winners r) (createdAt r).
Definition with_winners (v : list Winner.t) (r : t) : t :=
  mk (id r) (gameType r) (stake r) (players r) (admin r) (active r)
     (calledNumbers r) v (createdAt r).
End Room.

(** The three global collections. *)
Record State : Type := mkState {
  rooms : gmap string Room.t;
  players : gmap string Player.t;
  adminConnections : gset endpoint
}.

Definition with_rooms (v : gmap string Room.t) (st : State) : State :=
  mkState v (players st) (adminConnections st).
Definition with_players (v : gmap string Player.t) (st : State) : State :=
  mkState (rooms st) v (adminConnections st).

(** ** Dispatch helpers *)

Import Broadcaster.

(** [player?.socket?.readyState === WebSocket.OPEN], then [send] inside
    [try]/[catch]. *)
Definition sendToMember (net : network) (pm : gmap string Player.t)
  (msg : message) (d : dispatch) (playerId : string) : dispatch :=
  match pm !! playerId with
  | Some player =>
    match Player.socket player with
    | Some s =>
      if readyState (net s) =? 1 then
        if sendThrows (net s)
        then mkDispatch (sent d) (errors d ++ [playerId])
        else mkDispatch (sent d ++ [(s, msg)]) (errors d)
      else d
    | None => d
    end
  | None => d
  end.

(** [room.admin?.readyState === WebSocket.OPEN], then [send] inside
    [try]/[catch]. *)
Definition sendToRoomAdmin (net : network) (admin : option endpoint)
  (msg : message) (d : dispatch) : dispatch :=
  match admin with
  | Some s =>
    if readyState (net s) =? 1 then
      if sendThrows (net s)
      then mkDispatch (sent d) (errors d ++ ["admin"])
      else mkDispatch (sent d ++ [(s, msg)]) (errors d)
    else d
  | None => d
  end.

Definition broadcastToRoom (net : network) (roomId : string) (msg : message)
  (st : State) : dispatch :=
  match rooms st !! roomId with
  | None => mkDispatch [] []
  | Some room =>
    let d := foldl (sendToMember net (players st) msg) (mkDispatch [] [])
                   (elements (Room.players room)) in
    sendToRoomAdmin net (Room.admin room) msg d
  end.

(** ** Handlers *)

Definition newRoom (now : Z) (roomId : string) (player : Player.t) : Room.t :=
  Room.mk roomId (Player.gameType player) (Player.stake player) ∅ None false
          [] [] now.

Definition handleJoinRoom (now : Z) (ws : WebSocketClient)
  (playerId roomId : string) (st : State) : State * list effect :=
  match players st !! playerId with
  | None =>
    (st, [SendToClient (ws_socket ws) (errorEvent "Player not found. Please register first.")])
  | Some player =>
    if Player.balance player <? Player.stake player then
      (st, [SendToClient (ws_socket ws) (errorEvent "Insufficient balance to join room")])
    else
      let '(room, st) :=
        match rooms st !! roomId with
        | Some room => (room, st)
        | None =>
          let room := newRoom now roomId player in
          (room, with_rooms (<[roomId := room]> (rooms st)) st)
        end in
      if bool_decide (90 ≤ size (Room.players room))%nat then
        (st, [SendToClient (ws_socket ws) (errorEvent "Room is full")])
      else if negb (bool_decide (Room.gameType room = Player.gameType player)) then
        (st, [SendToClient (ws_socket ws) (errorEvent "Room game type doesn't match your selected game type")])
      else if negb (Room.stake room =? Player.stake player) then
        (st, [SendToClient (ws_socket ws) (errorEvent "Room stake doesn't match your selected stake")])
      else
        let room := Room.with_players (Room.players room ∪ {[playerId]}) room in
        let player := Player.with_roomId (Some roomId) player in
        let player := Player.with_socket (Some (ws_socket ws)) player in
        let player := Player.with_balance (Player.balance player - Player.stake player) player in
        (mkState (<[roomId := room]> (rooms st)) (<[playerId := player]> (players st))
                 (adminConnections st),
         [BroadcastToRoom roomId (Event "player_joined" playerId);
          SendToClient (ws_socket ws) (Event "room_joined" roomId)])
  end.

Definition handleLeaveRoom (ws : WebSocketClient) (playerId roomId : string)
  (st : State) : State * list effect :=
  match players st !! playerId, rooms st !! roomId with
  | Some player, Some room =>
    let player :=
      if negb (Room.active room)
      then Player.with_balance (Player.balance player + Player.stake player) player
      else player in
    let room := Room.with_players (Room.players room ∖ {[playerId]}) room in
    let player := Player.with_roomId None player in
    let players' := <[playerId := player]> (players st) in
    if bool_decide (size (Room.players room) = 0%nat) then
      (mkState (delete roomId (rooms st)) players' (adminConnections st),
       [SendToClient (ws_socket ws) (Event "room_left" roomId)])
    else
      (mkState (<[roomId := room]> (rooms st)) players' (adminConnections st),
       [BroadcastToRoom roomId (Event "player_left" playerId);
        SendToClient (ws_socket ws) (Event "room_left" roomId)])
  | _, _ => (st, [])
  end.

(** [gameType || room.gameType] and [stake || room.stake]: an absent
    field, the empty string and 0 fall back to the room's value. *)
Definition orString (x : option string) (d : string) : string :=
  match x with
  | Some s => if isEmpty s then d else s
  | None => d
  end.

Definition orNumber (x : option Z) (d : Z) : Z :=
  match x with
  | Some n => if n =? 0 then d else n
  | None => d
  end.

Definition handleStartGame (ws : WebSocketClient) (roomId : string)
  (gameType : option string) (stake : option Z) (st : State)
  : State * list effect :=
  match rooms st !! roomId with
  | None => (st, [SendToClient (ws_socket ws) (errorEvent "Room not found")])
  | Some room =>
    if negb (ws_isAdmin ws) then
      (st, [SendToClient (ws_socket ws) (errorEvent "Admin only action")])
    else if Room.active room then
      (st, [SendToClient (ws_socket ws) (errorEvent "Game is already active")])
    else if bool_decide (size (Room.players room) < 2)%nat then
      (st, [SendToClient (ws_socket ws) (errorEvent "Need at least 2 players to start")])
    else
      let room := Room.with_active true room in
      let room := Room.with_gameType (orString gameType (Room.gameType room)) room in
      let room := Room.with_stake (orNumber stake (Room.stake room)) room in
      let room := Room.with_calledNumbers [] room in
      let room := Room.with_winners [] room in
      let room := Room.with_admin (Some (ws_socket ws)) room in
      (with_rooms (<[roomId := room]> (rooms st)) st,
       [BroadcastToRoom roomId (Event "game_started" roomId);
        SendToClient (ws_socket ws) (Event "game_started" roomId)])
  end.

(** The largest legal number of a game type. *)
Definition maxNumber (gameType : string) : Z :=
  if bool_decide (gameType = "90ball") then 90
  else if bool_decide (gameType = "30ball") then 30
  else if bool_decide (gameType = "50ball") then 50
  else 75.

Definition handleNumberCalled (ws : WebSocketClient) (roomId : string)
  (number : Z) (st : State) : State * list effect :=
  match rooms st !! roomId with
  | None => (st, [SendToClient (ws_socket ws) (errorEvent "Game not active")])
  | Some room =>
    if negb (Room.active room) then
      (st, [SendToClient (ws_socket ws) (errorEvent "Game not active")])
    else if negb (ws_isAdmin ws) then
      (st, [SendToClient (ws_socket ws) (errorEvent "Admin only action")])
    else if (number <? 1) || (maxNumber (Room.gameType room) <? number) then
      (st, [SendToClient (ws_socket ws) (errorEvent "Invalid number")])
    else if bool_decide (number ∈ Room.calledNumbers room) then
      (st, [SendToClient (ws_socket ws) (errorEvent "Number already called")])
    else
      let room := Room.with_calledNumbers (Room.calledNumbers room ++ [number]) room in
      (with_rooms (<[roomId := room]> (rooms st)) st,
       [BroadcastToRoom roomId (Event "number_called" roomId)])
  end.

(** [getRequiredNumbersForPattern]; the game type is not looked at. *)
Definition getRequiredNumbersForPattern (pattern : string) : list Z :=
  if bool_decide (pattern = "line") then [1; 2; 3; 4; 5]
  else if bool_decide (pattern = "two-lines") then [1; 2; 3; 4; 5; 6; 7; 8; 9; 10]
  else if bool_decide (pattern = "full-house") then [1; 2; 3; 4; 5]
  else if bool_decide (pattern = "coverall") then [1; 2; 3; 4; 5; 6; 7; 8; 9; 10]
  else [].

Definition verifyWin (player : Player.t) (pattern : string) (room : Room.t) : bool :=
  let requiredNumbers := getRequiredNumbersForPattern pattern in
  forallb (λ num, bool_decide (num ∈ Player.markedNumbers player)) requiredNumbers
  && bool_decide (0 < length requiredNumbers)%nat.

Definition multiplier (pattern : string) : Z :=
  if bool_decide (pattern = "line") then 3
  else if bool_decide (pattern = "two-lines") then 5
  else if bool_decide (pattern = "full-house") then 10
  else if bool_decide (pattern = "coverall") then 20
  else 1.

Definition calculateWinAmount (room : Room.t) (pattern : string) : Z :=
  let baseAmount := Room.stake room * Z.of_nat (size (Room.players room)) in
  Qfloor (inject_Z (baseAmount * multiplier pattern) * (8 # 10))%Q.

Definition handleWin (now : Z) (ws : WebSocketClient) (playerId pattern : string)
  (amount : option Z) (st : State) : State * list effect :=
  let notInRoom := (st, [SendToClient (ws_socket ws) (errorEvent "Player not in room")]) in
  match players st !! playerId with
  | None => notInRoom
  | Some player =>
    match Player.roomId player with
    | None => notInRoom
    | Some roomId =>
      if isEmpty roomId then notInRoom
      else
        match rooms st !! roomId with
        | None => (st, [SendToClient (ws_socket ws) (errorEvent "Game not active")])
        | Some room =>
          if negb (Room.active room) then
            (st, [SendToClient (ws_socket ws) (errorEvent "Game not active")])
          else if negb (verifyWin player pattern room) then
            (st, [SendToClient (ws_socket ws) (errorEvent "Invalid win claim")])
          else
            let winAmount := orNumber amount (calculateWinAmount room pattern) in
            let w := Winner.mk playerId (Player.name player) pattern winAmount now in
            let room' := Room.with_winners (Room.winners room ++ [w]) room in
            let player := Player.with_wonAmount (Some (or0 (Player.wonAmount player) + winAmount)) player in
            let player := Player.with_balance (Player.balance player + winAmount) player in
            (mkState (<[roomId := room']> (rooms st)) (<[playerId := player]> (players st))
                     (adminConnections st),
             [BroadcastToRoom (Room.id room) (Event "win_announced" playerId)]
             ++ match Room.admin room with
                | Some a => [SendToClient a (Event "player_won" playerId)]
                | None => []
                end
             ++ [SendToClient (ws_socket ws) (Event "win_confirmed" pattern)])
        end
    end
  end.

Definition handlePayment (ws : WebSocketClient) (playerId : string) (amount : Z)
  (st : State) : State * list effect :=
  match players st !! playerId with
  | None => (st, [])
  | Some player =>
    if amount <=? 0 then
      (st, [SendToClient (ws_socket ws) (errorEvent "Invalid amount")])
    else
      let player :=
        Player.mk (Player.id player) (Player.name player) (Player.phone player)
          (Player.stake player) (Player.gameType player)
          (Player.payment player + amount) (Player.joinedAt player)
          (Player.socket player) (Player.roomId player)
          (Player.markedNumbers player) (Player.balance player + amount)
          (Player.wonAmount player) (Player.withdrawn player)
          (Player.lastPong player) in
      (with_players (<[playerId := player]> (players st)) st,
       [BroadcastToAdmins (Event "player_paid" playerId);
        SendToClient (ws_socket ws) (Event "payment_confirmed" playerId)])
  end.

(** [String.prototype.trim], for the white space of ASCII. *)
Definition isSpace (c : ascii) : bool :=
  let n := nat_of_ascii c in
  bool_decide (n = 32 ∨ (9 ≤ n ∧ n ≤ 13))%nat.

Fixpoint trimStart (s : list ascii) : list ascii :=
  match s with
  | c :: rest => if isSpace c then trimStart rest else s
  | [] => []
  end.

Definition trim (s : string) : list ascii :=
  rev (trimStart (rev (trimStart (list_ascii_of_string s)))).

Definition handleWithdraw (ws : WebSocketClient) (playerId : string) (amount : Z)
  (accountNumber : option string) (st : State) : State * list effect :=
  match players st !! playerId with
  | None => (st, [SendToClient (ws_socket ws) (errorEvent "Player not found")])
  | Some player =>
    if amount <=? 0 then
      (st, [SendToClient (ws_socket ws) (errorEvent "Invalid amount")])
    else if Player.balance player <? amount then
      (st, [SendToClient (ws_socket ws) (errorEvent "Insufficient balance")])
    else
      match accountNumber with
      | None => (st, [SendToClient (ws_socket ws) (errorEvent "Invalid account number")])
      | Some account =>
        if bool_decide (length (trim account) < 5)%nat then
          (st, [SendToClient (ws_socket ws) (errorEvent "Invalid account number")])
        else
          let player := Player.with_balance (Player.balance player - amount) player in
          let player := Player.with_withdrawn (Some (or0 (Player.withdrawn player) + amount)) player in
          (with_players (<[playerId := player]> (players st)) st,
           [BroadcastToAdmins (Event "withdrawal_request" playerId);
            SendToClient (ws_socket ws) (Event "withdrawal_processing" playerId)])
      end
  end.

Definition handlePlayerDisconnect (playerId : string) (st : State)
  : State * list effect :=
  match players st !! playerId with
  | None => (st, [])
  | Some player =>
    let '(rooms', fx) :=
      match Player.roomId player with
      | None => (rooms st, [])
      | Some roomId =>
        if isEmpty roomId then (rooms st, [])
        else
          match rooms st !! roomId with
          | None => (rooms st, [])
          | Some room =>
            let room := Room.with_players (Room.players room ∖ {[playerId]}) room in
            (if bool_decide (size (Room.players room) = 0%nat)
             then delete (Room.id room) (<[roomId := room]> (rooms st))
             else <[roomId := room]> (rooms st),
             [BroadcastToRoom (Room.id room) (Event "player_left" playerId)])
          end
      end in
    (mkState rooms' (delete playerId (players st)) (adminConnections st),
     fx ++ [BroadcastToAdmins (Event "player_disconnected" playerId)])
  end.

Definition handleWebSocketClose (ws : WebSocketClient) (st : State)
  : State * list effect :=
  if ws_isAdmin ws then
    (mkState (rooms st) (players st) (adminConnections st ∖ {[ws_socket ws]}), [])
  else
    match ws_playerId ws with
    | None => (st, [])
    | Some playerId =>
      if isEmpty playerId then (st, [])
      else handlePlayerDisconnect playerId st
    end.

Definition handleKickPlayer (ws : WebSocketClient) (playerId : option string)
  (st : State) : State * list effect :=
  match playerId with
  | None => (st, [SendToClient (ws_socket ws) (errorEvent "Player ID required")])
  | Some playerId =>
    if isEmpty playerId then
      (st, [SendToClient (ws_socket ws) (errorEvent "Player ID required")])
    else
      match players st !! playerId with
      | None => (st, [SendToClient (ws_socket ws) (errorEvent "Player not found")])
      | Some player =>
        let closing :=
          match Player.socket player with
          | Some s => [CloseIfOpen s 1000 "Kicked by admin"]
          | None => []
          end in
        let '(st, fx) := handlePlayerDisconnect playerId st in
        (st, closing ++ fx
             ++ [SendToClient (ws_socket ws) (Event "admin_command_result" "kick_player")])
      end
  end.

Definition handleEndGame (ws : WebSocketClient) (roomId : option string)
  (st : State) : State * list effect :=
  match roomId with
  | None => (st, [SendToClient (ws_socket ws) (errorEvent "Room ID required")])
  | Some roomId =>
    if isEmpty roomId then
      (st, [SendToClient (ws_socket ws) (errorEvent "Room ID required")])
    else
      match rooms st !! roomId with
      | None => (st, [SendToClient (ws_socket ws) (errorEvent "Room not found")])
      | Some room =>
        (with_rooms (<[roomId := Room.with_active false room]> (rooms st)) st,
         [BroadcastToRoom roomId (Event "game_ended" "Game has ended");
          SendToClient (ws_socket ws) (Event "admin_command_result" "end_game")])
      end
  end.

Definition clearMarks (pm : gmap string Player.t) (playerId : string)
  : gmap string Player.t :=
  match pm !! playerId with
  | Some player => <[playerId := Player.with_markedNumbers ∅ player]> pm
  | None => pm
  end.

Definition handleResetRoom (ws : WebSocketClient) (roomId : option string)
  (st : State) : State * list effect :=
  match roomId with
  | None => (st, [SendToClient (ws_socket ws) (errorEvent "Room ID required")])
  | Some roomId =>
    if isEmpty roomId then
      (st, [SendToClient (ws_socket ws) (errorEvent "Room ID required")])
    else
      match rooms st !! roomId with
      | None => (st, [SendToClient (ws_socket ws) (errorEvent "Room not found")])
      | Some room =>
        let room := Room.with_calledNumbers [] room in
        let room := Room.with_winners [] room in
        (mkState (<[roomId := room]> (rooms st))
                 (foldl clearMarks (players st) (elements (Room.players room)))
                 (adminConnections st),
         [BroadcastToRoom roomId (Event "room_reset" "Room has been reset");
          SendToClient (ws_socket ws) (Event "admin_command_result" "reset_room")])
      end
  end.

(** The messages that reach a handler which writes the [rooms] map or a
    room object, and the two that move money out of and into a balance.
    [hello], [register], [mark], [chat], [ping], [pong] and the admin
    commands [broadcast], [get_stats] and [get_players] read rooms and
    never write them. *)
Inductive request : Type :=
| JoinRoom (playerId roomId : string)
| LeaveRoom (playerId roomId : string)
| StartGame (roomId : string) (gameType : option string) (stake : option Z)
| NumberCalled (roomId : string) (number : Z)
| Win (playerId pattern : string) (amount : option Z)
| Payment (playerId : string) (amount : Z)
| Withdraw (playerId : string) (amount : Z) (accountNumber : option string)
| KickPlayer (playerId : option string)
| EndGame (roomId : option string)
| ResetRoom (roomId : option string).

Definition isAdminCommand (req : request) : bool :=
  match req with
  | KickPlayer _ | EndGame _ | ResetRoom _ => true
  | _ => false
  end.

(** [handleWebSocketMessage] on a parsed message, with the gate of
    [handleAdminCommand] in front of the admin commands. *)
Definition handleWebSocketMessage (now : Z) (ws : WebSocketClient)
  (req : request) (st : State) : State * list effect :=
  if isAdminCommand req && negb (ws_isAdmin ws) then
    (st, [SendToClient (ws_socket ws) (errorEvent "Admin only action")])
  else
    match req with
    | JoinRoom playerId roomId => handleJoinRoom now ws playerId roomId st
    | LeaveRoom playerId roomId => handleLeaveRoom ws playerId roomId st
    | StartGame roomId gameType stake => handleStartGame ws roomId gameType stake st
    | NumberCalled roomId number => handleNumberCalled ws roomId number st
    | Win playerId pattern amount => handleWin now ws playerId pattern amount st
    | Payment playerId amount => handlePayment ws playerId amount st
    | Withdraw playerId amount account => handleWithdraw ws playerId amount account st
    | KickPlayer playerId => handleKickPlayer ws playerId st
    | EndGame roomId => handleEndGame ws roomId st
    | ResetRoom roomId => handleResetRoom ws roomId st
    end.

(** One step of the server: a message, a closed socket, the sweep of
    [cleanupInactivePlayers] disconnecting a player, or one of the
    handlers that leave [rooms] alone. *)
Inductive step : State → State → Prop :=
| step_message now ws req st :
    step st (handleWebSocketMessage now ws req st).1
| step_close ws st :
    step st (handleWebSocketClose ws st).1
| step_sweep playerId st :
    step st (handlePlayerDisconnect playerId st).1
| step_players_only st players' admins' :
    step st (mkState (rooms st) players' admins').

Definition initial : State := mkState ∅ ∅ ∅.

Inductive reachable : State → Prop :=
| reachable_initial : reachable initial
| reachable_step st st' : reachable st → step st st' → reachable st'.

(** ** The handlers that write players only *)

Definition handleRegister (now : Z) (ws : WebSocketClient)
  (playerId name phone : string) (stake : Z) (gameType : string)
  (payment : option Z) (st : State) : State * list effect :=
  if isEmpty name || isEmpty phone || (stake =? 0) || isEmpty gameType then
    (st, [SendToClient (ws_socket ws)
            (errorEvent "Missing required fields: name, phone, stake, gameType")])
  else if stake <=? 0 then
    (st, [SendToClient (ws_socket ws) (errorEvent "Invalid stake amount")])
  else if bool_decide (is_Some (players st !! playerId)) then
    (st, [SendToClient (ws_socket ws) (errorEvent "Player already registered")])
  else
    let player :=
      Player.mk playerId name phone stake gameType (orNumber payment 0) now
                (Some (ws_socket ws)) None ∅ (orNumber payment 0) None None
                (Some now) in
    (with_players (<[playerId := player]> (players st)) st,
     [BroadcastToAdmins (Event "player_joined" playerId);
      SendToClient (ws_socket ws) (Event "registration_success" playerId)]).

(** [handleHello].  [asAdmin] is [isAdmin && token]; [tokenValid] is the
    verdict of [validateAdminToken] on the token, which reads the clock
    and decodes base64. *)
Definition handleHello (now : Z) (ws : WebSocketClient) (playerId : string)
  (asAdmin tokenValid : bool) (st : State) : State * list effect :=
  if asAdmin then
    if negb tokenValid then
      (st, [SendToClient (ws_socket ws) (errorEvent "Invalid admin token");
            CloseIfOpen (ws_socket ws) 1008 "Invalid admin token"])
    else
      (mkState (rooms st) (players st) (adminConnections st ∪ {[ws_socket ws]}),
       [SendToClient (ws_socket ws) (Event "welcome" "Admin connected successfully");
        SendToClient (ws_socket ws) (Event "stats" EmptyString)])
  else
    match players st !! playerId with
    | Some player =>
      let player :=
        Player.mk (Player.id player) (Player.name player) (Player.phone player)
          (Player.stake player) (Player.gameType player) (Player.payment player)
          (Player.joinedAt player) (Some (ws_socket ws)) (Player.roomId player)
          (Player.markedNumbers player) (Player.balance player)
          (Player.wonAmount player) (Player.withdrawn player) (Some now) in
      (with_players (<[playerId := player]> (players st)) st,
       [SendToClient (ws_socket ws) (Event "welcome" "Reconnected successfully")]
       ++ match Player.roomId player with
          | Some roomId =>
            if isEmpty roomId then []
            else match rooms st !! roomId with
                 | Some room => [SendToClient (ws_socket ws) (Event "room_joined" (Room.id room))]
                 | None => []
                 end
          | None => []
          end)
    | None =>
      (st, [SendToClient (ws_socket ws)
              (Event "welcome" "Connected to bingo server. Please register to play.")])
    end.

Definition handleMark (ws : WebSocketClient) (playerId : string) (number : Z)
  (marked : bool) (st : State) : State * list effect :=
  match players st !! playerId with
  | None => (st, [])
  | Some player =>
    let notInRoom := (st, [SendToClient (ws_socket ws) (errorEvent "Not in a room")]) in
    match Player.roomId player with
    | None => notInRoom
    | Some roomId =>
      if isEmpty roomId then notInRoom
      else
        match rooms st !! roomId with
        | None => (st, [SendToClient (ws_socket ws) (errorEvent "Game not active")])
        | Some room =>
          if negb (Room.active room) then
            (st, [SendToClient (ws_socket ws) (errorEvent "Game not active")])
          else if number <? 1 then
            (st, [SendToClient (ws_socket ws) (errorEvent "Invalid number")])
          else
            let player :=
              if marked
              then Player.with_markedNumbers (Player.markedNumbers player ∪ {[number]}) player
              else Player.with_markedNumbers (Player.markedNumbers player ∖ {[number]}) player in
            (with_players (<[playerId := player]> (players st)) st,
             match Room.admin room with
             | Some a => [SendToClient a (Event "player_marked" playerId)]
             | None => []
             end
             ++ [SendToClient (ws_socket ws) (Event "mark_confirmed" playerId)])
        end
    end
  end.

(** [handlePong], for what it writes on a player. *)
Definition handlePong (now : Z) (ws : WebSocketClient) (st : State) : State :=
  match ws_playerId ws with
  | Some playerId =>
    if isEmpty playerId || ws_isAdmin ws then st
    else
      match players st !! playerId with
      | Some player =>
        let player :=
          Player.mk (Player.id player) (Player.name player) (Player.phone player)
            (Player.stake player) (Player.gameType player) (Player.payment player)
            (Player.joinedAt player) (Player.socket player) (Player.roomId player)
            (Player.markedNumbers player) (Player.balance player)
            (Player.wonAmount player) (Player.withdrawn player) (Some now) in
        with_players (<[playerId := player]> (players st)) st
      | None => st
      end
  | None => st
  end.

(** Every way the three collections are written: the messages of
    [handleWebSocketMessage] above, [register], [hello], [mark] and
    [pong], a closed socket, and the sweep of [cleanupInactivePlayers].
    [chat], [ping], the admin commands [broadcast], [get_stats] and
    [get_players] and the HTTP routes only read them. *)
Inductive transition : State → State → Prop :=
| transition_message now ws req st :
    transition st (handleWebSocketMessage now ws req st).1
| transition_register now ws playerId name phone stake gameType payment st :
    transition st (handleRegister now ws playerId name phone stake gameType payment st).1
| transition_hello now ws playerId asAdmin tokenValid st :
    transition st (handleHello now ws playerId asAdmin tokenValid st).1
| transition_mark ws playerId number marked st :
    transition st (handleMark ws playerId number marked st).1
| transition_pong now ws st :
    transition st (handlePong now ws st)
| transition_close ws st :
    transition st (handleWebSocketClose ws st).1
| transition_sweep playerId st :
    transition st (handlePlayerDisconnect playerId st).1.

Inductive reaches : State → Prop :=
| reaches_initial : reaches initial
| reaches_transition st st' : reaches st → transition st st' → reaches st'.

End Server.

(** * middlewares/auth.ts (first unit of src/auth.ts): rate limiting *)

Module Auth.

(** An entry of the [rateLimit] map. *)
Record LimitInfo : Type := mkLimit {
  count : Z;
  resetTime : Z
}.

Definition RATE_LIMIT_WINDOW : Z := 15 * 60 * 1000.
Definition MAX_REQUESTS : Z := 100.

(** The body the two checks share, for a key and a limit. *)
Definition checkKey (limit : Z) (now : Z) (key : string)
  (rateLimit : gmap string LimitInfo) : gmap string LimitInfo * bool :=
  match rateLimit !! key with
  | None => (<[key := mkLimit 1 (now + RATE_LIMIT_WINDOW)]> rateLimit, true)
  | Some limitInfo =>
    if resetTime limitInfo <? now then
      (<[key := mkLimit 1 (now + RATE_LIMIT_WINDOW)]> rateLimit, true)
    else if limit <=? count limitInfo then (rateLimit, false)
    else (<[key := mkLimit (count limitInfo + 1) (resetTime limitInfo)]> rateLimit, true)
  end.

Definition checkRateLimit (now : Z) (clientIp : string)
  (rateLimit : gmap string LimitInfo) : gmap string LimitInfo * bool :=
  checkKey MAX_REQUESTS now clientIp rateLimit.

(** Players have the lower limit 50, under the key [player_<id>] of the
    same map. *)
Definition checkPlayerRateLimit (now : Z) (playerId : string)
  (rateLimit : gmap string LimitInfo) : gmap string LimitInfo * bool :=
  checkKey 50 now (String.append "player_" playerId) rateLimit.

Definition cleanupRateLimit (now : Z) (rateLimit : gmap string LimitInfo)
  : gmap string LimitInfo :=
  filter (λ kv, ¬ (resetTime kv.2 < now)) rateLimit.

End Auth.

(** * The payout of the specification

    The amounts of the specification's description of the payout, in
    exact arithmetic, to be compared with what
    [RoomModel.calculateWinnings] records. *)

Module PayoutReference.
Import Interfaces.

(** The stake of the player registered under an id; an id nobody is
    registered under has put nothing in. *)
Definition stake (pm : gmap string Player.t) (playerId : string) : Z :=
  from_option Player.stake 0 (pm !! playerId).

(** The total stake of the members still in the room. *)
Definition totalStake (pm : gmap string Player.t) (room : Room.t) : Z :=
  foldr Z.add 0 (stake pm <$> elements (Room.players room)).

(** The fixed fraction taken as service charge. *)
Definition serviceChargeRate : Q := 3 # 100.

Definition prizePool (pm : gmap string Player.t) (room : Room.t) : Q :=
  (inject_Z (totalStake pm room)
   - serviceChargeRate * inject_Z (totalStake pm room))%Q.

(** The sum of the stakes of the recorded winners. *)
Definition winnersStake (pm : gmap string Player.t) (room : Room.t) : Z :=
  foldr Z.add 0 ((λ w, stake pm (Winner.playerId w)) <$> Room.winners room).

(** The floored proportional share of a winner. *)
Definition share (pm : gmap string Player.t) (room : Room.t) (w : Winner.t) : Z :=
  Qfloor (prizePool pm room * inject_Z (stake pm (Winner.playerId w))
          / inject_Z (winnersStake pm room))%Q.

End PayoutReference.

(** * Vocabulary of the proofs *)

(** Every room of the standalone server has called each number at most
    once. *)
Definition calledOnce (rooms : gmap string Server.Room.t) : Prop :=
  map_Forall (λ _ room, NoDup (Server.Room.calledNumbers room)) rooms.

(** A socket the transport can deliver to at the time of the call: it
    is open and [send] on it does not throw. *)
Definition live (net : Broadcaster.network) (s : endpoint) : Prop :=
  Broadcaster.readyState (net s) = 1 ∧ Broadcaster.sendThrows (net s) = false.

(** What the callback of the broadcaster's [forEach] puts on the wire
    for one member. *)
Definition memberDelivery (net : Broadcaster.network)
  (pm : gmap string Interfaces.Player.t) (msg : Interfaces.message)
  (playerId : string) : option (endpoint * Interfaces.message) :=
  player ← pm !! playerId;
  if (Broadcaster.readyState (net (Interfaces.Player.socket player)) =? 1)
     && negb (Broadcaster.sendThrows (net (Interfaces.Player.socket player)))
  then Some (Interfaces.Player.socket player, msg) else None.

(** The same for the standalone server, where a player may have no
    socket. *)
Definition serverMemberDelivery (net : Broadcaster.network)
  (pm : gmap string Server.Player.t) (msg : Interfaces.message)
  (playerId : string) : option (endpoint * Interfaces.message) :=
  player ← pm !! playerId;
  s ← Server.Player.socket player;
  if (Broadcaster.readyState (net s) =? 1) && negb (Broadcaster.sendThrows (net s))
  then Some (s, msg) else None.

(** The number of flushes a room believes it has scheduled: one when
    its [broadcastTimeout] is set, none otherwise. *)
Definition expectedFlushes (roomId : string) (w : Broadcaster.World) : nat :=
  match RoomModel.rooms (Broadcaster.store w) !! roomId
        ≫= Interfaces.Room.broadcastTimeout with
  | Some _ => 1
  | None => 0
  end.

(** What the steps of the rate limiter keep true: the timers that are
    pending for a room are as many as the room believes, and a room with
    queued messages has its [broadcastTimeout] set. *)
Definition limiterInv (w : Broadcaster.World) : Prop :=
  (∀ roomId, length (Broadcaster.pendingFlushes roomId w) = expectedFlushes roomId w)
  ∧ (∀ roomId room,
       RoomModel.rooms (Broadcaster.store w) !! roomId = Some room →
       default [] (Interfaces.Room.queuedMessages room) ≠ [] →
       is_Some (Interfaces.Room.broadcastTimeout room)).

(** What a flush of the given queue puts on the wire. *)
Definition flushed (net : Broadcaster.network) (now : Z) (roomId : string)
  (queue : list Interfaces.queued) (st : RoomModel.Store)
  : list (endpoint * Interfaces.message) :=
  match queue with
  | [] => []
  | [q] => Broadcaster.sent (Broadcaster.broadcastToRoom net roomId (Interfaces.q_message q) st)
  | _ :: _ :: _ =>
    Broadcaster.sent
      (Broadcaster.broadcastToRoom net roomId
         (Interfaces.Batch (Interfaces.q_message <$> queue) now) st)
  end.

(** What [RoomModel.remove] leaves of a member. *)
Definition detached (player : Interfaces.Player.t) : Interfaces.Player.t :=
  Interfaces.Player.with_markedNumbers ∅ (Interfaces.Player.with_roomId None player).

(** Every pending timer is the one its room holds in
    [broadcastTimeout]. *)
Definition timersHeld (w : Broadcaster.World) : Prop :=
  ∀ t, t ∈ Broadcaster.timers w →
       ∃ room, RoomModel.rooms (Broadcaster.store w) !! Broadcaster.timerRoom t = Some room
               ∧ Interfaces.Room.broadcastTimeout room = Some (Broadcaster.timerId t).

(** The rooms and players of the standalone server fit together: a
    room is stored under its own id and has a member, and a player who
    has a [roomId] is a member of the room of that id. *)
Definition wellSeated (rooms : gmap string Server.Room.t)
  (players : gmap string Server.Player.t) : Prop :=
  (∀ roomId room,
     rooms !! roomId = Some room →
     Server.Room.id room = roomId ∧ Server.Room.players room ≠ ∅)
  ∧ (∀ playerId player roomId,
       players !! playerId = Some player →
       Server.Player.roomId player = Some roomId →
       ∃ room, rooms !! roomId = Some room ∧ playerId ∈ Server.Room.players room).

(** Every called number of every room is one of the game type of the
    room. *)
Definition calledInRange (rooms : gmap string Server.Room.t) : Prop :=
  map_Forall (λ _ room,
                Forall (λ n, 1 ≤ n ≤ Server.maxNumber (Server.Room.gameType room))
                       (Server.Room.calledNumbers room)) rooms.

(** The requests that are for an admin socket: the two game messages
    whose handlers ask for [ws.isAdmin], and the admin commands. *)
Definition adminOnly (req : Server.request) : bool :=
  match req with
  | Server.StartGame _ _ _ | Server.NumberCalled _ _
  | Server.KickPlayer _ | Server.EndGame _ | Server.ResetRoom _ => true
  | _ => false
  end.

(** A client asking again and again: the answers of [checkRateLimit] at
    the given times, and the map they leave. *)
Fixpoint requests (times : list Z) (clientIp : string)
  (rateLimit : gmap string Auth.LimitInfo)
  : list bool * gmap string Auth.LimitInfo :=
  match times with
  | [] => ([], rateLimit)
  | now :: later =>
    let '(rateLimit, answer) := Auth.checkRateLimit now clientIp rateLimit in
    let '(answers, rateLimit) := requests later clientIp rateLimit in
    (answer :: answers, rateLimit)
  end.

(** * Concrete states

    Two players with stake 100 in room R1, which admin socket 9 runs. *)

Module Examples.
Import Interfaces.

Definition alice : Player.t :=
  Player.mk "alice" "Alice" "0911000001" 100 "75ball" 100 None None (Some 40)
            0 1%nat (Some "R1") ∅ None.

Definition bob : Player.t :=
  Player.mk "bob" "Bob" "0911000002" 100 "75ball" 100 None None (Some 0)
            0 2%nat (Some "R1") ∅ None.

Definition registry : gmap string Player.t :=
  <["alice" := alice]> (<["bob" := bob]> ∅).

(** Every socket open, no [send] throws. *)
Definition healthy : Broadcaster.network :=
  λ _, Broadcaster.mkLink 1 false.

(** Every socket open, [send] throws on alice's socket 1 and carol's
    socket 3. *)
Definition flaky : Broadcaster.network :=
  λ s, Broadcaster.mkLink 1 (bool_decide (s = 1 ∨ s = 3)%nat).

Definition aliceWon : Winner.t := Winner.mk "alice" "Alice" "line" 0 5.

(** R1 waiting for its game, with alice alone in it. *)
Definition waitingRoom : Room.t :=
  Room.mk "R1" "75ball" 100 {["alice"]} (Some 9%nat) false [] [] 0
          None None None None None.

(** R1 in play: 17 has been called and alice is a recorded winner. *)
Definition activeRoom : Room.t :=
  Room.mk "R1" "75ball" 100 ({["alice"]} ∪ {["bob"]}) (Some 9%nat) true [17]
          [aliceWon] 0 (Some 1) None None None None.

Definition waitingStore : RoomModel.Store :=
  RoomModel.mkStore {["R1" := waitingRoom]} 2 registry.

Definition activeStore : RoomModel.Store :=
  RoomModel.mkStore {["R1" := activeRoom]} 2 registry.

Definition waitingMain : Main.State :=
  Main.mkState {["R1" := waitingRoom]} registry {[9%nat]}.

(** The same situation in the standalone server. *)
Definition carol : Server.Player.t :=
  Server.Player.mk "carol" "Carol" "0911000003" 100 "75ball" 100 0 (Some 3%nat)
                   (Some "R1") ∅ 0 None None None.

Definition dave : Server.Player.t :=
  Server.Player.mk "dave" "Dave" "0911000004" 100 "75ball" 100 0 (Some 4%nat)
                   (Some "R1") ∅ 0 None None None.

Definition serverWaitingRoom : Server.Room.t :=
  Server.Room.mk "R1" "75ball" 100 {["carol"]} (Some 9%nat) false [] [] 0.

Definition serverActiveRoom : Server.Room.t :=
  Server.Room.mk "R1" "75ball" 100 ({["carol"]} ∪ {["dave"]}) (Some 9%nat) true
                 [17] [] 0.

Definition serverWaiting : Server.State :=
  Server.mkState {["R1" := serverWaitingRoom]}
                 (<["carol" := carol]> (<["dave" := dave]> ∅)) {[9%nat]}.

Definition serverActive : Server.State :=
  Server.mkState {["R1" := serverActiveRoom]}
                 (<["carol" := carol]> (<["dave" := dave]> ∅)) {[9%nat]}.

(** The balance a store holds for a player id. *)
Definition balanceOf (playerId : string) (pm : gmap string Player.t) : option Z :=
  or0 ∘ Player.balance <$> pm !! playerId.

(** The game of R1 ended, resumed and ended again. *)
Definition endedOnce : option (RoomModel.Store * bool) :=
  RoomModel.endGame 9 "R1" activeStore.

Definition endedTwice : option (RoomModel.Store * bool) :=
  endedOnce ≫= λ '(st, _), RoomModel.endGame 10 "R1" st.

Definition endedResumed : option (RoomModel.Store * bool) :=
  endedOnce ≫= λ '(st, _), Some (RoomModel.resumeGame "R1" st).

Definition endedResumedEnded : option (RoomModel.Store * bool) :=
  endedOnce ≫= λ '(st, _),
    RoomModel.endGame 11 "R1" (RoomModel.resumeGame "R1" st).1.

(** What a call returned, the amounts the room records for its winners
    after it, and the balance of a player after it. *)
Definition outcome (roomId playerId : string) (call : option (RoomModel.Store * bool))
  : option (bool * list Z * option Z) :=
  '(st, answer) ← call;
  Some (answer, Winner.amount <$> RoomModel.getWinners roomId st,
        balanceOf playerId (RoomModel.playerModel st)).

(** Three players with the stakes 25, 200 and 1000 in R3, a game in
    play in which all three are recorded winners. *)
Definition tiered (playerId : string) (stake : Z) (sock : nat) : Player.t :=
  Player.mk playerId playerId "0911000000" stake "75ball" stake None None (Some 0)
            0 sock (Some "R3") ∅ None.

Definition tieredRegistry : gmap string Player.t :=
  <["p25" := tiered "p25" 25 11]>
    (<["p200" := tiered "p200" 200 12]> (<["p1000" := tiered "p1000" 1000 13]> ∅)).

Definition tieredRoom : Room.t :=
  Room.mk "R3" "75ball" 25 ({["p25"]} ∪ {["p200"]} ∪ {["p1000"]}) None true []
          [Winner.mk "p25" "p25" "line" 0 5; Winner.mk "p200" "p200" "line" 0 6;
           Winner.mk "p1000" "p1000" "line" 0 7]
          0 (Some 1) None None None None.

Definition tieredStore : RoomModel.Store :=
  RoomModel.mkStore {["R3" := tieredRoom]} 2 tieredRegistry.

Definition notice : message := Event "chat_message" "hello".

Definition secondNotice : message := Event "number_called" "17".

(** The broadcaster's world before anything was queued, and after two
    calls of [rateLimitedBroadcast] at times 50 and 60 with a minimum
    interval of 100. *)
Definition calmWorld : Broadcaster.World :=
  Broadcaster.mkWorld activeStore [] 1 [].

Definition busyWorld : Broadcaster.World :=
  (Broadcaster.rateLimitedBroadcast healthy 60 "R1" secondNotice 100
     (Broadcaster.rateLimitedBroadcast healthy 50 "R1" notice 100 calmWorld).1).1.

Definition busyRoom : Room.t :=
  Room.with_broadcastTimeout (Some 1%positive)
    (Room.with_queuedMessages (Some [mkQueued notice 50; mkQueued secondNotice 60])
       activeRoom).

Definition carolSocket : WebSocketClient := mkWs 3 (Some "carol") false.
Definition aliceSocket : WebSocketClient := mkWs 1 (Some "alice") false.
Definition adminSocket : WebSocketClient := mkWs 9 (Some "admin_1") true.

(** A session of the standalone server from its start: erin and finn
    register with 150 each and join R7, the admin starts the game and
    calls 12 and 40. *)
Definition erinSocket : WebSocketClient := mkWs 5 (Some "erin") false.
Definition finnSocket : WebSocketClient := mkWs 6 (Some "finn") false.

Definition registeredErin : Server.State :=
  (Server.handleRegister 1 erinSocket "erin" "Erin" "0911000005" 100 "75ball"
     (Some 150) Server.initial).1.
Definition registeredBoth : Server.State :=
  (Server.handleRegister 2 finnSocket "finn" "Finn" "0911000006" 100 "75ball"
     (Some 150) registeredErin).1.
Definition joinedErin : Server.State :=
  (Server.handleWebSocketMessage 3 erinSocket (Server.JoinRoom "erin" "R7")
     registeredBoth).1.
Definition joinedBoth : Server.State :=
  (Server.handleWebSocketMessage 4 finnSocket (Server.JoinRoom "finn" "R7")
     joinedErin).1.
Definition startedR7 : Server.State :=
  (Server.handleWebSocketMessage 5 adminSocket (Server.StartGame "R7" None None)
     joinedBoth).1.
Definition called12 : Server.State :=
  (Server.handleWebSocketMessage 6 adminSocket (Server.NumberCalled "R7" 12)
     startedR7).1.
Definition called40 : Server.State :=
  (Server.handleWebSocketMessage 7 adminSocket (Server.NumberCalled "R7" 40)
     called12).1.

(** R7 after the two calls. *)
Definition playedR7 : Server.Room.t :=
  Server.Room.mk "R7" "75ball" 100 ({["erin"]} ∪ {["finn"]}) (Some 9%nat) true
                 [12; 40] [] 3.

End Examples.

(** * Proofs *)

(** ** Withdrawals that exceed the balance *)

Section Withdrawal.
Import Interfaces PlayerModel.

(** C1. For a registered player and an amount strictly greater than the
    current balance, [processWithdrawal] returns the failure object with
    the error [Insufficient balance] and the player store is the one it
    was given: balance, withdrawn total and every other field of every
    player are untouched, nothing is withdrawn in part. *)
Theorem processWithdrawal_insufficient
  (now : Z) (playerId : string) (amount : Z)
  (players : gmap string Player.t) (p : Player.t) :
  players !! playerId = Some p ->
  amount > or0 (Player.balance p) ->
  processWithdrawal now playerId amount players
  = (players, mkResult false None (Some "Insufficient balance")).
Proof.
  intros Hget Hgt. unfold processWithdrawal. rewrite Hget.
  destruct (Z.ltb_spec (or0 (Player.balance p)) amount) as [_ | Hle].
  - reflexivity.
  - lia.
Qed.

End Withdrawal.


(** ** Withdrawals in the standalone server *)

Section ServerWithdrawal.
Import Server.

(** The handler of the standalone server refuses the same requests
    before it touches the player: the state is the one it was given, and
    for a positive amount the reply is the error [Insufficient balance]
    (an amount that is not positive is refused one check earlier, as
    [Invalid amount]). *)
Lemma handleWithdraw_insufficient
  (ws : WebSocketClient) (playerId : string) (amount : Z)
  (account : option string) (st : State) (p : Player.t) :
  players st !! playerId = Some p →
  amount > Player.balance p →
  (handleWithdraw ws playerId amount account st).1 = st
  ∧ (0 < amount →
     handleWithdraw ws playerId amount account st
     = (st, [SendToClient (ws_socket ws) (errorEvent "Insufficient balance")])).
Proof.
  intros Hget Hgt. unfold handleWithdraw. rewrite Hget.
  destruct (Z.leb_spec amount 0) as [Hle | Hpos].
  - split; [reflexivity | lia].
  - destruct (Z.ltb_spec (Player.balance p) amount) as [_ | Hge]; [| lia].
    split; reflexivity.
Qed.

End ServerWithdrawal.

Lemma processWithdrawal_insufficient_witness :
  PlayerModel.processWithdrawal 7 "alice" 50 Examples.registry
  = (Examples.registry,
     PlayerModel.mkResult false None (Some "Insufficient balance")).
Proof.
  apply (processWithdrawal_insufficient 7 "alice" 50 Examples.registry Examples.alice).
  - vm_compute. reflexivity.
  - vm_compute. reflexivity.
Defined.

(** ** The room-full query *)

Section RoomFull.
Import Interfaces RoomModel.

(** C10. [isFull] answers [true] for a room id that is not in the store,
    whatever the capacity, and for a stored room exactly when the size of
    its membership is at least the capacity. *)
Theorem isFull_spec (roomId : string) (maxPlayers : Z) (st : Store) :
  (rooms st !! roomId = None → isFull roomId maxPlayers st = true)
  ∧ (∀ room, rooms st !! roomId = Some room →
       (isFull roomId maxPlayers st = true
        ↔ maxPlayers ≤ Z.of_nat (size (Room.players room)))).
Proof.
  unfold isFull. split.
  - intros ->. reflexivity.
  - intros room ->. apply bool_decide_eq_true.
Qed.

Lemma isFull_spec_witness :
  isFull "R7" 90 Examples.waitingStore = true
  ∧ (isFull "R1" 1 Examples.waitingStore = true
     ↔ 1 ≤ Z.of_nat (size (Room.players Examples.waitingRoom))).
Proof.
  split.
  - apply (proj1 (isFull_spec "R7" 90 Examples.waitingStore)).
    vm_compute. reflexivity.
  - apply (proj2 (isFull_spec "R1" 1 Examples.waitingStore)).
    vm_compute. reflexivity.
Defined.

(** With the default capacity an unknown room is full and a room of one
    is not. *)
Example isFull_default_examples :
  isFull_default "R7" Examples.waitingStore = true
  ∧ isFull_default "R1" Examples.waitingStore = false.
Proof. split; vm_compute; reflexivity. Qed.

End RoomFull.

(** ** The last member leaves *)

Section LastMember.
Import Interfaces.

Lemma remove_of_emptied roomId room st :
  Room.players room = ∅ →
  RoomModel.remove roomId
    (RoomModel.with_rooms (<[roomId := room]> (RoomModel.rooms st)) st)
  = (RoomModel.mkStore (delete roomId (RoomModel.rooms st))
       (RoomModel.roomSequence st) (RoomModel.playerModel st), true).
Proof.
  intros Hempty. unfold RoomModel.remove, RoomModel.with_rooms.
  cbn [RoomModel.rooms RoomModel.playerModel RoomModel.roomSequence].
  rewrite lookup_insert_eq, Hempty, elements_empty, delete_insert_eq.
  cbn [foldl]. rewrite bool_decide_eq_true_2 by eauto. reflexivity.
Qed.

(** When [removePlayer] or [handleLeaveRoom] of the modular server
    leaves the membership of a room empty the room is deleted by the
    same call, and [get] of that room id finds nothing afterwards. *)
Theorem empty_room_is_destroyed (roomId playerId : string) :
  (∀ st room,
     RoomModel.rooms st !! roomId = Some room →
     Room.players room ∖ {[playerId]} = ∅ →
     RoomModel.rooms (RoomModel.removePlayer roomId playerId st).1
     = delete roomId (RoomModel.rooms st)
     ∧ RoomModel.get roomId (RoomModel.removePlayer roomId playerId st).1 = None)
  ∧ (∀ ws st player room,
       Main.players st !! playerId = Some player →
       Main.rooms st !! roomId = Some room →
       Room.players room ∖ {[playerId]} = ∅ →
       Main.rooms (Main.handleLeaveRoom ws playerId roomId st).1
       = delete roomId (Main.rooms st)
       ∧ Main.rooms (Main.handleLeaveRoom ws playerId roomId st).1 !! roomId = None).
Proof.
  split.
  - intros st room Hroom Hempty. unfold RoomModel.removePlayer, RoomModel.get.
    rewrite Hroom. cbn [Room.players Room.with_players].
    rewrite Hempty, size_empty, bool_decide_eq_true_2 by reflexivity.
    rewrite remove_of_emptied by reflexivity.
    cbn [fst RoomModel.rooms]. split; [reflexivity | apply lookup_delete_eq].
  - intros ws st player room Hplayer Hroom Hempty. unfold Main.handleLeaveRoom.
    rewrite Hplayer, Hroom. cbn [Room.players Room.with_players].
    rewrite Hempty, size_empty, bool_decide_eq_true_2 by reflexivity.
    cbn [fst Main.rooms]. split; [reflexivity | apply lookup_delete_eq].
Qed.

Lemma empty_room_is_destroyed_witness :
  RoomModel.get "R1" (RoomModel.removePlayer "R1" "alice" Examples.waitingStore).1 = None
  ∧ Main.rooms (Main.handleLeaveRoom Examples.aliceSocket "alice" "R1" Examples.waitingMain).1 !! "R1" = None.
Proof.
  split.
  - apply (proj1 (empty_room_is_destroyed "R1" "alice") Examples.waitingStore Examples.waitingRoom).
    + vm_compute. reflexivity.
    + vm_compute. reflexivity.
  - apply (proj2 (empty_room_is_destroyed "R1" "alice") Examples.aliceSocket
             Examples.waitingMain Examples.alice Examples.waitingRoom).
    + vm_compute. reflexivity.
    + vm_compute. reflexivity.
    + vm_compute. reflexivity.
Defined.

(** C5.  A room is to be destroyed when its last member leaves it.  The
    leave request and the close of a socket do so; the kick of an admin
    does not.  [handleKickPlayer] takes the player out of the room's
    membership and out of the registry and leaves the room where it is:
    when the player was the last member the room stays in the map with
    no member, where [handleLeaveRoom] for the same player deletes
    it. *)
Theorem handleKickPlayer_leaves_empty_room ws playerId roomId st player room :
  Main.players st !! playerId = Some player →
  Player.roomId player = Some roomId →
  isEmpty roomId = false →
  Main.rooms st !! roomId = Some room →
  Room.players room ∖ {[playerId]} = ∅ →
  Main.rooms (Main.handleKickPlayer ws playerId st).1 !! roomId
  = Some (Room.with_players ∅ room)
  ∧ Main.players (Main.handleKickPlayer ws playerId st).1 !! playerId = None
  ∧ Main.rooms (Main.handleLeaveRoom ws playerId roomId st).1 !! roomId = None.
Proof.
  intros Hplayer HroomId Hid Hroom Hempty. split; [| split].
  - unfold Main.handleKickPlayer. rewrite Hplayer, HroomId, Hid, Hroom.
    cbn [fst Main.rooms]. rewrite lookup_insert_eq, Hempty. reflexivity.
  - unfold Main.handleKickPlayer. rewrite Hplayer, HroomId, Hid, Hroom.
    cbn [fst Main.players]. apply lookup_delete_eq.
  - unfold Main.handleLeaveRoom.
    rewrite Hplayer, Hroom. cbn [Room.players Room.with_players].
    rewrite Hempty, size_empty, bool_decide_eq_true_2 by reflexivity.
    cbn [fst Main.rooms]. apply lookup_delete_eq.
Qed.

Lemma handleKickPlayer_leaves_empty_room_witness :
  Main.rooms (Main.handleKickPlayer Examples.adminSocket "alice" Examples.waitingMain).1
    !! "R1"
  = Some (Room.with_players ∅ Examples.waitingRoom)
  ∧ Main.players (Main.handleKickPlayer Examples.adminSocket "alice"
                    Examples.waitingMain).1 !! "alice" = None
  ∧ Main.rooms (Main.handleLeaveRoom Examples.adminSocket "alice" "R1"
                  Examples.waitingMain).1 !! "R1" = None.
Proof.
  apply (handleKickPlayer_leaves_empty_room Examples.adminSocket "alice" "R1"
           Examples.waitingMain Examples.alice Examples.waitingRoom).
  - vm_compute. reflexivity.
  - reflexivity.
  - reflexivity.
  - vm_compute. reflexivity.
  - vm_compute. reflexivity.
Defined.

(** While somebody else is still in the room it stays, without the one
    who left. *)
Lemma removePlayer_keeps_inhabited_room roomId playerId st room :
  RoomModel.rooms st !! roomId = Some room →
  Room.players room ∖ {[playerId]} ≠ ∅ →
  RoomModel.get roomId (RoomModel.removePlayer roomId playerId st).1
  = Some (Room.with_players (Room.players room ∖ {[playerId]}) room).
Proof.
  intros Hroom Hne. unfold RoomModel.removePlayer, RoomModel.get.
  rewrite Hroom. cbn [Room.players Room.with_players].
  rewrite bool_decide_eq_false_2.
  - cbn. apply lookup_insert_eq.
  - intros Hsize. apply Hne. apply leibniz_equiv, size_empty_iff. exact Hsize.
Qed.

End LastMember.

(** ** Leaving a room and the stake *)

Section LeaveRefund.
Import Interfaces.

(** C6, as the code has it.  In the standalone server a player who
    leaves a room whose game is not active has exactly the own stake
    added to the balance, and a player who leaves an active room keeps
    the balance; either way the player is out of the membership and has
    no room.  In the modular server, where joining takes no stake, leaving changes
    no balance, active game or not. *)
Theorem leave_room_refund (ws : WebSocketClient) (playerId roomId : string) :
  (∀ st player room,
     Server.players st !! playerId = Some player →
     Server.rooms st !! roomId = Some room →
     ∃ player',
       Server.players (Server.handleLeaveRoom ws playerId roomId st).1 !! playerId
       = Some player'
       ∧ Server.Player.balance player'
         = (if Server.Room.active room
            then Server.Player.balance player
            else Server.Player.balance player + Server.Player.stake player)
       ∧ Server.Player.roomId player' = None
       ∧ ∀ room', Server.rooms (Server.handleLeaveRoom ws playerId roomId st).1 !! roomId
                  = Some room' → playerId ∉ Server.Room.players room')
  ∧ (∀ st player room,
       Main.players st !! playerId = Some player →
       Main.rooms st !! roomId = Some room →
       ∃ player',
         Main.players (Main.handleLeaveRoom ws playerId roomId st).1 !! playerId
         = Some player'
         ∧ Player.balance player' = Player.balance player
         ∧ Player.roomId player' = None).
Proof.
  split.
  - intros st player room Hplayer Hroom. unfold Server.handleLeaveRoom.
    rewrite Hplayer, Hroom.
    eexists. split; [| split; [| split]].
    + destruct (bool_decide _); cbn [fst Server.players]; apply lookup_insert_eq.
    + destruct (Server.Room.active room); reflexivity.
    + reflexivity.
    + intros room'. destruct (bool_decide _); cbn [fst Server.rooms].
      * rewrite lookup_delete_eq. discriminate.
      * rewrite lookup_insert_eq. intros Heq. injection Heq as <-. cbn.
        intros Hin. apply elem_of_difference in Hin as [_ Hout].
        apply Hout, elem_of_singleton. reflexivity.
  - intros st player room Hplayer Hroom. unfold Main.handleLeaveRoom.
    rewrite Hplayer, Hroom.
    eexists. split; [| split].
    + destruct (bool_decide _); cbn [fst Main.players]; apply lookup_insert_eq.
    + reflexivity.
    + reflexivity.
Qed.

Lemma leave_room_refund_witness :
  (∃ player',
     Server.players (Server.handleLeaveRoom Examples.carolSocket "carol" "R1"
                       Examples.serverWaiting).1 !! "carol" = Some player'
     ∧ Server.Player.balance player' = 0 + 100)
  ∧ (∃ player',
       Main.players (Main.handleLeaveRoom Examples.aliceSocket "alice" "R1"
                       Examples.waitingMain).1 !! "alice" = Some player'
       ∧ Player.balance player' = Some 40).
Proof.
  split.
  - destruct (proj1 (leave_room_refund Examples.carolSocket "carol" "R1")
                Examples.serverWaiting Examples.carol Examples.serverWaitingRoom)
      as (p' & Hp' & Hbal & _).
    + vm_compute. reflexivity.
    + vm_compute. reflexivity.
    + exists p'. split; [exact Hp' | exact Hbal].
  - destruct (proj2 (leave_room_refund Examples.aliceSocket "alice" "R1")
                Examples.waitingMain Examples.alice Examples.waitingRoom)
      as (p' & Hp' & Hbal & _).
    + vm_compute. reflexivity.
    + vm_compute. reflexivity.
    + exists p'. split; [exact Hp' | exact Hbal].
Defined.

(** In the modular server alice, stake 100 and balance 40, leaves R1 before its game
    has started: the balance is still 40, not 140. *)
Lemma main_leave_waiting_room_no_refund :
  Room.active Examples.waitingRoom = false
  ∧ Player.stake Examples.alice = 100
  ∧ or0 (Player.balance Examples.alice) = 40
  ∧ (or0 ∘ Player.balance) <$>
      (Main.players (Main.handleLeaveRoom Examples.aliceSocket "alice" "R1"
                       Examples.waitingMain).1 !! "alice") = Some 40
  ∧ ¬ ((or0 ∘ Player.balance) <$>
         (Main.players (Main.handleLeaveRoom Examples.aliceSocket "alice" "R1"
                          Examples.waitingMain).1 !! "alice")
       = Some (or0 (Player.balance Examples.alice) + Player.stake Examples.alice)).
Proof.
  repeat split; try (vm_compute; reflexivity).
  vm_compute. discriminate.
Qed.

End LeaveRefund.

(** ** An admin socket closes *)

Section AdminClose.
Import Interfaces.

(** C9, as the code has it.  When the socket of an admin closes, both
    servers take it out of [adminConnections] and do nothing else: no
    room is destroyed and no field of any room changes, neither the
    membership, the called numbers, the winners and the active flag,
    nor the admin binding, which goes on naming the closed socket. *)
Theorem admin_close_leaves_rooms (ws : WebSocketClient) :
  ws_isAdmin ws = true →
  (∀ st, Main.handleWebSocketClose ws st
         = (Main.mkState (Main.rooms st) (Main.players st)
              (Main.adminConnections st ∖ {[ws_socket ws]}), []))
  ∧ (∀ st, Server.handleWebSocketClose ws st
           = (Server.mkState (Server.rooms st) (Server.players st)
                (Server.adminConnections st ∖ {[ws_socket ws]}), [])).
Proof.
  intros Hadmin. split; intros st.
  - unfold Main.handleWebSocketClose. rewrite Hadmin. reflexivity.
  - unfold Server.handleWebSocketClose. rewrite Hadmin. reflexivity.
Qed.

Lemma admin_close_leaves_rooms_witness :
  Main.rooms (Main.handleWebSocketClose Examples.adminSocket Examples.waitingMain).1
  = Main.rooms Examples.waitingMain
  ∧ Server.rooms (Server.handleWebSocketClose Examples.adminSocket Examples.serverActive).1
    = Server.rooms Examples.serverActive.
Proof.
  destruct (admin_close_leaves_rooms Examples.adminSocket) as [Hmain Hserver].
  - reflexivity.
  - rewrite Hmain, Hserver. split; reflexivity.
Defined.

(** Socket 9 is the admin bound to R1; after it has closed R1 still
    names socket 9 as its admin, in the standalone server and in
    the modular server: the binding has not been cleared. *)
Lemma admin_close_keeps_binding :
  Server.Room.admin <$> (Server.rooms Examples.serverActive !! "R1") = Some (Some 9%nat)
  ∧ Server.Room.admin <$>
      (Server.rooms (Server.handleWebSocketClose Examples.adminSocket
                       Examples.serverActive).1 !! "R1") = Some (Some 9%nat)
  ∧ Room.admin <$>
      (Main.rooms (Main.handleWebSocketClose Examples.adminSocket
                     Examples.waitingMain).1 !! "R1") = Some (Some 9%nat)
  ∧ ¬ (Server.Room.admin <$>
         (Server.rooms (Server.handleWebSocketClose Examples.adminSocket
                          Examples.serverActive).1 !! "R1") = Some None).
Proof.
  repeat split; try (vm_compute; reflexivity).
  vm_compute. discriminate.
Qed.

End AdminClose.

(** ** Calling a number *)

Section CallNumber.
Import Interfaces.

(** [RoomModel.callNumber] looks at nothing but the room and its active
    flag: in an active room any number is appended. *)
Lemma callNumber_appends roomId number st room :
  RoomModel.rooms st !! roomId = Some room →
  Room.active room = true →
  RoomModel.callNumber roomId number st
  = (RoomModel.with_rooms
       (<[roomId := Room.with_calledNumbers (Room.calledNumbers room ++ [number]) room]>
          (RoomModel.rooms st)) st, true).
Proof.
  intros Hroom Hactive. unfold RoomModel.callNumber.
  rewrite Hroom, Hactive. reflexivity.
Qed.

(** C3.  The specification wants a call of a number that has been
    called, or that lies outside the legal range of the room's variant,
    rejected with the room left as it is, so that no called-number list
    ever holds a duplicate.  [RoomModel.callNumber] does not do that.
    R1 is an active 75-ball room in which 17 has been called: calling 17
    again is accepted and 17 is in the list twice; calling 200 is
    accepted as well. *)
Theorem callNumber_accepts_duplicate_and_out_of_range :
  RoomModel.isGameActive "R1" Examples.activeStore = true
  ∧ RoomModel.getCalledNumbers "R1" Examples.activeStore = [17]
  ∧ (RoomModel.callNumber "R1" 17 Examples.activeStore).2 = true
  ∧ RoomModel.getCalledNumbers "R1"
      (RoomModel.callNumber "R1" 17 Examples.activeStore).1 = [17; 17]
  ∧ (RoomModel.callNumber "R1" 200 Examples.activeStore).2 = true
  ∧ RoomModel.getCalledNumbers "R1"
      (RoomModel.callNumber "R1" 200 Examples.activeStore).1 = [17; 200].
Proof. repeat split; vm_compute; reflexivity. Qed.

(** X16.  The handler of the standalone server does what [callNumber] leaves
    out: in an active room a number that has been called, or that lies
    outside 1..[maxNumber], is answered with an error and the state is
    the one the handler was given. *)
Lemma handleNumberCalled_rejects ws roomId number st room :
  Server.rooms st !! roomId = Some room →
  Server.Room.active room = true →
  number ∈ Server.Room.calledNumbers room
  ∨ number < 1 ∨ Server.maxNumber (Server.Room.gameType room) < number →
  ∃ text,
    Server.handleNumberCalled ws roomId number st
    = (st, [SendToClient (ws_socket ws) (errorEvent text)]).
Proof.
  intros Hroom Hactive Hbad. unfold Server.handleNumberCalled.
  rewrite Hroom, Hactive. cbn [negb].
  destruct (ws_isAdmin ws); cbn [negb]; [| eauto].
  destruct (Z.ltb_spec number 1) as [Hlow | Hlow]; cbn [orb]; [eauto |].
  destruct (Z.ltb_spec (Server.maxNumber (Server.Room.gameType room)) number)
    as [Hhigh | Hhigh]; [eauto |].
  destruct Hbad as [Hdup | [Hlt | Hgt]]; [| lia | lia].
  rewrite bool_decide_eq_true_2 by exact Hdup. eauto.
Qed.

(** A number it accepts is new and in range, and is put at the end. *)
Lemma handleNumberCalled_accepts ws roomId number st room :
  Server.rooms st !! roomId = Some room →
  Server.Room.active room = true →
  ws_isAdmin ws = true →
  number ∉ Server.Room.calledNumbers room →
  1 ≤ number ≤ Server.maxNumber (Server.Room.gameType room) →
  Server.rooms (Server.handleNumberCalled ws roomId number st).1 !! roomId
  = Some (Server.Room.with_calledNumbers (Server.Room.calledNumbers room ++ [number]) room).
Proof.
  intros Hroom Hactive Hadmin Hnew Hrange. unfold Server.handleNumberCalled.
  rewrite Hroom, Hactive, Hadmin. cbn [negb].
  destruct (Z.ltb_spec number 1); [lia |].
  destruct (Z.ltb_spec (Server.maxNumber (Server.Room.gameType room)) number); [lia |].
  cbn [orb]. rewrite bool_decide_eq_false_2 by exact Hnew.
  cbn. apply lookup_insert_eq.
Qed.

Lemma calledOnce_insert rooms roomId room :
  calledOnce rooms → NoDup (Server.Room.calledNumbers room) →
  calledOnce (<[roomId := room]> rooms).
Proof. intros Hall Hroom. apply map_Forall_insert_2; assumption. Qed.

Lemma calledOnce_delete rooms roomId :
  calledOnce rooms → calledOnce (delete roomId rooms).
Proof. intros Hall. apply map_Forall_delete. exact Hall. Qed.

Lemma calledOnce_lookup rooms roomId room :
  calledOnce rooms → rooms !! roomId = Some room →
  NoDup (Server.Room.calledNumbers room).
Proof. intros Hall Hroom. exact (Hall roomId room Hroom). Qed.

Local Ltac room_fields :=
  cbn [Server.Room.calledNumbers Server.Room.with_players Server.Room.with_admin
       Server.Room.with_active Server.Room.with_winners
       Server.Room.with_calledNumbers Server.Room.with_stake
       Server.Room.with_gameType Server.newRoom].

Local Ltac called_once :=
  repeat first
    [ assumption
    | apply calledOnce_delete
    | apply calledOnce_insert
    | progress room_fields
    | apply NoDup_nil_2
    | eapply calledOnce_lookup; eassumption ].

Local Ltac called_step :=
  repeat case_match; simplify_eq;
  cbn [fst snd Server.rooms Server.with_rooms Server.with_players];
  called_once.

Lemma handlePlayerDisconnect_calledOnce playerId st :
  calledOnce (Server.rooms st) →
  calledOnce (Server.rooms (Server.handlePlayerDisconnect playerId st).1).
Proof. intros Hall. unfold Server.handlePlayerDisconnect. called_step. Qed.

Lemma handleWebSocketMessage_calledOnce now ws req st :
  calledOnce (Server.rooms st) →
  calledOnce (Server.rooms (Server.handleWebSocketMessage now ws req st).1).
Proof.
  intros Hall. unfold Server.handleWebSocketMessage.
  destruct (Server.isAdminCommand req && negb (ws_isAdmin ws)); [exact Hall |].
  destruct req.
  - unfold Server.handleJoinRoom. called_step.
  - unfold Server.handleLeaveRoom. called_step.
  - unfold Server.handleStartGame. called_step.
  - unfold Server.handleNumberCalled. called_step.
    apply NoDup_app. split; [called_once |]. split.
    + intros x Hx Hx'. apply list_elem_of_singleton in Hx'. subst.
      match goal with H : bool_decide _ = false |- _ =>
        apply bool_decide_eq_false in H; contradiction end.
    + apply NoDup_singleton.
  - unfold Server.handleWin. called_step.
  - unfold Server.handlePayment. called_step.
  - unfold Server.handleWithdraw. called_step.
  - unfold Server.handleKickPlayer. called_step.
    all: match goal with H : Server.handlePlayerDisconnect ?p ?s = _ |- _ =>
      pose proof (handlePlayerDisconnect_calledOnce p s Hall) as Hd;
      rewrite H in Hd; exact Hd end.
  - unfold Server.handleEndGame. called_step.
  - unfold Server.handleResetRoom. called_step.
Qed.

(** X15.  In every state the standalone server can reach, the called numbers
    of every room are without duplicates. *)
Lemma server_calledNumbers_NoDup st :
  Server.reachable st →
  ∀ roomId room, Server.rooms st !! roomId = Some room →
                 NoDup (Server.Room.calledNumbers room).
Proof.
  intros Hreach. enough (calledOnce (Server.rooms st)) as Hall.
  { intros roomId room. apply calledOnce_lookup. exact Hall. }
  induction Hreach as [| st st' _ IH Hstep].
  - apply map_Forall_empty.
  - destruct Hstep.
    + apply handleWebSocketMessage_calledOnce. exact IH.
    + unfold Server.handleWebSocketClose. repeat case_match; try exact IH.
      apply handlePlayerDisconnect_calledOnce. exact IH.
    + apply handlePlayerDisconnect_calledOnce. exact IH.
    + exact IH.
Qed.

End CallNumber.

(** ** Ending a game twice *)

Section PayoutTwice.
Import Interfaces RoomModel.

(** [calculateWinnings] writes the winners and nothing else of the
    room. *)
Lemma calculateWinnings_active now room pm room1 pm1 :
  calculateWinnings now room pm = Some (room1, pm1) →
  Room.active room1 = Room.active room.
Proof.
  unfold calculateWinnings. destruct (bool_decide _).
  - intros [= <- _]. reflexivity.
  - destruct (payWinners _ _ _ _ _) as [[ws pm'] |]; cbn; [| discriminate].
    intros [= <- _]. reflexivity.
Qed.

(** A room without recorded winners is left alone, and so is every
    balance. *)
Lemma calculateWinnings_no_winner now room pm :
  Room.winners room = [] → calculateWinnings now room pm = Some (room, pm).
Proof. intros Hws. unfold calculateWinnings. rewrite Hws. reflexivity. Qed.

(** [endGame] on the room it has just closed is refused and changes
    nothing: the flag [active] is what keeps the payout from running
    again. *)
Lemma endGame_again now now' roomId st st1 :
  endGame now roomId st = Some (st1, true) →
  endGame now' roomId st1 = Some (st1, false).
Proof.
  unfold endGame.
  destruct (rooms st !! roomId) as [room |] eqn:Hroom; [| intros [=]].
  destruct (Room.active room) eqn:Hactive; cbn [negb]; [| intros [=]].
  destruct (calculateWinnings _ _ _) as [[room1 pm1] |] eqn:Hcalc; cbn; [| discriminate].
  intros [= <-]. cbn [rooms]. rewrite lookup_insert_eq.
  rewrite (calculateWinnings_active _ _ _ _ _ Hcalc). reflexivity.
Qed.

(** C2.  The distribution is to be idempotent per room: run a second
    time it must leave the recorded amounts as they are and pay nobody
    again.  The code keeps no record of having paid.  What stands
    between a room and a second payout is the flag [active], which
    [endGame] clears, and [resumeGame] sets it again on a game that has
    ended.  In R1 alice and bob are the members, each with the stake
    100, and alice, whose balance is 40, is the recorded winner.
    [endGame] records the amount 194 and takes her balance to 234, and
    [endGame] once more is refused.  [resumeGame] is accepted then, and
    so is the [endGame] after it, which records 194 again and takes the
    balance to 428. *)
Theorem endGame_resumeGame_endGame_pays_twice :
  Examples.outcome "R1" "alice" Examples.endedOnce = Some (true, [194], Some 234)
  ∧ Examples.outcome "R1" "alice" Examples.endedTwice = Some (false, [194], Some 234)
  ∧ snd <$> Examples.endedResumed = Some true
  ∧ Examples.outcome "R1" "alice" Examples.endedResumedEnded
    = Some (true, [194], Some 428).
Proof. repeat split; vm_compute; reflexivity. Qed.

End PayoutTwice.

(** ** The audience of a room broadcast *)

Section Audience.
Import Interfaces Broadcaster.

Lemma live_iff net s :
  (readyState (net s) =? 1) && negb (sendThrows (net s)) = true ↔ live net s.
Proof.
  unfold live. rewrite andb_true_iff, Z.eqb_eq, negb_true_iff. reflexivity.
Qed.

Lemma sendToMember_sent net pm msg d playerId :
  sent (sendToMember net pm msg d playerId)
  = sent d ++ option_list (memberDelivery net pm msg playerId).
Proof.
  unfold sendToMember, memberDelivery.
  destruct (pm !! playerId) as [player |]; cbn; [| symmetry; apply app_nil_r].
  destruct (readyState (net (Player.socket player)) =? 1); cbn;
    [| symmetry; apply app_nil_r].
  destruct (sendThrows (net (Player.socket player))); cbn;
    [symmetry; apply app_nil_r | reflexivity].
Qed.

Lemma fold_sendToMember_sent net pm msg l d :
  sent (foldl (sendToMember net pm msg) d l)
  = sent d ++ omap (memberDelivery net pm msg) l.
Proof.
  revert d. induction l as [| playerId l IH]; intros d; cbn [foldl omap list_omap].
  - symmetry. apply app_nil_r.
  - rewrite IH, sendToMember_sent, <- app_assoc. f_equal.
    destruct (memberDelivery net pm msg playerId); reflexivity.
Qed.

Lemma server_sendToMember_sent net pm msg d playerId :
  sent (Server.sendToMember net pm msg d playerId)
  = sent d ++ option_list (serverMemberDelivery net pm msg playerId).
Proof.
  unfold Server.sendToMember, serverMemberDelivery.
  destruct (pm !! playerId) as [player |]; cbn; [| symmetry; apply app_nil_r].
  destruct (Server.Player.socket player) as [s |]; cbn; [| symmetry; apply app_nil_r].
  destruct (readyState (net s) =? 1); cbn; [| symmetry; apply app_nil_r].
  destruct (sendThrows (net s)); cbn; [symmetry; apply app_nil_r | reflexivity].
Qed.

Lemma server_fold_sendToMember_sent net pm msg l d :
  sent (foldl (Server.sendToMember net pm msg) d l)
  = sent d ++ omap (serverMemberDelivery net pm msg) l.
Proof.
  revert d. induction l as [| playerId l IH]; intros d; cbn [foldl omap list_omap].
  - symmetry. apply app_nil_r.
  - rewrite IH, server_sendToMember_sent, <- app_assoc. f_equal.
    destruct (serverMemberDelivery net pm msg playerId); reflexivity.
Qed.

Lemma sendToRoomAdmin_sent net admin msg d :
  sent (Server.sendToRoomAdmin net admin msg d)
  = sent d ++ match admin with
              | Some s =>
                if (readyState (net s) =? 1) && negb (sendThrows (net s))
                then [(s, msg)] else []
              | None => []
              end.
Proof.
  unfold Server.sendToRoomAdmin.
  destruct admin as [s |]; [| symmetry; apply app_nil_r].
  destruct (readyState (net s) =? 1); cbn; [| symmetry; apply app_nil_r].
  destruct (sendThrows (net s)); cbn; [symmetry; apply app_nil_r | reflexivity].
Qed.

(** The sockets [broadcastToRoom] of the broadcaster reaches: the live
    sockets of the registered members, each with the message; the admin
    bound to the room is not among the recipients. *)
Lemma broadcaster_audience net roomId msg st room s m :
  RoomModel.rooms st !! roomId = Some room →
  (s, m) ∈ sent (broadcastToRoom net roomId msg st)
  ↔ m = msg ∧ live net s
    ∧ ∃ playerId player,
        playerId ∈ Room.players room
        ∧ RoomModel.playerModel st !! playerId = Some player
        ∧ Player.socket player = s.
Proof.
  intros Hroom. unfold broadcastToRoom. rewrite Hroom.
  rewrite fold_sendToMember_sent. cbn [sent app].
  rewrite list_elem_of_omap. split.
  - intros (playerId & Hin & Hdel). apply elem_of_elements in Hin.
    unfold memberDelivery in Hdel.
    destruct (RoomModel.playerModel st !! playerId) as [player |] eqn:Hp;
      cbn in Hdel; [| discriminate].
    destruct (_ && _) eqn:Hlive in Hdel; [| discriminate].
    injection Hdel as <- <-. apply live_iff in Hlive. eauto 10.
  - intros (-> & Hlive & playerId & player & Hin & Hp & <-).
    exists playerId. split; [apply elem_of_elements; exact Hin |].
    unfold memberDelivery. rewrite Hp. cbn.
    apply live_iff in Hlive. rewrite Hlive. reflexivity.
Qed.

(** The sockets [broadcastToRoom] of the standalone server reaches: the
    live sockets of the registered members and the live admin socket
    bound to the room. *)
Lemma server_audience net roomId msg st room s m :
  Server.rooms st !! roomId = Some room →
  (s, m) ∈ sent (Server.broadcastToRoom net roomId msg st)
  ↔ m = msg ∧ live net s
    ∧ ((∃ playerId player,
          playerId ∈ Server.Room.players room
          ∧ Server.players st !! playerId = Some player
          ∧ Server.Player.socket player = Some s)
       ∨ Server.Room.admin room = Some s).
Proof.
  intros Hroom. unfold Server.broadcastToRoom. rewrite Hroom.
  rewrite sendToRoomAdmin_sent, server_fold_sendToMember_sent. cbn [sent app].
  rewrite elem_of_app, list_elem_of_omap. split.
  - intros [(playerId & Hin & Hdel) | Hadmin].
    + apply elem_of_elements in Hin. unfold serverMemberDelivery in Hdel.
      destruct (Server.players st !! playerId) as [player |] eqn:Hp;
        cbn in Hdel; [| discriminate].
      destruct (Server.Player.socket player) as [s' |] eqn:Hs;
        cbn in Hdel; [| discriminate].
      destruct (_ && _) eqn:Hlive in Hdel; [| discriminate].
      injection Hdel as <- <-. apply live_iff in Hlive. eauto 10.
    + destruct (Server.Room.admin room) as [a |]; [| inversion Hadmin].
      destruct (_ && _) eqn:Hlive in Hadmin; [| inversion Hadmin].
      apply list_elem_of_singleton in Hadmin. injection Hadmin as <- <-.
      apply live_iff in Hlive. auto.
  - intros (-> & Hlive & [(playerId & player & Hin & Hp & Hs) | Hadmin]).
    + left. exists playerId. split; [apply elem_of_elements; exact Hin |].
      unfold serverMemberDelivery. rewrite Hp. cbn. rewrite Hs. cbn.
      apply live_iff in Hlive. rewrite Hlive. reflexivity.
    + right. rewrite Hadmin. apply live_iff in Hlive. rewrite Hlive.
      apply list_elem_of_singleton. reflexivity.
Qed.

(** C7, as the code has it.  [broadcastToRoom] of the broadcaster puts
    the message on exactly the live sockets of the room's registered
    members; [broadcastToRoom] of the standalone server puts it on those
    and on the live admin socket bound to the room.  Whether a socket
    gets the message depends on that socket alone: a [send] that throws
    on another socket takes nothing away from it. *)
Theorem broadcastToRoom_audience (net : network) (roomId : string) (msg : message) :
  (∀ st room s m,
     RoomModel.rooms st !! roomId = Some room →
     (s, m) ∈ sent (broadcastToRoom net roomId msg st)
     ↔ m = msg ∧ live net s
       ∧ ∃ playerId player,
           playerId ∈ Room.players room
           ∧ RoomModel.playerModel st !! playerId = Some player
           ∧ Player.socket player = s)
  ∧ (∀ st room s m,
       Server.rooms st !! roomId = Some room →
       (s, m) ∈ sent (Server.broadcastToRoom net roomId msg st)
       ↔ m = msg ∧ live net s
         ∧ ((∃ playerId player,
               playerId ∈ Server.Room.players room
               ∧ Server.players st !! playerId = Some player
               ∧ Server.Player.socket player = Some s)
            ∨ Server.Room.admin room = Some s)).
Proof.
  split; intros st room s m Hroom.
  - apply broadcaster_audience. exact Hroom.
  - apply server_audience. exact Hroom.
Qed.

(** [send] throws on alice's and carol's sockets: bob, dave and the
    admin of the standalone server's room get the message all the
    same. *)
Lemma broadcastToRoom_audience_witness :
  (2%nat, Examples.notice)
    ∈ sent (broadcastToRoom Examples.flaky "R1" Examples.notice Examples.activeStore)
  ∧ (4%nat, Examples.notice)
      ∈ sent (Server.broadcastToRoom Examples.flaky "R1" Examples.notice Examples.serverActive)
  ∧ (9%nat, Examples.notice)
      ∈ sent (Server.broadcastToRoom Examples.flaky "R1" Examples.notice Examples.serverActive).
Proof.
  destruct (broadcastToRoom_audience Examples.flaky "R1" Examples.notice)
    as [Hbroadcaster Hserver].
  split; [| split].
  - apply (Hbroadcaster Examples.activeStore Examples.activeRoom).
    + vm_compute. reflexivity.
    + split; [reflexivity |]. split; [split; vm_compute; reflexivity |].
      exists "bob", Examples.bob. split; [| split].
      * apply elem_of_union_r, elem_of_singleton. reflexivity.
      * vm_compute. reflexivity.
      * reflexivity.
  - apply (Hserver Examples.serverActive Examples.serverActiveRoom).
    + vm_compute. reflexivity.
    + split; [reflexivity |]. split; [split; vm_compute; reflexivity |].
      left. exists "dave", Examples.dave. split; [| split].
      * apply elem_of_union_r, elem_of_singleton. reflexivity.
      * vm_compute. reflexivity.
      * reflexivity.
  - apply (Hserver Examples.serverActive Examples.serverActiveRoom).
    + vm_compute. reflexivity.
    + split; [reflexivity |]. split; [split; vm_compute; reflexivity |].
      right. reflexivity.
Defined.

(** R1 has the open admin socket 9 bound to it; the broadcaster's
    [broadcastToRoom] sends to alice's socket 1 and bob's socket 2 and
    to nobody else: the admin gets nothing. *)
Lemma broadcaster_skips_admin :
  Room.admin Examples.activeRoom = Some 9%nat
  ∧ live Examples.healthy 9%nat
  ∧ (sent (broadcastToRoom Examples.healthy "R1" Examples.notice Examples.activeStore)).*1
    ≡ₚ [1%nat; 2%nat]
  ∧ ¬ (9%nat, Examples.notice)
      ∈ sent (broadcastToRoom Examples.healthy "R1" Examples.notice Examples.activeStore).
Proof.
  split; [reflexivity |]. split; [split; reflexivity |]. split.
  - vm_compute. first [reflexivity | apply perm_swap].
  - intros Hin.
    apply (broadcaster_audience _ _ _ Examples.activeStore Examples.activeRoom) in Hin;
      [| vm_compute; reflexivity].
    destruct Hin as (_ & _ & playerId & player & Hin & Hp & Hs).
    apply elem_of_union in Hin as [Hin | Hin]; apply elem_of_singleton in Hin;
      subst playerId; vm_compute in Hp; injection Hp as <-; discriminate.
Qed.

End Audience.

(** ** The rate-limited broadcast *)

Section RateLimit.
Import Interfaces Broadcaster.

Lemma pendingFlushes_snoc roomId st ts t next wr :
  pendingFlushes roomId (mkWorld st (ts ++ [t]) next wr)
  = pendingFlushes roomId (mkWorld st ts next wr)
    ++ (if decide (timerRoom t = roomId) then [t] else []).
Proof.
  unfold pendingFlushes. cbn [timers]. rewrite filter_app. reflexivity.
Qed.

Lemma pendingFlushes_fired roomId st before t after next wr :
  length (pendingFlushes roomId (mkWorld st (before ++ t :: after) next wr))
  = (length (pendingFlushes roomId (mkWorld st (before ++ after) next wr))
     + (if decide (timerRoom t = roomId) then 1 else 0))%nat.
Proof.
  unfold pendingFlushes. cbn [timers]. rewrite !filter_app, !length_app.
  destruct (decide (timerRoom t = roomId)) as [Heq | Hne].
  - rewrite filter_cons_True by exact Heq. cbn [length]. lia.
  - rewrite filter_cons_False by exact Hne. lia.
Qed.

Lemma expectedFlushes_setRoom_eq roomId room w :
  expectedFlushes roomId (setRoom roomId room w)
  = match Room.broadcastTimeout room with Some _ => 1%nat | None => 0%nat end.
Proof.
  unfold expectedFlushes, setRoom. cbn [store RoomModel.rooms RoomModel.with_rooms].
  rewrite lookup_insert_eq. reflexivity.
Qed.

Lemma expectedFlushes_setRoom_ne roomId roomId' room w :
  roomId ≠ roomId' →
  expectedFlushes roomId' (setRoom roomId room w) = expectedFlushes roomId' w.
Proof.
  intros Hne. unfold expectedFlushes, setRoom.
  cbn [store RoomModel.rooms RoomModel.with_rooms].
  rewrite lookup_insert_ne by exact Hne. reflexivity.
Qed.

Lemma expectedFlushes_lookup roomId room w :
  RoomModel.rooms (store w) !! roomId = Some room →
  expectedFlushes roomId w
  = match Room.broadcastTimeout room with Some _ => 1%nat | None => 0%nat end.
Proof. intros Hroom. unfold expectedFlushes. rewrite Hroom. reflexivity. Qed.

(** The fan-out to a room looks at its members, not at its queue. *)
Lemma broadcastToRoom_setRoom net roomId msg room room' w :
  RoomModel.rooms (store w) !! roomId = Some room →
  Room.players room' = Room.players room →
  broadcastToRoom net roomId msg (store (setRoom roomId room' w))
  = broadcastToRoom net roomId msg (store w).
Proof.
  intros Hroom Hplayers. unfold broadcastToRoom, setRoom.
  cbn [store RoomModel.rooms RoomModel.with_rooms RoomModel.playerModel].
  rewrite lookup_insert_eq, Hroom, Hplayers. reflexivity.
Qed.

(** A call inside the minimum interval: the message goes to the end of
    the queue, nothing goes on the wire, and a timer is set when the
    room has none. *)
Lemma rateLimitedBroadcast_queued net now roomId msg minInterval w room :
  RoomModel.rooms (store w) !! roomId = Some room →
  now - or0 (Room.lastBroadcast room) < minInterval →
  let queue := default [] (Room.queuedMessages room) ++ [mkQueued msg now] in
  rateLimitedBroadcast net now roomId msg minInterval w
  = match Room.broadcastTimeout room with
    | None =>
      (mkWorld (store (setRoom roomId
                         (Room.with_broadcastTimeout (Some (nextTimerId w))
                            (Room.with_queuedMessages (Some queue) room)) w))
               (timers w ++ [mkTimer (nextTimerId w) roomId minInterval])
               (Pos.succ (nextTimerId w)) (wire w), Queued)
    | Some _ =>
      (setRoom roomId (Room.with_queuedMessages (Some queue) room) w, Queued)
    end.
Proof.
  intros Hroom Hsoon. unfold rateLimitedBroadcast. rewrite Hroom.
  destruct (Z.ltb_spec (now - or0 (Room.lastBroadcast room)) minInterval); [| lia].
  cbn [Room.broadcastTimeout Room.with_queuedMessages].
  destruct (Room.broadcastTimeout room); reflexivity.
Qed.

(** The callback of the timer on a room that exists. *)
Lemma processQueuedMessages_flush net now roomId w room :
  RoomModel.rooms (store w) !! roomId = Some room →
  ∃ w',
    processQueuedMessages net now roomId w = Some w'
    ∧ timers w' = timers w
    ∧ wire w' = wire w ++ flushed net now roomId (default [] (Room.queuedMessages room)) (store w)
    ∧ (∀ roomId', roomId ≠ roomId' →
         RoomModel.rooms (store w') !! roomId' = RoomModel.rooms (store w) !! roomId')
    ∧ ∃ room',
        RoomModel.rooms (store w') !! roomId = Some room'
        ∧ default [] (Room.queuedMessages room') = []
        ∧ Room.broadcastTimeout room' = None.
Proof.
  intros Hroom. unfold processQueuedMessages. rewrite Hroom.
  assert (∀ r w0 roomId', roomId ≠ roomId' →
            RoomModel.rooms (store (setRoom roomId r w0)) !! roomId'
            = RoomModel.rooms (store w0) !! roomId') as Hother.
  { intros r w0 roomId' Hne. unfold setRoom.
    cbn [store RoomModel.rooms RoomModel.with_rooms].
    apply lookup_insert_ne. exact Hne. }
  assert (∀ r w0, RoomModel.rooms (store (setRoom roomId r w0)) !! roomId = Some r)
    as Hsame.
  { intros r w0. unfold setRoom. cbn [store RoomModel.rooms RoomModel.with_rooms].
    apply lookup_insert_eq. }
  destruct (Room.queuedMessages room) as [[| first [| second more]] |] eqn:Hqueue.
  - eexists. split; [reflexivity |]. split; [reflexivity |].
    split; [cbn; symmetry; apply app_nil_r |]. split; [apply Hother |].
    eexists. split; [apply Hsame |]. cbn. rewrite Hqueue. auto.
  - eexists. split; [reflexivity |]. split; [reflexivity |]. split.
    { rewrite bool_decide_eq_false_2 by (cbn; lia).
      cbn [wire setRoom transmit].
      rewrite (broadcastToRoom_setRoom _ _ _ room) by (exact Hroom || reflexivity).
      reflexivity. }
    split.
    { intros roomId' Hne. rewrite Hother by exact Hne.
      rewrite bool_decide_eq_false_2 by (cbn; lia).
      cbn [transmit store]. apply Hother. exact Hne. }
    eexists. split; [apply Hsame |]. auto.
  - eexists. split; [reflexivity |]. split.
    { rewrite bool_decide_eq_true_2 by (cbn; lia).
      unfold batchBroadcast. rewrite Hsame. reflexivity. }
    split.
    { rewrite bool_decide_eq_true_2 by (cbn; lia).
      unfold batchBroadcast. rewrite Hsame.
      cbn [fst wire setRoom transmit].
      rewrite (broadcastToRoom_setRoom _ _ _ room) by (exact Hroom || reflexivity).
      reflexivity. }
    split.
    { intros roomId' Hne. rewrite Hother by exact Hne.
      rewrite bool_decide_eq_true_2 by (cbn; lia).
      unfold batchBroadcast. rewrite Hsame.
      cbn [fst transmit store]. apply Hother. exact Hne. }
    eexists. split; [apply Hsame |]. auto.
  - eexists. split; [reflexivity |]. split; [reflexivity |].
    split; [cbn; symmetry; apply app_nil_r |]. split; [apply Hother |].
    eexists. split; [apply Hsame |]. cbn. rewrite Hqueue. auto.
Qed.

Lemma quiet_limiterInv w : quiet w → limiterInv w.
Proof.
  intros [Htimers Hrooms]. split.
  - intros roomId. unfold pendingFlushes, expectedFlushes. rewrite Htimers.
    destruct (RoomModel.rooms (store w) !! roomId) as [room |] eqn:Hroom;
      [| reflexivity].
    destruct (Hrooms _ _ Hroom) as [Hnone _]. cbn. rewrite Hnone. reflexivity.
  - intros roomId room Hroom Hqueue. destruct (Hrooms _ _ Hroom) as [_ Hempty].
    contradiction.
Qed.

Lemma call_limiterInv net now roomId msg minInterval w :
  limiterInv w →
  limiterInv (rateLimitedBroadcast net now roomId msg minInterval w).1.
Proof.
  intros [Hcount Hqueue].
  destruct (RoomModel.rooms (store w) !! roomId) as [room |] eqn:Hroom.
  2:{ unfold rateLimitedBroadcast. rewrite Hroom. split; assumption. }
  assert (∀ r w0 roomId' room', 
            RoomModel.rooms (store (setRoom roomId r w0)) !! roomId' = Some room' →
            (roomId' = roomId ∧ room' = r)
            ∨ (roomId' ≠ roomId ∧ RoomModel.rooms (store w0) !! roomId' = Some room'))
    as Hcases.
  { intros r w0 roomId' room'. unfold setRoom.
    cbn [store RoomModel.rooms RoomModel.with_rooms].
    destruct (decide (roomId = roomId')) as [<- | Hne].
    - rewrite lookup_insert_eq. intros [= <-]. left. auto.
    - rewrite lookup_insert_ne by exact Hne. intros ?. right. auto. }
  destruct (Z.ltb_spec (now - or0 (Room.lastBroadcast room)) minInterval) as [Hsoon | Hlate].
  - rewrite (rateLimitedBroadcast_queued _ _ _ _ _ _ room) by assumption.
    pose proof (Hcount roomId) as Hhere.
    rewrite (expectedFlushes_lookup _ room) in Hhere by exact Hroom.
    destruct (Room.broadcastTimeout room) as [timer |] eqn:Htimer; cbn [fst].
    + split.
      * intros roomId'. destruct (decide (roomId = roomId')) as [<- | Hne].
        -- rewrite expectedFlushes_setRoom_eq. cbn. rewrite Htimer. exact Hhere.
        -- rewrite expectedFlushes_setRoom_ne by exact Hne. apply Hcount.
      * intros roomId' room' Hroom' Hq.
        apply Hcases in Hroom' as [[-> ->] | [Hne Hroom']].
        -- cbn. rewrite Htimer. eauto.
        -- eapply Hqueue; eassumption.
    + split.
      * intros roomId'. rewrite pendingFlushes_snoc, length_app. cbn [timerRoom].
        unfold expectedFlushes at 1. cbn [store].
        fold (expectedFlushes roomId'
                (setRoom roomId
                   (Room.with_broadcastTimeout (Some (nextTimerId w))
                      (Room.with_queuedMessages
                         (Some (default [] (Room.queuedMessages room) ++ [mkQueued msg now]))
                         room)) w)).
        destruct (decide (roomId = roomId')) as [<- | Hne].
        -- rewrite expectedFlushes_setRoom_eq. cbn.
           change (length (pendingFlushes roomId w) + 1 = 1)%nat. lia.
        -- rewrite expectedFlushes_setRoom_ne by exact Hne. cbn.
           change (length (pendingFlushes roomId' w) + 0 = expectedFlushes roomId' w)%nat.
           rewrite Hcount. lia.
      * intros roomId' room' Hroom' Hq. cbn [store] in Hroom'.
        apply Hcases in Hroom' as [[-> ->] | [Hne Hroom']].
        -- cbn. eauto.
        -- eapply Hqueue; eassumption.
  - unfold rateLimitedBroadcast. rewrite Hroom.
    destruct (Z.ltb_spec (now - or0 (Room.lastBroadcast room)) minInterval); [lia |].
    cbn [fst]. split.
    + intros roomId'.
      change (length (pendingFlushes roomId' w)
              = expectedFlushes roomId' (setRoom roomId (Room.with_lastBroadcast (Some now) room) w)).
      destruct (decide (roomId = roomId')) as [<- | Hne].
      * rewrite expectedFlushes_setRoom_eq. cbn.
        rewrite Hcount. apply expectedFlushes_lookup. exact Hroom.
      * rewrite expectedFlushes_setRoom_ne by exact Hne. apply Hcount.
    + intros roomId' room' Hroom' Hq. cbn [transmit store] in Hroom'.
      apply Hcases in Hroom' as [[-> ->] | [Hne Hroom']].
      * cbn in *. eapply Hqueue; eassumption.
      * eapply Hqueue; eassumption.
Qed.

Lemma fire_limiterInv net now before t after w w' :
  limiterInv w →
  timers w = before ++ t :: after →
  processQueuedMessages net now (timerRoom t)
    (mkWorld (store w) (before ++ after) (nextTimerId w) (wire w)) = Some w' →
  limiterInv w'.
Proof.
  intros [Hcount Hqueue] Htimers Hfire.
  set (w0 := mkWorld (store w) (before ++ after) (nextTimerId w) (wire w)) in *.
  assert (∀ roomId, length (pendingFlushes roomId w)
                    = (length (pendingFlushes roomId w0)
                       + (if decide (timerRoom t = roomId) then 1 else 0))%nat)
    as Hfired.
  { intros roomId. unfold w0. rewrite <- pendingFlushes_fired.
    unfold pendingFlushes. cbn [timers]. rewrite Htimers. reflexivity. }
  pose proof (Hfired (timerRoom t)) as Hhere.
  rewrite decide_True in Hhere by reflexivity. rewrite Hcount in Hhere.
  destruct (RoomModel.rooms (store w) !! timerRoom t) as [room |] eqn:Hroom.
  2:{ unfold expectedFlushes in Hhere. rewrite Hroom in Hhere. cbn in Hhere. lia. }
  destruct (processQueuedMessages_flush net now (timerRoom t) w0 room Hroom)
    as (w1 & Hw1 & Htimers1 & _ & Hother & room' & Hroom' & Hempty & Hnone).
  rewrite Hfire in Hw1. injection Hw1 as <-.
  assert (∀ roomId, pendingFlushes roomId w' = pendingFlushes roomId w0) as Hpending.
  { intros roomId. unfold pendingFlushes. rewrite Htimers1. reflexivity. }
  split.
  - intros roomId. rewrite Hpending.
    destruct (decide (timerRoom t = roomId)) as [<- | Hne].
    + rewrite (expectedFlushes_lookup _ room') by exact Hroom'. rewrite Hnone.
      rewrite (expectedFlushes_lookup _ room) in Hhere by exact Hroom.
      destruct (Room.broadcastTimeout room); lia.
    + pose proof (Hfired roomId) as Hthere.
      rewrite decide_False in Hthere by exact Hne.
      assert (expectedFlushes roomId w' = expectedFlushes roomId w) as ->
        by (unfold expectedFlushes; rewrite (Hother _ Hne); reflexivity).
      rewrite <- Hcount. lia.
  - intros roomId room'' Hroom'' Hq.
    destruct (decide (timerRoom t = roomId)) as [<- | Hne].
    + rewrite Hroom' in Hroom''. injection Hroom'' as <-. contradiction.
    + rewrite (Hother _ Hne) in Hroom''. eapply Hqueue; eassumption.
Qed.

Lemma reachable_limiterInv w : reachable w → limiterInv w.
Proof.
  induction 1 as [w Hquiet | w w' _ IH Hstep].
  - apply quiet_limiterInv. exact Hquiet.
  - destruct Hstep.
    + apply call_limiterInv. exact IH.
    + eapply fire_limiterInv; eassumption.
Qed.

(** C8.  In every world the rate limiter can reach, for every room:
    a call that arrives less than the minimum interval after the room's
    last broadcast returns [true], puts nothing on the wire and leaves
    its message at the end of the room's queue; at most one flush is
    pending for the room, and one is pending whenever the queue is not
    empty; and the flush sends a lone queued message as it is, several
    queued messages as one batch envelope that holds them in the order
    in which they were queued, and leaves the queue empty and the timer
    slot free. *)
Theorem rateLimitedBroadcast_queues_and_flushes
  (w : World) (roomId : string) (room : Room.t) :
  reachable w →
  RoomModel.rooms (store w) !! roomId = Some room →
  (∀ net now msg minInterval,
     now - or0 (Room.lastBroadcast room) < minInterval →
     (rateLimitedBroadcast net now roomId msg minInterval w).2 = Queued
     ∧ wire (rateLimitedBroadcast net now roomId msg minInterval w).1 = wire w
     ∧ ∃ room',
         RoomModel.rooms (store (rateLimitedBroadcast net now roomId msg minInterval w).1)
           !! roomId = Some room'
         ∧ Room.queuedMessages room'
           = Some (default [] (Room.queuedMessages room) ++ [mkQueued msg now]))
  ∧ (length (pendingFlushes roomId w) ≤ 1)%nat
  ∧ (default [] (Room.queuedMessages room) ≠ [] →
     length (pendingFlushes roomId w) = 1%nat)
  ∧ (∀ net now,
       ∃ w',
         processQueuedMessages net now roomId w = Some w'
         ∧ wire w'
           = wire w ++ flushed net now roomId (default [] (Room.queuedMessages room)) (store w)
         ∧ ∃ room',
             RoomModel.rooms (store w') !! roomId = Some room'
             ∧ default [] (Room.queuedMessages room') = []
             ∧ Room.broadcastTimeout room' = None).
Proof.
  intros Hreach Hroom. apply reachable_limiterInv in Hreach as [Hcount Hqueue].
  pose proof (Hcount roomId) as Hhere.
  rewrite (expectedFlushes_lookup _ room) in Hhere by exact Hroom.
  split; [| split; [| split]].
  - intros net now msg minInterval Hsoon.
    rewrite (rateLimitedBroadcast_queued _ _ _ _ _ _ room) by assumption.
    destruct (Room.broadcastTimeout room); cbn [fst snd wire setRoom].
    + split; [reflexivity |]. split; [reflexivity |].
      eexists. split; [cbn; apply lookup_insert_eq | reflexivity].
    + split; [reflexivity |]. split; [reflexivity |].
      eexists. split; [cbn; apply lookup_insert_eq | reflexivity].
  - rewrite Hhere. destruct (Room.broadcastTimeout room); lia.
  - intros Hq. rewrite Hhere.
    destruct (Hqueue _ _ Hroom Hq) as [timer ->]. reflexivity.
  - intros net now.
    destruct (processQueuedMessages_flush net now roomId w room Hroom)
      as (w' & Hw' & _ & Hwire & _ & Hroom').
    exists w'. auto.
Qed.

End RateLimit.

(** ** The payout against the specification *)

Section PayoutClaim.
Import Interfaces RoomModel.

(** The literal 0.03 is the double 0x1.eb851eb851eb8p-6. *)
Lemma serviceChargeRate_bits :
  serviceChargeRate = SpecFloat.S754_finite false 8646911284551352 (-58).
Proof. vm_compute. reflexivity. Qed.

(** With the stakes 25, 200 and 1000 the prize pool of the code is
    exactly 1188.25, as in the specification; the quotient 200 / 1225
    is not a double, and the product of the pool with its rounding,
    6825768185233407 * 2^-45, lies below 194. *)
Lemma tiered_second_product :
  let totalStake := Double.ofZ 1225 in
  let prizePool := Double.sub totalStake (Double.mul totalStake serviceChargeRate) in
  prizePool = Double.div (Double.ofZ 4753) (Double.ofZ 4)
  ∧ Double.mul prizePool (Double.div (Double.ofZ 200) totalStake)
    = SpecFloat.S754_finite false 6825768185233407 (-45)
  ∧ 6825768185233407 < 194 * 2 ^ 45
  ∧ Double.toZ (Double.floor
                  (Double.mul prizePool (Double.div (Double.ofZ 200) totalStake)))
    = Some 193.
Proof. repeat split; vm_compute; reflexivity. Qed.

(** C4.  A winner is to get the floor of the prize pool times the
    winner's stake over the sum of the winners' stakes, the prize pool
    being the total stake of the room less 3 percent of it.
    [calculateWinnings] evaluates this in doubles, as
    [Math.floor(prizePool * (stake / totalWinnerStake))], and the
    rounding of the quotient can put the product just below the whole
    number that the share is.  In R3 the members have the stakes 25, 200
    and 1000 and all three are recorded winners: the prize pool is
    1188.25, the shares are 24.25, 194 and 970 and their floors 24, 194
    and 970.  [endGame] records and pays 24, 193 and 970. *)
Theorem calculateWinnings_rounds_below_share :
  PayoutReference.share Examples.tieredRegistry Examples.tieredRoom
    <$> Room.winners Examples.tieredRoom
  = [24; 194; 970]
  ∧ (endGame 9 "R3" Examples.tieredStore ≫= λ x,
       Some (x.2, Winner.amount <$> getWinners "R3" x.1,
             (λ playerId, Examples.balanceOf playerId (playerModel x.1))
               <$> ["p25"; "p200"; "p1000"]))
    = Some (true, [24; 193; 970], [Some 24; Some 193; Some 970]).
Proof. split; vm_compute; reflexivity. Qed.

End PayoutClaim.

(** ** The rate limiter at work *)

Section RateLimitExample.
Import Interfaces Broadcaster.

Lemma calmWorld_quiet : quiet Examples.calmWorld.
Proof.
  split; [reflexivity |]. intros roomId room Hroom.
  unfold Examples.calmWorld, Examples.activeStore in Hroom.
  cbn [store RoomModel.rooms] in Hroom.
  apply lookup_singleton_Some in Hroom as [_ <-]. split; reflexivity.
Qed.

Lemma busyWorld_reachable : reachable Examples.busyWorld.
Proof.
  unfold Examples.busyWorld.
  eapply reachable_step; [| apply step_call].
  eapply reachable_step; [| apply step_call].
  apply reachable_quiet, calmWorld_quiet.
Qed.

(** Two messages were queued at 50 and 60; one flush is pending, and
    when it fires at 150 it sends one batch that holds the two in that
    order. *)
Lemma rateLimitedBroadcast_queues_and_flushes_witness :
  (length (pendingFlushes "R1" Examples.busyWorld) ≤ 1)%nat
  ∧ length (pendingFlushes "R1" Examples.busyWorld) = 1%nat
  ∧ ∃ w',
      processQueuedMessages Examples.healthy 150 "R1" Examples.busyWorld = Some w'
      ∧ wire w'
        = wire Examples.busyWorld
          ++ sent (broadcastToRoom Examples.healthy "R1"
                     (Batch [Examples.notice; Examples.secondNotice] 150)
                     (store Examples.busyWorld)).
Proof.
  destruct (rateLimitedBroadcast_queues_and_flushes Examples.busyWorld "R1"
              Examples.busyRoom busyWorld_reachable)
    as (_ & Hmost & Hone & Hflush).
  - vm_compute. reflexivity.
  - split; [exact Hmost |]. split; [apply Hone; discriminate |].
    destruct (Hflush Examples.healthy 150) as (w' & Hw' & Hwire & _).
    exists w'. split; [exact Hw' | exact Hwire].
Defined.

(** The same trace, computed: both calls were queued and nothing was
    sent; the flush puts the one batch on the two members' sockets. *)
Example busyWorld_trace :
  (Broadcaster.rateLimitedBroadcast Examples.healthy 50 "R1" Examples.notice 100
     Examples.calmWorld).2 = Queued
  ∧ wire Examples.busyWorld = []
  ∧ timerRoom <$> timers Examples.busyWorld = ["R1"]
  ∧ ((λ w', (wire w').*2)
       <$> processQueuedMessages Examples.healthy 150 "R1" Examples.busyWorld)
    = Some [Batch [Examples.notice; Examples.secondNotice] 150;
            Batch [Examples.notice; Examples.secondNotice] 150].
Proof. repeat split; vm_compute; reflexivity. Qed.

End RateLimitExample.

(** ** The books of the player model *)

Section PlayerLedger.
Import Interfaces PlayerModel.

(** X1.  A withdrawal that is accepted takes the amount from the balance,
    which does not go below zero, and adds it to what was withdrawn;
    what was paid in and what was won are not touched. *)
Lemma processWithdrawal_debits now playerId amount players player :
  players !! playerId = Some player →
  amount ≤ or0 (Player.balance player) →
  ∃ player',
    processWithdrawal now playerId amount players
    = (<[playerId := player']> players, mkResult true (Some player') None)
    ∧ or0 (Player.balance player') = or0 (Player.balance player) - amount
    ∧ 0 ≤ or0 (Player.balance player')
    ∧ or0 (Player.withdrawn player') = or0 (Player.withdrawn player) + amount
    ∧ Player.payment player' = Player.payment player
    ∧ Player.wonAmount player' = Player.wonAmount player.
Proof.
  intros Hplayer Hamount. unfold processWithdrawal. rewrite Hplayer.
  destruct (Z.ltb_spec (or0 (Player.balance player)) amount) as [Hlt | _]; [lia |].
  eexists. split; [reflexivity |]. cbn. unfold or0 in *. cbn.
  destruct (Player.withdrawn player); cbn; repeat split; lia.
Qed.

Lemma processWithdrawal_debits_witness :
  ∃ player',
    processWithdrawal 7 "alice" 30 Examples.registry
    = (<["alice" := player']> Examples.registry, mkResult true (Some player') None)
    ∧ or0 (Player.balance player') = or0 (Player.balance Examples.alice) - 30
    ∧ 0 ≤ or0 (Player.balance player')
    ∧ or0 (Player.withdrawn player') = or0 (Player.withdrawn Examples.alice) + 30
    ∧ Player.payment player' = Player.payment Examples.alice
    ∧ Player.wonAmount player' = Player.wonAmount Examples.alice.
Proof.
  apply (processWithdrawal_debits 7 "alice" 30 Examples.registry Examples.alice).
  - vm_compute. reflexivity.
  - vm_compute. discriminate.
Defined.

(** X3.  Marking a number that is not marked and taking the mark back gives
    the marks there were; a second mark of a marked number adds
    nothing. *)
Lemma markNumber_round_trip now now' playerId number players player :
  players !! playerId = Some player →
  (number ∉ Player.markedNumbers player →
   Player.markedNumbers
     <$> markNumber now' playerId number false
           (markNumber now playerId number true players) !! playerId
   = Some (Player.markedNumbers player))
  ∧ Player.markedNumbers
      <$> markNumber now' playerId number true
            (markNumber now playerId number true players) !! playerId
    = Player.markedNumbers
        <$> markNumber now playerId number true players !! playerId.
Proof.
  intros Hplayer.
  assert (∃ marked, markNumber now playerId number true players
                    = <[playerId := marked]> players
                    ∧ Player.markedNumbers marked
                      = Player.markedNumbers player ∪ {[number]})
    as (marked & -> & Hmarked).
  { unfold markNumber. rewrite Hplayer. eexists. split; reflexivity. }
  unfold markNumber. rewrite !lookup_insert_eq.
  cbn. rewrite Hmarked. split.
  - intros Hnew. f_equal. apply set_eq. intros x.
    rewrite elem_of_difference, elem_of_union, elem_of_singleton.
    split; [tauto |]. intros Hx. split; [tauto |]. intros ->. contradiction.
  - f_equal. apply set_eq. intros x.
    rewrite !elem_of_union, elem_of_singleton. tauto.
Qed.

Lemma markNumber_round_trip_witness :
  Player.markedNumbers
    <$> markNumber 9 "alice" 33 false
          (markNumber 8 "alice" 33 true Examples.registry) !! "alice"
  = Some (Player.markedNumbers Examples.alice).
Proof.
  apply (markNumber_round_trip 8 9 "alice" 33 Examples.registry Examples.alice).
  - vm_compute. reflexivity.
  - apply (bool_decide_unpack _). vm_compute. exact I.
Defined.

(** X4.  [isInRoom] after [joinRoom] and [leaveRoom]: a player who joined is
    in that room and in a room, is in no room of another name, and after
    leaving is in no room, whichever is asked for. *)
Lemma isInRoom_join_leave now now' playerId roomId players player :
  players !! playerId = Some player →
  isInRoom playerId (Some roomId) (joinRoom now playerId roomId players).1 = true
  ∧ isInRoom playerId None (joinRoom now playerId roomId players).1 = true
  ∧ (∀ other, other ≠ roomId → isEmpty other = false →
       isInRoom playerId (Some other) (joinRoom now playerId roomId players).1 = false)
  ∧ (∀ asked,
       isInRoom playerId asked
         (leaveRoom now' playerId (joinRoom now playerId roomId players).1).1 = false).
Proof.
  intros Hplayer. unfold joinRoom, leaveRoom, isInRoom. rewrite Hplayer.
  cbn [fst]. rewrite !lookup_insert_eq. cbn [fst]. rewrite !lookup_insert_eq.
  cbn [Player.roomId Player.with_roomId Player.with_lastActive
       Player.with_markedNumbers].
  split; [| split; [| split]].
  - destruct (isEmpty roomId); apply bool_decide_eq_true_2; congruence.
  - apply bool_decide_eq_true_2. congruence.
  - intros other Hother ->. apply bool_decide_eq_false_2. congruence.
  - intros [asked |]; [destruct (isEmpty asked) |];
      apply bool_decide_eq_false_2; congruence.
Qed.

Lemma isInRoom_join_leave_witness :
  isInRoom "alice" (Some "R7") (joinRoom 5 "alice" "R7" Examples.registry).1 = true
  ∧ isInRoom "alice" None
      (leaveRoom 6 "alice" (joinRoom 5 "alice" "R7" Examples.registry).1).1 = false.
Proof.
  destruct (isInRoom_join_leave 5 6 "alice" "R7" Examples.registry Examples.alice)
    as (Hin & _ & _ & Hout); [vm_compute; reflexivity |].
  split; [exact Hin | exact (Hout None)].
Defined.

End PlayerLedger.

(** ** Rooms of the room model *)

(** A [forEach] over ids that rewrites the entry of each id in a map by
    the same idempotent update rewrites the entries of the ids it
    visits, once, and no other. *)
Lemma foldl_update_lookup {A} (f : A → A)
  (update : gmap string A → string → gmap string A) :
  (∀ m a k, update m a !! k = if bool_decide (k = a) then f <$> m !! k else m !! k) →
  (∀ x, f (f x) = f x) →
  ∀ l m k, foldl update m l !! k
           = if bool_decide (k ∈ l) then f <$> m !! k else m !! k.
Proof.
  intros Hupdate Hidem l. induction l as [| a l IH]; intros m k.
  - cbn [foldl]. rewrite bool_decide_eq_false_2; [reflexivity |].
    apply not_elem_of_nil.
  - cbn [foldl]. rewrite IH, Hupdate.
    destruct (decide (k = a)) as [-> | Hne].
    + rewrite (bool_decide_eq_true_2 (a = a)) by reflexivity.
      rewrite (bool_decide_eq_true_2 (a ∈ a :: l))
        by (apply elem_of_cons; left; reflexivity).
      case_bool_decide; [| reflexivity].
      destruct (m !! a) as [x |]; cbn; [| reflexivity].
      rewrite Hidem. reflexivity.
    + rewrite (bool_decide_eq_false_2 (k = a)) by exact Hne.
      destruct (decide (k ∈ l)) as [Hin | Hout].
      * rewrite !bool_decide_eq_true_2; [reflexivity | | exact Hin].
        apply elem_of_cons. right. exact Hin.
      * rewrite !bool_decide_eq_false_2; [reflexivity | | exact Hout].
        intros Hin. apply elem_of_cons in Hin. tauto.
Qed.

Section RoomLifeCycle.
Import Interfaces RoomModel.

Lemma with_active_restore room :
  Room.with_active (Room.active room) (Room.with_active (negb (Room.active room)) room)
  = room.
Proof. destruct room. reflexivity. Qed.

Lemma with_rooms_id st roomId room :
  rooms st !! roomId = Some room →
  with_rooms (<[roomId := room]> (rooms st)) st = st.
Proof. intros Hroom. rewrite insert_id by exact Hroom. destruct st. reflexivity. Qed.

(** X5.  A pause is undone by the resume that follows it, and a resume by
    the pause that follows it: the store is the one before the two
    calls.  A pause of a room that is not in play and a resume of one
    that is are refused. *)
Lemma pauseGame_resumeGame roomId st room :
  rooms st !! roomId = Some room →
  (if Room.active room
   then resumeGame roomId (pauseGame roomId st).1 = (st, true)
        ∧ isGameActive roomId (pauseGame roomId st).1 = false
        ∧ resumeGame roomId st = (st, false)
   else pauseGame roomId (resumeGame roomId st).1 = (st, true)
        ∧ isGameActive roomId (resumeGame roomId st).1 = true
        ∧ pauseGame roomId st = (st, false)).
Proof.
  intros Hroom. pose proof (with_active_restore room) as Hrestore.
  unfold pauseGame, resumeGame, isGameActive. rewrite Hroom.
  destruct (Room.active room) eqn:Hactive; cbn [negb fst rooms with_rooms];
    rewrite !lookup_insert_eq; cbn [Room.active Room.with_active negb];
    rewrite insert_insert_eq; cbn [negb] in Hrestore; rewrite Hrestore;
    (split; [| split; reflexivity]);
    unfold with_rooms; cbn [roomSequence playerModel];
    rewrite insert_id by exact Hroom; destruct st; reflexivity.
Qed.

Lemma pauseGame_resumeGame_witness :
  resumeGame "R1" (pauseGame "R1" Examples.activeStore).1 = (Examples.activeStore, true).
Proof.
  pose proof (pauseGame_resumeGame "R1" Examples.activeStore Examples.activeRoom) as H.
  cbn [Room.active Examples.activeRoom] in H.
  apply H. vm_compute. reflexivity.
Defined.

Lemma detachPlayer_lookup pm playerId k :
  detachPlayer pm playerId !! k
  = if bool_decide (k = playerId) then detached <$> pm !! k else pm !! k.
Proof.
  unfold detachPlayer. case_bool_decide as Hk.
  - subst. destruct (pm !! playerId) as [p |] eqn:Hp.
    + rewrite lookup_insert_eq. reflexivity.
    + rewrite Hp. reflexivity.
  - destruct (pm !! playerId) as [p |] eqn:Hp; [| reflexivity].
    rewrite lookup_insert_ne by congruence. reflexivity.
Qed.

Lemma foldl_detachPlayer l pm k :
  foldl detachPlayer pm l !! k
  = if bool_decide (k ∈ l) then detached <$> pm !! k else pm !! k.
Proof.
  apply foldl_update_lookup.
  - apply detachPlayer_lookup.
  - intros p. reflexivity.
Qed.

(** X6.  [remove] deletes the room and lets go of its members: every member
    that is a registered player has no room and no marks afterwards,
    whatever room it believed to be in; players that were not members of
    the room and the other rooms are as they were. *)
Lemma remove_detaches_members roomId st room :
  rooms st !! roomId = Some room →
  (remove roomId st).2 = true
  ∧ rooms (remove roomId st).1 !! roomId = None
  ∧ (∀ other, other ≠ roomId →
       rooms (remove roomId st).1 !! other = rooms st !! other)
  ∧ (∀ playerId, playerId ∈ Room.players room →
       playerModel (remove roomId st).1 !! playerId
       = detached <$> playerModel st !! playerId)
  ∧ (∀ playerId, playerId ∉ Room.players room →
       playerModel (remove roomId st).1 !! playerId = playerModel st !! playerId).
Proof.
  intros Hroom. unfold remove. rewrite Hroom. cbn [fst snd rooms playerModel].
  split; [apply bool_decide_eq_true_2; eauto |].
  split; [apply lookup_delete_eq |].
  split; [intros other Hother; apply lookup_delete_ne; congruence |].
  split; intros playerId Hin; rewrite foldl_detachPlayer.
  - rewrite bool_decide_eq_true_2; [reflexivity |]. apply elem_of_elements. exact Hin.
  - rewrite bool_decide_eq_false_2; [reflexivity |].
    intros H. apply elem_of_elements in H. contradiction.
Qed.

Lemma remove_detaches_members_witness :
  rooms (remove "R1" Examples.activeStore).1 !! "R1" = None
  ∧ Player.roomId <$> playerModel (remove "R1" Examples.activeStore).1 !! "alice"
    = Some None.
Proof.
  destruct (remove_detaches_members "R1" Examples.activeStore Examples.activeRoom)
    as (_ & Hgone & _ & Hin & _); [vm_compute; reflexivity |].
  split; [exact Hgone |].
  rewrite Hin; [vm_compute; reflexivity |].
  apply (bool_decide_unpack _). vm_compute. exact I.
Defined.

(** X7.  After a game was ended by [endGame] the room takes no number and no
    winner any more and cannot be paused: each call is refused and
    leaves the store as it is. *)
Lemma endGame_closes_room now roomId st st' :
  endGame now roomId st = Some (st', true) →
  isGameActive roomId st' = false
  ∧ (∀ number, callNumber roomId number st' = (st', false))
  ∧ (∀ now' playerId name pattern amount,
       addWinner now' roomId playerId name pattern amount st' = (st', false))
  ∧ pauseGame roomId st' = (st', false).
Proof.
  unfold endGame. destruct (rooms st !! roomId) as [room |] eqn:Hroom;
    [| intros [=]].
  destruct (Room.active room) eqn:Hactive; cbn [negb]; [| intros [=]].
  destruct (calculateWinnings _ _ _) as [[room1 pm1] |] eqn:Hcalc;
    cbn; [| discriminate].
  intros [= <-].
  apply calculateWinnings_active in Hcalc. cbn in Hcalc.
  unfold isGameActive, callNumber, addWinner, pauseGame. cbn [rooms].
  rewrite !lookup_insert_eq, Hcalc. cbn [negb].
  repeat split.
Qed.

Lemma endGame_closes_room_witness :
  ∃ st', endGame 9 "R1" Examples.activeStore = Some (st', true)
         ∧ callNumber "R1" 5 st' = (st', false).
Proof.
  eexists. split; [vm_compute; reflexivity |].
  eapply (endGame_closes_room 9 "R1" Examples.activeStore).
  vm_compute. reflexivity.
Defined.

(** X8.  A player who is added to a room and removed again leaves the store
    as it was when the room had other members; when it had none the
    room is gone, deleted with the departure of its only member. *)
Lemma addPlayer_removePlayer roomId playerId st room :
  rooms st !! roomId = Some room →
  playerId ∉ Room.players room →
  removePlayer roomId playerId (addPlayer roomId playerId st).1
  = (if bool_decide (Room.players room = ∅)
     then mkStore (delete roomId (rooms st)) (roomSequence st) (playerModel st)
     else st, true).
Proof.
  intros Hroom Hnew. unfold addPlayer. rewrite Hroom. cbn [fst].
  unfold removePlayer. cbn [rooms with_rooms]. rewrite lookup_insert_eq.
  cbn [Room.players Room.with_players].
  assert ((Room.players room ∪ {[playerId]}) ∖ {[playerId]} = Room.players room)
    as ->.
  { apply set_eq. intros x.
    rewrite elem_of_difference, elem_of_union, elem_of_singleton.
    split; [tauto |]. intros Hx. split; [tauto |]. intros ->. contradiction. }
  rewrite (bool_decide_eq_true_2 (playerId ∈ _))
    by (apply elem_of_union_r, elem_of_singleton; reflexivity).
  cbn [roomSequence playerModel]. rewrite insert_insert_eq.
  assert (Room.with_players (Room.players room)
            (Room.with_players (Room.players room ∪ {[playerId]}) room) = room)
    as -> by (destruct room; reflexivity).
  case_bool_decide as Hsize.
  - apply size_empty_iff, leibniz_equiv in Hsize.
    rewrite bool_decide_eq_true_2 by exact Hsize.
    pose proof (remove_of_emptied roomId room st Hsize) as Hremove.
    unfold with_rooms in *. cbn [roomSequence playerModel].
    rewrite Hremove. reflexivity.
  - rewrite bool_decide_eq_false_2.
    + unfold with_rooms. cbn [roomSequence playerModel].
      rewrite insert_id by exact Hroom. destruct st; reflexivity.
    + intros Hempty. apply Hsize. rewrite Hempty. apply size_empty.
Qed.

Lemma addPlayer_removePlayer_witness :
  removePlayer "R1" "carol" (addPlayer "R1" "carol" Examples.activeStore).1
  = (Examples.activeStore, true).
Proof.
  apply (addPlayer_removePlayer "R1" "carol" Examples.activeStore Examples.activeRoom).
  - vm_compute. reflexivity.
  - apply (bool_decide_unpack _). vm_compute. exact I.
Defined.

Lemma foldl_clearMarkedNumbers l pm k :
  foldl (λ pm playerId, PlayerModel.clearMarkedNumbers playerId pm) pm l !! k
  = if bool_decide (k ∈ l) then Player.with_markedNumbers ∅ <$> pm !! k else pm !! k.
Proof.
  apply (foldl_update_lookup (Player.with_markedNumbers ∅)
           (λ pm playerId, PlayerModel.clearMarkedNumbers playerId pm)).
  - intros pm' a k'. unfold PlayerModel.clearMarkedNumbers. case_bool_decide as Hk.
    + subst. destruct (pm' !! a) as [p |] eqn:Hp.
      * rewrite lookup_insert_eq. reflexivity.
      * rewrite Hp. reflexivity.
    + destruct (pm' !! a) as [p |] eqn:Hp; [| reflexivity].
      rewrite lookup_insert_ne by congruence. reflexivity.
  - intros p. reflexivity.
Qed.

(** X9.  A game that [startGame] started begins clean: no number is called,
    no winner recorded, no member has a mark left, and nobody joined or
    left by it; players outside the room keep their marks.  A second
    start of the room is refused. *)
Lemma startGame_fresh now now' roomId st room :
  rooms st !! roomId = Some room →
  Room.active room = false →
  (startGame now roomId st).2 = true
  ∧ isGameActive roomId (startGame now roomId st).1 = true
  ∧ getCalledNumbers roomId (startGame now roomId st).1 = []
  ∧ getWinners roomId (startGame now roomId st).1 = []
  ∧ getPlayerCount roomId (startGame now roomId st).1 = getPlayerCount roomId st
  ∧ (∀ playerId,
       playerModel (startGame now roomId st).1 !! playerId
       = if bool_decide (playerId ∈ Room.players room)
         then Player.with_markedNumbers ∅ <$> playerModel st !! playerId
         else playerModel st !! playerId)
  ∧ startGame now' roomId (startGame now roomId st).1
    = ((startGame now roomId st).1, false).
Proof.
  intros Hroom Hactive.
  unfold startGame at 1 2 3 4 5 6 8, isGameActive, getCalledNumbers, getWinners,
    getPlayerCount.
  rewrite Hroom, Hactive. cbn [fst snd rooms playerModel].
  rewrite !lookup_insert_eq. cbn.
  repeat split.
  - intros playerId. rewrite foldl_clearMarkedNumbers.
    destruct (decide (playerId ∈ Room.players room)) as [Hin | Hout].
    + rewrite !bool_decide_eq_true_2; [reflexivity | exact Hin |].
      apply elem_of_elements. exact Hin.
    + rewrite !bool_decide_eq_false_2; [reflexivity | exact Hout |].
      intros H. apply elem_of_elements in H. contradiction.
  - unfold startGame. rewrite Hroom, Hactive. cbn [fst rooms].
    rewrite lookup_insert_eq. reflexivity.
Qed.

Lemma startGame_fresh_witness :
  isGameActive "R1" (startGame 3 "R1" Examples.waitingStore).1 = true
  ∧ getCalledNumbers "R1" (startGame 3 "R1" Examples.waitingStore).1 = [].
Proof.
  destruct (startGame_fresh 3 4 "R1" Examples.waitingStore Examples.waitingRoom)
    as (_ & Hactive & Hcalled & _); [vm_compute; reflexivity | reflexivity |].
  split; assumption.
Defined.

End RoomLifeCycle.


(** ** The broadcaster beyond the queue *)

Section BroadcasterMore.
Import Interfaces Broadcaster.

(** X11.  A call that comes when the minimum interval has passed is sent at
    once to the members and stamps the room; it does not look at the
    queue: messages that wait there keep waiting with their timer, and
    the message of this call is on the wire before them. *)
Lemma rateLimitedBroadcast_immediate net now roomId msg minInterval w room :
  RoomModel.rooms (store w) !! roomId = Some room →
  minInterval ≤ now - or0 (Room.lastBroadcast room) →
  (rateLimitedBroadcast net now roomId msg minInterval w).2
  = Broadcast (sentCount (broadcastToRoom net roomId msg (store w)))
  ∧ wire (rateLimitedBroadcast net now roomId msg minInterval w).1
    = wire w ++ sent (broadcastToRoom net roomId msg (store w))
  ∧ timers (rateLimitedBroadcast net now roomId msg minInterval w).1 = timers w
  ∧ RoomModel.rooms (store (rateLimitedBroadcast net now roomId msg minInterval w).1)
      !! roomId
    = Some (Room.with_lastBroadcast (Some now) room)
  ∧ (∀ other, other ≠ roomId →
       RoomModel.rooms (store (rateLimitedBroadcast net now roomId msg minInterval w).1)
         !! other
       = RoomModel.rooms (store w) !! other).
Proof.
  intros Hroom Hlate. unfold rateLimitedBroadcast. rewrite Hroom.
  destruct (Z.ltb_spec (now - or0 (Room.lastBroadcast room)) minInterval); [lia |].
  cbn [fst snd transmit wire timers store].
  rewrite (broadcastToRoom_setRoom _ _ _ room) by (exact Hroom || reflexivity).
  split; [reflexivity |]. split; [reflexivity |]. split; [reflexivity |].
  unfold setRoom. cbn [store RoomModel.rooms RoomModel.with_rooms].
  split; [apply lookup_insert_eq |].
  intros other Hother. apply lookup_insert_ne. congruence.
Qed.

Lemma rateLimitedBroadcast_immediate_witness :
  timers (rateLimitedBroadcast Examples.healthy 5000 "R1" Examples.notice 1000
            Examples.busyWorld).1
  = timers Examples.busyWorld
  ∧ Room.queuedMessages
      <$> RoomModel.rooms
            (store (rateLimitedBroadcast Examples.healthy 5000 "R1" Examples.notice 1000
                      Examples.busyWorld).1) !! "R1"
    = Room.queuedMessages <$> RoomModel.rooms (store Examples.busyWorld) !! "R1".
Proof.
  destruct (rateLimitedBroadcast_immediate Examples.healthy 5000 "R1" Examples.notice
              1000 Examples.busyWorld Examples.busyRoom)
    as (_ & _ & Htimers & Hroom & _).
  - vm_compute. reflexivity.
  - vm_compute. discriminate.
  - split; [exact Htimers |]. rewrite Hroom. vm_compute. reflexivity.
Defined.

Lemma quiet_timersHeld w : quiet w → timersHeld w.
Proof.
  intros [Htimers _] t Ht. rewrite Htimers in Ht. apply elem_of_nil in Ht. contradiction.
Qed.

Lemma call_timersHeld net now roomId msg minInterval w :
  timersHeld w →
  timersHeld (rateLimitedBroadcast net now roomId msg minInterval w).1.
Proof.
  intros Hheld.
  destruct (RoomModel.rooms (store w) !! roomId) as [room |] eqn:Hroom.
  2:{ unfold rateLimitedBroadcast. rewrite Hroom. exact Hheld. }
  assert (∀ r ts next wr t,
            t ∈ timers w →
            Room.broadcastTimeout r = Room.broadcastTimeout room →
            ∃ room',
              RoomModel.rooms
                (store (mkWorld (store (setRoom roomId r w)) ts next wr)) !! timerRoom t
              = Some room'
              ∧ Room.broadcastTimeout room' = Some (timerId t)) as Hkept.
  { intros r ts next wr t Ht Hsame. destruct (Hheld t Ht) as (room' & Hroom' & Hid).
    unfold setRoom. cbn [store RoomModel.rooms RoomModel.with_rooms].
    destruct (decide (roomId = timerRoom t)) as [Heq | Hne].
    - rewrite <- Heq in *. rewrite lookup_insert_eq. exists r. split; [reflexivity |].
      rewrite Hsame. congruence.
    - rewrite lookup_insert_ne by exact Hne. eauto. }
  destruct (Z.ltb_spec (now - or0 (Room.lastBroadcast room)) minInterval) as [Hsoon | Hlate].
  - rewrite (rateLimitedBroadcast_queued _ _ _ _ _ _ room) by assumption.
    destruct (Room.broadcastTimeout room) as [timer |] eqn:Htimer; cbn [fst].
    + intros t Ht. cbn [timers setRoom] in Ht.
      destruct (Hkept (Room.with_queuedMessages
                         (Some (default [] (Room.queuedMessages room) ++ [mkQueued msg now]))
                         room) (timers w) (nextTimerId w) (wire w) t Ht)
        as (room' & Hroom' & Hid); [cbn; congruence |].
      exists room'. split; assumption.
    + intros t Ht. cbn [timers] in Ht. apply elem_of_app in Ht as [Ht | Ht].
      * destruct (Hheld t Ht) as (room' & Hroom' & Hid).
        cbn [store setRoom RoomModel.rooms RoomModel.with_rooms].
        destruct (decide (roomId = timerRoom t)) as [Heq | Hne].
        -- rewrite <- Heq in Hroom'. congruence.
        -- rewrite lookup_insert_ne by exact Hne. eauto.
      * apply list_elem_of_singleton in Ht. subst t.
        cbn [store setRoom RoomModel.rooms RoomModel.with_rooms timerRoom timerId].
        rewrite lookup_insert_eq. eexists. split; reflexivity.
  - unfold rateLimitedBroadcast. rewrite Hroom.
    destruct (Z.ltb_spec (now - or0 (Room.lastBroadcast room)) minInterval); [lia |].
    cbn [fst]. intros t Ht. cbn [transmit timers setRoom] in Ht.
    destruct (Hkept (Room.with_lastBroadcast (Some now) room)
                (timers w) (nextTimerId w) (wire w) t Ht)
      as (room' & Hroom' & Hid); [reflexivity |].
    exists room'. split; assumption.
Qed.

Lemma fire_timersHeld net now before t after w w' :
  limiterInv w → timersHeld w →
  timers w = before ++ t :: after →
  processQueuedMessages net now (timerRoom t)
    (mkWorld (store w) (before ++ after) (nextTimerId w) (wire w)) = Some w' →
  timersHeld w'.
Proof.
  intros [Hcount _] Hheld Htimers Hfire.
  set (w0 := mkWorld (store w) (before ++ after) (nextTimerId w) (wire w)) in *.
  destruct (Hheld t) as (room & Hroom & Hid).
  { rewrite Htimers. apply elem_of_app. right. apply elem_of_cons. left. reflexivity. }
  destruct (processQueuedMessages_flush net now (timerRoom t) w0 room Hroom)
    as (w1 & Hw1 & Htimers1 & _ & Hother & _).
  rewrite Hfire in Hw1. injection Hw1 as <-.
  intros t' Ht'. rewrite Htimers1 in Ht'. cbn [w0 timers] in Ht'.
  destruct (decide (timerRoom t = timerRoom t')) as [Heq | Hne].
  - exfalso.
    pose proof (Hcount (timerRoom t)) as Hhere.
    rewrite (expectedFlushes_lookup _ room) in Hhere by exact Hroom.
    rewrite Hid in Hhere.
    assert (length (pendingFlushes (timerRoom t) w)
            = (length (pendingFlushes (timerRoom t) w0) + 1)%nat) as Hfired.
    { unfold w0. pose proof (pendingFlushes_fired (timerRoom t) (store w) before t after
                               (nextTimerId w) (wire w)) as Hf.
      rewrite decide_True in Hf by reflexivity. rewrite <- Hf.
      unfold pendingFlushes. cbn [timers]. rewrite Htimers. reflexivity. }
    assert (t' ∈ pendingFlushes (timerRoom t) w0) as Hin.
    { unfold pendingFlushes, w0. cbn [timers]. apply list_elem_of_filter.
      split; [congruence | exact Ht']. }
    destruct (pendingFlushes (timerRoom t) w0) as [| x l];
      [apply elem_of_nil in Hin; contradiction |].
    cbn [length] in Hfired. lia.
  - rewrite (Hother _ Hne). apply Hheld. rewrite Htimers.
    apply elem_of_app in Ht' as [Ht' | Ht']; apply elem_of_app; [left | right];
      [exact Ht' |]. apply elem_of_cons. right. exact Ht'.
Qed.

Lemma reachable_timersHeld w : reachable w → timersHeld w.
Proof.
  induction 1 as [w Hquiet | w w' Hreach IH Hstep].
  - apply quiet_timersHeld. exact Hquiet.
  - destruct Hstep.
    + apply call_timersHeld. exact IH.
    + eapply fire_timersHeld; try eassumption. apply reachable_limiterInv. exact Hreach.
Qed.

Lemma filter_none {A} (P : A → Prop) `{∀ x, Decision (P x)} (l : list A) :
  (∀ x, x ∈ l → ¬ P x) → filter P l = [].
Proof.
  induction l as [| x l IH]; intros Hnone; [reflexivity |].
  rewrite filter_cons_False by (apply Hnone, elem_of_cons; left; reflexivity).
  apply IH. intros y Hy. apply Hnone, elem_of_cons. right. exact Hy.
Qed.

(** X12.  [cleanupBroadcastTimeouts] in a world the rate limiter reached: no
    flush is pending afterwards and no room holds a timer, nothing was
    sent, and every queue is as it was: the messages that waited for a
    flush are still queued, with no timer left to send them. *)
Lemma cleanupBroadcastTimeouts_strands_queue w :
  reachable w →
  timers (cleanupBroadcastTimeouts w) = []
  ∧ wire (cleanupBroadcastTimeouts w) = wire w
  ∧ (∀ roomId,
       RoomModel.rooms (store (cleanupBroadcastTimeouts w)) !! roomId = None
       ↔ RoomModel.rooms (store w) !! roomId = None)
  ∧ (∀ roomId room,
       RoomModel.rooms (store w) !! roomId = Some room →
       ∃ room',
         RoomModel.rooms (store (cleanupBroadcastTimeouts w)) !! roomId = Some room'
         ∧ Room.broadcastTimeout room' = None
         ∧ Room.queuedMessages room' = Room.queuedMessages room
         ∧ Room.lastBroadcast room' = Room.lastBroadcast room
         ∧ Room.players room' = Room.players room).
Proof.
  intros Hreach. apply reachable_timersHeld in Hreach.
  unfold cleanupBroadcastTimeouts.
  cbn [timers wire store RoomModel.rooms RoomModel.with_rooms].
  split; [| split; [reflexivity | split]].
  - apply filter_none. intros t Ht Hnot. apply Hnot.
    destruct (Hreach t Ht) as (room & Hroom & Hid).
    unfold heldTimers. apply list_elem_of_omap.
    exists (timerRoom t, room). split; [| exact Hid].
    apply elem_of_map_to_list. exact Hroom.
  - intros roomId. rewrite lookup_fmap. apply fmap_None.
  - intros roomId room Hroom. rewrite lookup_fmap, Hroom. cbn.
    eexists. split; [reflexivity |]. unfold forgetTimer.
    destruct (Room.broadcastTimeout room) eqn:Htimer; cbn; auto.
Qed.

Lemma cleanupBroadcastTimeouts_strands_queue_witness :
  timers (cleanupBroadcastTimeouts Examples.busyWorld) = []
  ∧ timers Examples.busyWorld ≠ [].
Proof.
  split.
  - apply (cleanupBroadcastTimeouts_strands_queue Examples.busyWorld).
    apply busyWorld_reachable.
  - vm_compute. discriminate.
Defined.

(** X13.  [broadcastNumberCall] tells a room in play only: the members get
    [number_called] on their live sockets, the admin bound to the room
    gets [admin_number_called] on its own when it is live, and nobody
    else gets anything.  For a room that is missing or not in play the
    answer is [false] and nothing is sent. *)
Lemma broadcastNumberCall_audience net roomId number st :
  match RoomModel.rooms st !! roomId with
  | Some room =>
    if Room.active room then
      (broadcastNumberCall net roomId number st).1 = true
      ∧ ∀ s m,
          (s, m) ∈ (broadcastNumberCall net roomId number st).2
          ↔ (m = Event "number_called" roomId ∧ live net s
             ∧ ∃ playerId player,
                 playerId ∈ Room.players room
                 ∧ RoomModel.playerModel st !! playerId = Some player
                 ∧ Player.socket player = s)
            ∨ (m = Event "admin_number_called" roomId ∧ live net s
               ∧ Room.admin room = Some s)
    else broadcastNumberCall net roomId number st = (false, [])
  | None => broadcastNumberCall net roomId number st = (false, [])
  end.
Proof.
  unfold broadcastNumberCall.
  destruct (RoomModel.rooms st !! roomId) as [room |] eqn:Hroom; [| reflexivity].
  destruct (Room.active room); cbn [negb]; [| reflexivity].
  split; [reflexivity |]. intros s m. cbn [snd].
  rewrite elem_of_app, (broadcaster_audience net roomId _ st room s m Hroom).
  apply or_iff_compat_l.
  destruct (Room.admin room) as [admin |].
  - unfold sendToClient, live.
    destruct (Z.eqb_spec (readyState (net admin)) 1) as [Hopen | Hclosed]; cbn [negb].
    + destruct (sendThrows (net admin)) eqn:Hthrows; cbn [snd].
      * rewrite elem_of_nil. split; [tauto |].
        intros (_ & [_ Hlive] & [= <-]). congruence.
      * rewrite list_elem_of_singleton. split.
        -- intros [= -> ->]. auto.
        -- intros (-> & _ & [= ->]). reflexivity.
    + cbn [snd]. rewrite elem_of_nil. split; [tauto |].
      intros (_ & [Hlive _] & [= <-]). congruence.
  - rewrite elem_of_nil. split; [tauto |]. intros (_ & _ & [=]).
Qed.

End BroadcasterMore.

(** ** The standalone server: numbers, rooms and seats *)

Section ServerSession.
Import Server.

(** The transitions are steps of the coarser relation the called
    numbers were followed along. *)
Lemma transition_step st st' : transition st st' → step st st'.
Proof.
  destruct 1.
  - apply step_message.
  - assert (rooms (handleRegister now ws playerId name phone stake gameType payment st).1
            = rooms st) as Hrooms
      by (unfold handleRegister; repeat case_match; reflexivity).
    destruct (handleRegister _ _ _ _ _ _ _ _ st).1 as [r p a] eqn:Hst.
    cbn in Hrooms. subst r. apply step_players_only.
  - assert (rooms (handleHello now ws playerId asAdmin tokenValid st).1 = rooms st)
      as Hrooms by (unfold handleHello; repeat case_match; reflexivity).
    destruct (handleHello _ _ _ _ _ st).1 as [r p a] eqn:Hst.
    cbn in Hrooms. subst r. apply step_players_only.
  - assert (rooms (handleMark ws playerId number marked st).1 = rooms st) as Hrooms
      by (unfold handleMark; repeat case_match; reflexivity).
    destruct (handleMark _ _ _ _ st).1 as [r p a] eqn:Hst.
    cbn in Hrooms. subst r. apply step_players_only.
  - assert (rooms (handlePong now ws st) = rooms st) as Hrooms
      by (unfold handlePong; repeat case_match; reflexivity).
    destruct (handlePong _ _ st) as [r p a] eqn:Hst.
    cbn in Hrooms. subst r. apply step_players_only.
  - apply step_close.
  - apply step_sweep.
Qed.

Lemma reaches_reachable st : reaches st → reachable st.
Proof.
  induction 1 as [| st st' _ IH Htrans].
  - apply reachable_initial.
  - eapply reachable_step; [exact IH | apply transition_step; exact Htrans].
Qed.

Lemma called40_reaches : reaches Examples.called40.
Proof.
  unfold Examples.called40, Examples.called12, Examples.startedR7,
    Examples.joinedBoth, Examples.joinedErin, Examples.registeredBoth,
    Examples.registeredErin.
  repeat (eapply reaches_transition;
          [| first [apply transition_message | apply transition_register]]).
  apply reaches_initial.
Qed.

End ServerSession.

(** ** Called numbers are numbers of the game *)

Section CalledInRange.
Import Server.

Lemma calledInRange_insert rooms roomId room :
  calledInRange rooms →
  Forall (λ n, 1 ≤ n ≤ maxNumber (Room.gameType room)) (Room.calledNumbers room) →
  calledInRange (<[roomId := room]> rooms).
Proof. intros Hall Hroom. apply map_Forall_insert_2; assumption. Qed.

Lemma calledInRange_delete rooms roomId :
  calledInRange rooms → calledInRange (delete roomId rooms).
Proof. intros Hall. apply map_Forall_delete. exact Hall. Qed.

Lemma calledInRange_lookup rooms roomId room :
  calledInRange rooms → rooms !! roomId = Some room →
  Forall (λ n, 1 ≤ n ≤ maxNumber (Room.gameType room)) (Room.calledNumbers room).
Proof. intros Hall Hroom. exact (Hall roomId room Hroom). Qed.

Local Ltac in_range :=
  repeat first
    [ assumption
    | apply calledInRange_delete
    | apply calledInRange_insert
    | progress cbn [Room.calledNumbers Room.gameType Room.with_players
                    Room.with_admin Room.with_active Room.with_winners
                    Room.with_calledNumbers Room.with_stake Room.with_gameType
                    newRoom]
    | apply Forall_nil_2
    | eapply calledInRange_lookup; eassumption ].

Local Ltac in_range_step :=
  repeat case_match; simplify_eq;
  cbn [fst snd rooms with_rooms with_players];
  in_range.

Lemma handlePlayerDisconnect_calledInRange playerId st :
  calledInRange (rooms st) →
  calledInRange (rooms (handlePlayerDisconnect playerId st).1).
Proof. intros Hall. unfold handlePlayerDisconnect. in_range_step. Qed.

Lemma handleWebSocketMessage_calledInRange now ws req st :
  calledInRange (rooms st) →
  calledInRange (rooms (handleWebSocketMessage now ws req st).1).
Proof.
  intros Hall. unfold handleWebSocketMessage.
  destruct (isAdminCommand req && negb (ws_isAdmin ws)); [exact Hall |].
  destruct req.
  - unfold handleJoinRoom. in_range_step.
  - unfold handleLeaveRoom. in_range_step.
  - unfold handleStartGame. in_range_step.
  - unfold handleNumberCalled. in_range_step.
    apply Forall_app. split; [in_range |].
    apply Forall_singleton.
    match goal with H : _ || _ = false |- _ =>
      apply orb_false_iff in H as [Hlow Hhigh] end.
    apply Z.ltb_ge in Hlow, Hhigh. lia.
  - unfold handleWin. in_range_step.
  - unfold handlePayment. in_range_step.
  - unfold handleWithdraw. in_range_step.
  - unfold handleKickPlayer. in_range_step.
    all: match goal with H : handlePlayerDisconnect ?p ?s = _ |- _ =>
      pose proof (handlePlayerDisconnect_calledInRange p s Hall) as Hd;
      rewrite H in Hd; exact Hd end.
  - unfold handleEndGame. in_range_step.
  - unfold handleResetRoom. in_range_step.
Qed.

(** X14.  In every state the standalone server can reach, every called number
    of a room lies between 1 and the largest number of the room's game
    type, also after the game type was changed by a new start: the
    start empties the list. *)
Lemma server_calledNumbers_in_range st roomId room number :
  reachable st →
  rooms st !! roomId = Some room →
  number ∈ Room.calledNumbers room →
  1 ≤ number ≤ maxNumber (Room.gameType room).
Proof.
  intros Hreach. revert roomId room number.
  enough (calledInRange (rooms st)) as Hall.
  { intros roomId room number Hroom Hin.
    pose proof (calledInRange_lookup _ _ _ Hall Hroom) as Hforall.
    rewrite Forall_forall in Hforall. apply Hforall. exact Hin. }
  induction Hreach as [| st st' _ IH Hstep].
  - apply map_Forall_empty.
  - destruct Hstep.
    + apply handleWebSocketMessage_calledInRange. exact IH.
    + unfold handleWebSocketClose. repeat case_match; try exact IH.
      apply handlePlayerDisconnect_calledInRange. exact IH.
    + apply handlePlayerDisconnect_calledInRange. exact IH.
    + exact IH.
Qed.

Lemma server_calledNumbers_in_range_witness :
  rooms Examples.called40 !! "R7" = Some Examples.playedR7
  ∧ 1 ≤ 40 ≤ maxNumber (Room.gameType Examples.playedR7).
Proof.
  assert (rooms Examples.called40 !! "R7" = Some Examples.playedR7) as Hroom
    by (vm_compute; reflexivity).
  split; [exact Hroom |].
  apply (server_calledNumbers_in_range Examples.called40 "R7" Examples.playedR7 40).
  - apply reaches_reachable, called40_reaches.
  - exact Hroom.
  - cbn. apply elem_of_cons. right. apply elem_of_cons. left. reflexivity.
Defined.

Lemma server_calledNumbers_NoDup_witness :
  rooms Examples.called40 !! "R7" = Some Examples.playedR7
  ∧ NoDup (Room.calledNumbers Examples.playedR7).
Proof.
  assert (rooms Examples.called40 !! "R7" = Some Examples.playedR7) as Hroom
    by (vm_compute; reflexivity).
  split; [exact Hroom |].
  apply (server_calledNumbers_NoDup Examples.called40
           (reaches_reachable _ called40_reaches) "R7" Examples.playedR7).
  exact Hroom.
Defined.

Lemma handleNumberCalled_rejects_witness :
  ∃ text,
    handleNumberCalled Examples.adminSocket "R7" 40 Examples.called40
    = (Examples.called40, [SendToClient 9%nat (errorEvent text)]).
Proof.
  apply (handleNumberCalled_rejects Examples.adminSocket "R7" 40 Examples.called40
           Examples.playedR7).
  - vm_compute. reflexivity.
  - reflexivity.
  - left. cbn. apply elem_of_cons. right. apply elem_of_cons. left. reflexivity.
Defined.

End CalledInRange.

(** ** Rooms and seats of the standalone server *)

Section ServerSeats.
Import Interfaces Server.

(** A room rewritten in place, with its id and at least its members. *)
Lemma wellSeated_room rooms players roomId room room' :
  wellSeated rooms players →
  rooms !! roomId = Some room →
  Room.id room' = Room.id room →
  Room.players room ⊆ Room.players room' →
  wellSeated (<[roomId := room']> rooms) players.
Proof.
  intros [Hrooms Hseats] Hroom Hid Hsub. split.
  - intros r x Hx. destruct (decide (roomId = r)) as [<- | Hne].
    + rewrite lookup_insert_eq in Hx. injection Hx as <-.
      destruct (Hrooms _ _ Hroom) as [Hkey Hsome]. split; [congruence |].
      intros Hempty. apply Hsome. apply set_eq. intros k. split.
      * intros Hk. rewrite <- Hempty. apply Hsub. exact Hk.
      * intros Hk. apply elem_of_empty in Hk. contradiction.
    + rewrite lookup_insert_ne in Hx by exact Hne. eauto.
  - intros k p r Hp Hr. destruct (Hseats _ _ _ Hp Hr) as (x & Hx & Hin).
    destruct (decide (roomId = r)) as [<- | Hne].
    + rewrite lookup_insert_eq. exists room'. split; [reflexivity |].
      apply Hsub. congruence.
    + rewrite lookup_insert_ne by exact Hne. eauto.
Qed.

(** Players rewritten so that whoever has a room had it before. *)
Lemma wellSeated_players rooms players players' :
  wellSeated rooms players →
  (∀ k p' r, players' !! k = Some p' → Player.roomId p' = Some r →
             ∃ p, players !! k = Some p ∧ Player.roomId p = Some r) →
  wellSeated rooms players'.
Proof.
  intros [Hrooms Hseats] Hsame. split; [exact Hrooms |].
  intros k p' r Hp' Hr. destruct (Hsame _ _ _ Hp' Hr) as (p & Hp & Hr').
  eauto.
Qed.

Lemma wellSeated_player rooms players playerId player player' :
  wellSeated rooms players →
  players !! playerId = Some player →
  Player.roomId player' = Player.roomId player →
  wellSeated rooms (<[playerId := player']> players).
Proof.
  intros Hinv Hplayer Hsame. eapply wellSeated_players; [exact Hinv |].
  intros k p' r Hp' Hr. destruct (decide (playerId = k)) as [<- | Hne].
  - rewrite lookup_insert_eq in Hp'. injection Hp' as <-.
    exists player. split; [exact Hplayer | congruence].
  - rewrite lookup_insert_ne in Hp' by exact Hne. eauto.
Qed.

(** A player takes a seat in a room that is there or is opened for
    it. *)
Lemma wellSeated_join rooms players roomId room0 playerId player' :
  wellSeated rooms players →
  (rooms !! roomId = Some room0
   ∨ (rooms !! roomId = None ∧ Room.id room0 = roomId)) →
  Player.roomId player' = Some roomId →
  wellSeated (<[roomId := Room.with_players (Room.players room0 ∪ {[playerId]}) room0]> rooms)
             (<[playerId := player']> players).
Proof.
  intros [Hrooms Hseats] Hroom0 Hr'. split.
  - intros r x Hx. destruct (decide (roomId = r)) as [<- | Hne].
    + rewrite lookup_insert_eq in Hx. injection Hx as <-.
      cbn [Room.id Room.players Room.with_players]. split.
      * destruct Hroom0 as [Hroom0 | [_ Hid]]; [| exact Hid].
        apply (Hrooms _ _ Hroom0).
      * intros Hempty. apply (not_elem_of_empty (C := gset string) playerId).
        rewrite <- Hempty. apply elem_of_union_r, elem_of_singleton. reflexivity.
    + rewrite lookup_insert_ne in Hx by exact Hne. eauto.
  - intros k p r Hp Hr. destruct (decide (playerId = k)) as [<- | Hk].
    + rewrite lookup_insert_eq in Hp. injection Hp as <-.
      assert (r = roomId) as -> by congruence.
      rewrite lookup_insert_eq. eexists. split; [reflexivity |].
      cbn [Room.players Room.with_players].
      apply elem_of_union_r, elem_of_singleton. reflexivity.
    + rewrite lookup_insert_ne in Hp by exact Hk.
      destruct (Hseats _ _ _ Hp Hr) as (x & Hx & Hin).
      destruct (decide (roomId = r)) as [<- | Hne].
      * rewrite lookup_insert_eq. eexists. split; [reflexivity |].
        cbn [Room.players Room.with_players].
        destruct Hroom0 as [Hroom0 | [Hnone _]]; [| congruence].
        apply elem_of_union_l. congruence.
      * rewrite lookup_insert_ne by exact Hne. eauto.
Qed.

(** A player gives up its seat: the room goes when nobody is left in
    it, and the player is gone or has no room. *)
Lemma wellSeated_depart rooms players roomId room playerId players' :
  wellSeated rooms players →
  rooms !! roomId = Some room →
  (∀ k p' r, players' !! k = Some p' → Player.roomId p' = Some r →
             k ≠ playerId ∧ ∃ p, players !! k = Some p ∧ Player.roomId p = Some r) →
  wellSeated
    (if bool_decide (size (Room.players room ∖ {[playerId]}) = 0%nat)
     then delete roomId rooms
     else <[roomId := Room.with_players (Room.players room ∖ {[playerId]}) room]> rooms)
    players'.
Proof.
  intros [Hrooms Hseats] Hroom Hsame. split.
  - intros r x Hx. case_bool_decide as Hsize.
    + apply lookup_delete_Some in Hx as [_ Hx]. eauto.
    + destruct (decide (roomId = r)) as [<- | Hne].
      * rewrite lookup_insert_eq in Hx. injection Hx as <-.
        cbn [Room.id Room.players Room.with_players].
        split; [apply (Hrooms _ _ Hroom) |].
        intros Hempty. apply Hsize. rewrite Hempty. apply size_empty.
      * rewrite lookup_insert_ne in Hx by exact Hne. eauto.
  - intros k p' r Hp' Hr. destruct (Hsame _ _ _ Hp' Hr) as (Hk & p & Hp & Hr').
    destruct (Hseats _ _ _ Hp Hr') as (x & Hx & Hin).
    destruct (decide (roomId = r)) as [<- | Hne].
    + assert (x = room) as -> by congruence.
      assert (k ∈ Room.players room ∖ {[playerId]}) as Hstays.
      { apply elem_of_difference. split; [exact Hin |].
        rewrite elem_of_singleton. exact Hk. }
      rewrite bool_decide_eq_false_2.
      * rewrite lookup_insert_eq. eexists. split; [reflexivity | exact Hstays].
      * intros Hsize. apply size_empty_iff in Hsize.
        apply (not_elem_of_empty (C := gset string) k). rewrite <- Hsize. exact Hstays.
    + case_bool_decide.
      * rewrite lookup_delete_ne by exact Hne. eauto.
      * rewrite lookup_insert_ne by exact Hne. eauto.
Qed.

(** What [handleJoinRoom] does, in full: it refuses and leaves the state
    as it was, or it seats the player in the room, opened for it when it
    was not there, and takes the stake from the balance. *)
Lemma handleJoinRoom_cases now ws playerId roomId st :
  (∃ text,
     handleJoinRoom now ws playerId roomId st
     = (st, [SendToClient (ws_socket ws) (errorEvent text)]))
  ∨ (∃ player,
       players st !! playerId = Some player
       ∧ Player.stake player ≤ Player.balance player
       ∧ (∀ room, rooms st !! roomId = Some room →
            (size (Room.players room) < 90)%nat
            ∧ Room.gameType room = Player.gameType player
            ∧ Room.stake room = Player.stake player)
       ∧ handleJoinRoom now ws playerId roomId st
         = (mkState
              (<[roomId :=
                   Room.with_players
                     (Room.players (default (newRoom now roomId player) (rooms st !! roomId))
                      ∪ {[playerId]})
                     (default (newRoom now roomId player) (rooms st !! roomId))]>
                 (rooms st))
              (<[playerId :=
                   Player.with_balance (Player.balance player - Player.stake player)
                     (Player.with_socket (Some (ws_socket ws))
                        (Player.with_roomId (Some roomId) player))]>
                 (players st))
              (adminConnections st),
            [BroadcastToRoom roomId (Event "player_joined" playerId);
             SendToClient (ws_socket ws) (Event "room_joined" roomId)])).
Proof.
  unfold handleJoinRoom.
  destruct (players st !! playerId) as [player |] eqn:Hplayer; [| eauto].
  destruct (Z.ltb_spec (Player.balance player) (Player.stake player)) as [Hpoor | Hrich];
    [eauto |].
  destruct (rooms st !! roomId) as [room |] eqn:Hroom.
  - case_bool_decide as Hfull; [eauto |].
    case_bool_decide as Htype; cbn [negb]; [| eauto].
    destruct (Z.eqb_spec (Room.stake room) (Player.stake player)) as [Hstake | Hstake];
      cbn [negb]; [| eauto].
    right. exists player. split; [reflexivity |]. split; [exact Hrich |].
    split; [| reflexivity].
    intros ? [= <-]. split; [lia | split; assumption].
  - cbn [newRoom Room.players Room.gameType Room.stake].
    rewrite size_empty. rewrite bool_decide_eq_false_2 by lia.
    rewrite bool_decide_eq_true_2 by reflexivity. rewrite Z.eqb_refl. cbn [negb].
    right. exists player. split; [reflexivity |]. split; [exact Hrich |].
    split; [intros ? [=] |].
    cbn [rooms players adminConnections with_rooms default].
    rewrite insert_insert_eq. reflexivity.
Qed.

Lemma handleJoinRoom_wellSeated now ws playerId roomId st :
  wellSeated (rooms st) (players st) →
  wellSeated (rooms (handleJoinRoom now ws playerId roomId st).1)
             (players (handleJoinRoom now ws playerId roomId st).1).
Proof.
  intros Hinv.
  destruct (handleJoinRoom_cases now ws playerId roomId st)
    as [(text & ->) | (player & Hplayer & _ & _ & ->)]; [exact Hinv |].
  cbn [fst rooms players]. apply wellSeated_join; [exact Hinv | | reflexivity].
  destruct (rooms st !! roomId) as [room |]; cbn [default]; [left | right]; auto.
Qed.

Lemma handleLeaveRoom_wellSeated ws playerId roomId st :
  wellSeated (rooms st) (players st) →
  wellSeated (rooms (handleLeaveRoom ws playerId roomId st).1)
             (players (handleLeaveRoom ws playerId roomId st).1).
Proof.
  intros Hinv. unfold handleLeaveRoom.
  destruct (players st !! playerId) as [player |] eqn:Hplayer; [| exact Hinv].
  destruct (rooms st !! roomId) as [room |] eqn:Hroom; [| exact Hinv].
  cbn [Room.players Room.with_players].
  pose proof (wellSeated_depart (rooms st) (players st) roomId room playerId
                (<[playerId :=
                     Player.with_roomId None
                       (if negb (Room.active room)
                        then Player.with_balance
                               (Player.balance player + Player.stake player) player
                        else player)]> (players st)) Hinv Hroom) as Hdepart.
  case_bool_decide; cbn [fst rooms players]; apply Hdepart.
  all: intros k p' r Hp' Hr; destruct (decide (playerId = k)) as [<- | Hne];
    [ rewrite lookup_insert_eq in Hp'; injection Hp' as <-; discriminate
    | rewrite lookup_insert_ne in Hp' by exact Hne; split; [congruence | eauto] ].
Qed.

Lemma handlePlayerDisconnect_wellSeated playerId st :
  wellSeated (rooms st) (players st) →
  wellSeated (rooms (handlePlayerDisconnect playerId st).1)
             (players (handlePlayerDisconnect playerId st).1).
Proof.
  intros Hinv. unfold handlePlayerDisconnect.
  destruct (players st !! playerId) as [player |] eqn:Hplayer; [| exact Hinv].
  assert (∀ k p' r, delete playerId (players st) !! k = Some p' →
                    Player.roomId p' = Some r →
                    k ≠ playerId ∧ ∃ p, players st !! k = Some p ∧ Player.roomId p = Some r)
    as Hgone.
  { intros k p' r Hp' Hr. apply lookup_delete_Some in Hp' as [Hne Hp'].
    split; [congruence | eauto]. }
  assert (wellSeated (rooms st) (delete playerId (players st))) as Hsame.
  { eapply wellSeated_players; [exact Hinv |]. intros k p' r Hp' Hr.
    apply (Hgone k p' r Hp' Hr). }
  destruct (Player.roomId player) as [roomId |] eqn:HroomId; [| exact Hsame].
  destruct (isEmpty roomId); [exact Hsame |].
  destruct (rooms st !! roomId) as [room |] eqn:Hroom; [| exact Hsame].
  cbn [fst rooms players Room.players Room.with_players Room.id].
  destruct Hinv as [Hrooms Hseats].
  destruct (Hrooms _ _ Hroom) as [Hkey _]. rewrite Hkey.
  pose proof (wellSeated_depart (rooms st) (players st) roomId room playerId
                (delete playerId (players st)) (conj Hrooms Hseats) Hroom Hgone)
    as Hdepart.
  case_bool_decide.
  - rewrite delete_insert_eq. exact Hdepart.
  - exact Hdepart.
Qed.

Lemma clearMarks_lookup pm playerId k :
  clearMarks pm playerId !! k
  = if bool_decide (k = playerId)
    then Player.with_markedNumbers ∅ <$> pm !! k else pm !! k.
Proof.
  unfold clearMarks. case_bool_decide as Hk.
  - subst. destruct (pm !! playerId) as [p |] eqn:Hp.
    + rewrite lookup_insert_eq. reflexivity.
    + rewrite Hp. reflexivity.
  - destruct (pm !! playerId) as [p |] eqn:Hp; [| reflexivity].
    rewrite lookup_insert_ne by congruence. reflexivity.
Qed.

Lemma foldl_clearMarks l pm k :
  foldl clearMarks pm l !! k
  = if bool_decide (k ∈ l)
    then Player.with_markedNumbers ∅ <$> pm !! k else pm !! k.
Proof.
  apply foldl_update_lookup.
  - apply clearMarks_lookup.
  - intros p. reflexivity.
Qed.

Lemma handleWebSocketMessage_wellSeated now ws req st :
  wellSeated (rooms st) (players st) →
  wellSeated (rooms (handleWebSocketMessage now ws req st).1)
             (players (handleWebSocketMessage now ws req st).1).
Proof.
  intros Hinv. unfold handleWebSocketMessage.
  destruct (isAdminCommand req && negb (ws_isAdmin ws)); [exact Hinv |].
  destruct req.
  - apply handleJoinRoom_wellSeated. exact Hinv.
  - apply handleLeaveRoom_wellSeated. exact Hinv.
  - unfold handleStartGame. repeat case_match; try exact Hinv.
    all: cbn [fst rooms players with_rooms];
      eapply wellSeated_room; [exact Hinv | eassumption | reflexivity | reflexivity].
  - unfold handleNumberCalled. repeat case_match; try exact Hinv.
    all: cbn [fst rooms players with_rooms];
      eapply wellSeated_room; [exact Hinv | eassumption | reflexivity | reflexivity].
  - unfold handleWin. repeat case_match; try exact Hinv.
    all: cbn [fst rooms players];
      (eapply wellSeated_room; [| eassumption | reflexivity | reflexivity]);
      eapply wellSeated_player; [exact Hinv | eassumption | reflexivity].
  - unfold handlePayment. repeat case_match; try exact Hinv.
    all: cbn [fst rooms players with_players];
      eapply wellSeated_player; [exact Hinv | eassumption | reflexivity].
  - unfold handleWithdraw. repeat case_match; try exact Hinv.
    all: cbn [fst rooms players with_players];
      eapply wellSeated_player; [exact Hinv | eassumption | reflexivity].
  - unfold handleKickPlayer. repeat case_match; try exact Hinv.
    all: match goal with H : handlePlayerDisconnect ?p ?s = _ |- _ =>
      pose proof (handlePlayerDisconnect_wellSeated p s Hinv) as Hd;
      rewrite H in Hd; exact Hd end.
  - unfold handleEndGame. repeat case_match; try exact Hinv.
    all: cbn [fst rooms players with_rooms];
      eapply wellSeated_room; [exact Hinv | eassumption | reflexivity | reflexivity].
  - unfold handleResetRoom. repeat case_match; try exact Hinv.
    all: cbn [fst rooms players];
      (eapply wellSeated_room; [| eassumption | reflexivity | reflexivity]);
      (eapply wellSeated_players; [exact Hinv |]);
      intros k p' r Hp' Hr; rewrite foldl_clearMarks in Hp';
      case_bool_decide; [| eauto];
      destruct (players st !! k) as [p |]; [| discriminate];
      injection Hp' as <-; eauto.
Qed.

Lemma transition_wellSeated st st' :
  transition st st' →
  wellSeated (rooms st) (players st) → wellSeated (rooms st') (players st').
Proof.
  intros Htrans Hinv. destruct Htrans.
  - apply handleWebSocketMessage_wellSeated. exact Hinv.
  - unfold handleRegister. repeat case_match; try exact Hinv.
    all: cbn [fst rooms players with_players];
      (eapply wellSeated_players; [exact Hinv |]);
      intros k p' r Hp' Hr; destruct (decide (playerId = k)) as [<- | Hne];
      [ rewrite lookup_insert_eq in Hp'; injection Hp' as <-; discriminate
      | rewrite lookup_insert_ne in Hp' by exact Hne; eauto ].
  - unfold handleHello. repeat case_match; try exact Hinv.
    all: cbn [fst rooms players with_players];
      eapply wellSeated_player; [exact Hinv | eassumption | reflexivity].
  - unfold handleMark. repeat case_match; try exact Hinv.
    all: cbn [fst rooms players with_players];
      eapply wellSeated_player; [exact Hinv | eassumption | reflexivity].
  - unfold handlePong. repeat case_match; try exact Hinv.
    all: cbn [rooms players with_players];
      eapply wellSeated_player; [exact Hinv | eassumption | reflexivity].
  - unfold handleWebSocketClose. repeat case_match; try exact Hinv.
    all: apply handlePlayerDisconnect_wellSeated; exact Hinv.
  - apply handlePlayerDisconnect_wellSeated. exact Hinv.
Qed.

Lemma reaches_wellSeated st : reaches st → wellSeated (rooms st) (players st).
Proof.
  induction 1 as [| st st' _ IH Htrans].
  - split; intros ? ?; [intros Hx | intros ? Hx]; cbn [initial rooms players] in Hx;
      rewrite lookup_empty in Hx; discriminate.
  - eapply transition_wellSeated; eassumption.
Qed.

(** X17.  In every state the standalone server reaches from its start, a
    player whose [roomId] is set is a member of a room that is stored
    under that id: no player points at a room that was deleted or that
    does not hold it. *)
Lemma server_roomId_is_a_seat st playerId player roomId :
  reaches st →
  players st !! playerId = Some player →
  Player.roomId player = Some roomId →
  ∃ room, rooms st !! roomId = Some room
          ∧ playerId ∈ Room.players room
          ∧ Room.id room = roomId.
Proof.
  intros Hreach Hplayer HroomId.
  destruct (reaches_wellSeated st Hreach) as [Hrooms Hseats].
  destruct (Hseats _ _ _ Hplayer HroomId) as (room & Hroom & Hin).
  exists room. split; [exact Hroom |]. split; [exact Hin |].
  apply (Hrooms _ _ Hroom).
Qed.

Lemma server_roomId_is_a_seat_witness :
  ∃ room, rooms Examples.called40 !! "R7" = Some room
          ∧ "erin" ∈ Room.players room
          ∧ Room.id room = "R7".
Proof.
  apply (server_roomId_is_a_seat Examples.called40 "erin"
           (Player.mk "erin" "Erin" "0911000005" 100 "75ball" 150 1 (Some 5%nat)
                      (Some "R7") ∅ 50 None None (Some 1)) "R7").
  - apply called40_reaches.
  - vm_compute. reflexivity.
  - reflexivity.
Defined.

(** X18.  In every state the standalone server reaches from its start, no
    room is stored without a member: a room is opened by the join that
    seats its first member, and goes with the departure that takes its
    last. *)
Lemma server_rooms_have_members st roomId room :
  reaches st →
  rooms st !! roomId = Some room →
  Room.players room ≠ ∅.
Proof.
  intros Hreach Hroom.
  destruct (reaches_wellSeated st Hreach) as [Hrooms _].
  apply (Hrooms _ _ Hroom).
Qed.

Lemma server_rooms_have_members_witness :
  rooms Examples.called40 !! "R7" = Some Examples.playedR7
  ∧ Room.players Examples.playedR7 ≠ ∅.
Proof.
  assert (rooms Examples.called40 !! "R7" = Some Examples.playedR7) as Hroom
    by (vm_compute; reflexivity).
  split; [exact Hroom |].
  apply (server_rooms_have_members Examples.called40 "R7" Examples.playedR7).
  - apply called40_reaches.
  - exact Hroom.
Defined.

End ServerSeats.

(** ** Joining, leaving and money on the standalone server *)

Section ServerMoney.
Import Interfaces Server.

(** X19.  A join is all or nothing.  Refused, it leaves the state as it was:
    the room that is created for a join before the checks are made is
    never left behind, since a new room is empty and has the player's
    game type and stake.  Accepted, it seats the player in the room and
    takes the stake, no more and no less, out of a balance that covers
    it. *)
Lemma handleJoinRoom_all_or_nothing now ws playerId roomId st :
  (handleJoinRoom now ws playerId roomId st).1 = st
  ∨ ∃ player player' room',
      players st !! playerId = Some player
      ∧ players (handleJoinRoom now ws playerId roomId st).1 !! playerId = Some player'
      ∧ Player.balance player' = Player.balance player - Player.stake player
      ∧ 0 ≤ Player.balance player'
      ∧ Player.roomId player' = Some roomId
      ∧ rooms (handleJoinRoom now ws playerId roomId st).1 !! roomId = Some room'
      ∧ playerId ∈ Room.players room'.
Proof.
  destruct (handleJoinRoom_cases now ws playerId roomId st)
    as [(text & ->) | (player & Hplayer & Hrich & _ & ->)]; [left; reflexivity |].
  right. cbn [fst rooms players]. rewrite !lookup_insert_eq.
  eexists player, _, _. split; [exact Hplayer |]. split; [reflexivity |].
  cbn [Player.balance Player.with_balance Player.roomId Player.with_socket
       Player.with_roomId Room.players Room.with_players].
  split; [reflexivity |]. split; [lia |]. split; [reflexivity |].
  split; [reflexivity |].
  apply elem_of_union_r, elem_of_singleton. reflexivity.
Qed.

Lemma with_players_restore (room : Room.t) members :
  Room.with_players (Room.players room) (Room.with_players members room) = room.
Proof. destruct room. reflexivity. Qed.

(** X20.  A registered player who can pay the stake joins a room of which
    it is not yet a member (a room that has a member, has a seat left
    and has the player's game type and stake, or no room at all) and
    leaves it again: the rooms are as they were before the join, a room
    that was opened for the join being gone, the player is in no room,
    and nobody else's record and no admin connection has changed. *)
Lemma join_then_leave_restores now ws ws' playerId roomId st player :
  players st !! playerId = Some player →
  Player.stake player ≤ Player.balance player →
  (∀ room, rooms st !! roomId = Some room →
     (playerId ∉ Room.players room)
     ∧ Room.players room ≠ ∅
     ∧ (size (Room.players room) < 90)%nat
     ∧ Room.gameType room = Player.gameType player
     ∧ Room.stake room = Player.stake player) →
  let st' := (handleLeaveRoom ws' playerId roomId
                (handleJoinRoom now ws playerId roomId st).1).1 in
  rooms st' = rooms st
  ∧ adminConnections st' = adminConnections st
  ∧ Player.roomId <$> players st' !! playerId = Some None
  ∧ ∀ other, other ≠ playerId → players st' !! other = players st !! other.
Proof.
  intros Hplayer Hrich Hroom.
  destruct (handleJoinRoom_cases now ws playerId roomId st)
    as [(text & Hrefused) | (player0 & Hplayer0 & _ & _ & Hjoined)].
  { exfalso. revert Hrefused. unfold handleJoinRoom. rewrite Hplayer.
    destruct (Z.ltb_spec (Player.balance player) (Player.stake player)); [lia |].
    destruct (rooms st !! roomId) as [room |] eqn:Hr.
    - destruct (Hroom room eq_refl) as (_ & _ & Hsize & Htype & Hstake).
      rewrite bool_decide_eq_false_2 by lia.
      rewrite bool_decide_eq_true_2 by exact Htype.
      rewrite Hstake, Z.eqb_refl. cbn [negb]. intros [=].
    - cbn [newRoom Room.players Room.gameType Room.stake].
      rewrite size_empty, bool_decide_eq_false_2 by lia.
      rewrite bool_decide_eq_true_2 by reflexivity.
      rewrite Z.eqb_refl. cbn [negb]. intros [=]. }
  assert (player0 = player) as -> by congruence.
  cbn zeta. rewrite Hjoined.
  cbn [fst]. unfold handleLeaveRoom. cbn [rooms players adminConnections].
  rewrite !lookup_insert_eq. cbn [Room.players Room.with_players].
  assert (∀ members : gset string,
            playerId ∉ members → (members ∪ {[playerId]}) ∖ {[playerId]} = members)
    as Hback.
  { intros members Hnew. apply set_eq. intros x.
    rewrite elem_of_difference, elem_of_union, elem_of_singleton.
    split; [tauto |]. intros Hx. split; [tauto |]. intros ->. contradiction. }
  rewrite !insert_insert_eq.
  assert (∀ (rooms' : gmap string Room.t) player',
            rooms' = rooms st →
            Player.roomId player' = None →
            let st' := mkState rooms' (<[playerId := player']> (players st))
                               (adminConnections st) in
            rooms st' = rooms st
            ∧ adminConnections st' = adminConnections st
            ∧ Player.roomId <$> players st' !! playerId = Some None
            ∧ ∀ other, other ≠ playerId → players st' !! other = players st !! other)
    as Hdone.
  { intros rooms' player' Hrooms Hout. cbn [rooms players adminConnections].
    rewrite lookup_insert_eq. cbn [fmap option_fmap option_map]. rewrite Hout.
    split; [exact Hrooms | split; [reflexivity | split; [reflexivity |]]].
    intros other Hother. apply lookup_insert_ne. congruence. }
  destruct (rooms st !! roomId) as [room |] eqn:Hr; cbn [default from_option id].
  - destruct (Hroom room eq_refl) as (Hnew & Hsome & _).
    rewrite Hback by exact Hnew.
    rewrite bool_decide_eq_false_2.
    + cbn [fst]. rewrite with_players_restore, (insert_id _ _ _ Hr).
      apply Hdone; [reflexivity |]. destruct (Room.active room); reflexivity.
    + intros Hsize. apply Hsome. apply leibniz_equiv, size_empty_iff. exact Hsize.
  - cbn [newRoom Room.players].
    rewrite Hback by apply not_elem_of_empty.
    rewrite bool_decide_eq_true_2 by apply size_empty.
    cbn [fst]. rewrite delete_insert_eq, (delete_id _ _ Hr).
    apply Hdone; reflexivity.
Qed.

Lemma join_then_leave_restores_witness :
  rooms (handleLeaveRoom Examples.erinSocket "erin" "R9"
           (handleJoinRoom 8 Examples.erinSocket "erin" "R9"
              Examples.registeredBoth).1).1
  = rooms Examples.registeredBoth
  ∧ Player.roomId
      <$> players (handleLeaveRoom Examples.erinSocket "erin" "R9"
                     (handleJoinRoom 8 Examples.erinSocket "erin" "R9"
                        Examples.registeredBoth).1).1 !! "erin"
    = Some None.
Proof.
  destruct (join_then_leave_restores 8 Examples.erinSocket Examples.erinSocket "erin" "R9"
              Examples.registeredBoth
              (Player.mk "erin" "Erin" "0911000005" 100 "75ball" 150 1 (Some 5%nat)
                         None ∅ 150 None None (Some 1)))
    as (Hrooms & _ & Hout & _).
  - vm_compute. reflexivity.
  - vm_compute. discriminate.
  - intros room Hroom. vm_compute in Hroom. discriminate.
  - split; [exact Hrooms | exact Hout].
Defined.

(** X21.  No withdrawal overdraws: whatever amount is asked for, a balance
    that is not negative stays so and does not grow by the request, and
    the rooms are not touched. *)
Lemma handleWithdraw_never_overdraws ws playerId amount accountNumber st player :
  players st !! playerId = Some player →
  0 ≤ Player.balance player →
  ∃ player',
    players (handleWithdraw ws playerId amount accountNumber st).1 !! playerId
    = Some player'
    ∧ 0 ≤ Player.balance player' ≤ Player.balance player
    ∧ rooms (handleWithdraw ws playerId amount accountNumber st).1 = rooms st.
Proof.
  intros Hplayer Hbalance. unfold handleWithdraw. rewrite Hplayer.
  destruct (Z.leb_spec amount 0) as [Hle | Hpos].
  { exists player. cbn [fst]. split; [exact Hplayer | split; [lia | reflexivity]]. }
  destruct (Z.ltb_spec (Player.balance player) amount) as [Hlt | Hge].
  { exists player. cbn [fst]. split; [exact Hplayer | split; [lia | reflexivity]]. }
  destruct accountNumber as [account |].
  2:{ exists player. cbn [fst]. split; [exact Hplayer | split; [lia | reflexivity]]. }
  case_bool_decide.
  { exists player. cbn [fst]. split; [exact Hplayer | split; [lia | reflexivity]]. }
  eexists. cbn [fst players rooms with_players]. rewrite lookup_insert_eq.
  split; [reflexivity |].
  cbn [Player.balance Player.withdrawn Player.with_balance Player.with_withdrawn].
  split; [lia | reflexivity].
Qed.

Lemma handleWithdraw_never_overdraws_witness :
  ∃ player',
    players (handleWithdraw Examples.erinSocket "erin" 30 (Some "1000223344")
               Examples.called40).1 !! "erin" = Some player'
    ∧ 0 ≤ Player.balance player' ≤ 50.
Proof.
  destruct (handleWithdraw_never_overdraws Examples.erinSocket "erin" 30
              (Some "1000223344") Examples.called40
              (Player.mk "erin" "Erin" "0911000005" 100 "75ball" 150 1 (Some 5%nat)
                         (Some "R7") ∅ 50 None None (Some 1)))
    as (player' & Hplayer' & Hrange & _).
  - vm_compute. reflexivity.
  - vm_compute. discriminate.
  - exists player'. split; [exact Hplayer' | exact Hrange].
Defined.

(** X22.  A socket that is not an admin's cannot run a game: its requests to
    start a game, call a number, kick a player, end a game or reset a
    room are answered with an error and change nothing. *)
Lemma only_admins_run_games now ws req st :
  ws_isAdmin ws = false →
  adminOnly req = true →
  ∃ text,
    handleWebSocketMessage now ws req st
    = (st, [SendToClient (ws_socket ws) (errorEvent text)]).
Proof.
  intros Hplain Honly. unfold handleWebSocketMessage. rewrite Hplain.
  destruct req; try discriminate Honly; cbn [isAdminCommand andb negb]; eauto.
  - unfold handleStartGame. rewrite Hplain.
    destruct (rooms st !! roomId); cbn [negb]; eauto.
  - unfold handleNumberCalled. rewrite Hplain.
    destruct (rooms st !! roomId) as [room |]; [| eauto].
    destruct (Room.active room); cbn [negb]; eauto.
Qed.

Lemma only_admins_run_games_witness :
  ∃ text,
    handleWebSocketMessage 8 Examples.erinSocket (NumberCalled "R7" 5) Examples.called40
    = (Examples.called40, [SendToClient 5%nat (errorEvent text)]).
Proof.
  apply (only_admins_run_games 8 Examples.erinSocket (NumberCalled "R7" 5)
           Examples.called40); reflexivity.
Defined.

(** X23.  A reset empties the called numbers and the winners of the room and
    the marks of its members, and nothing else: the members stay
    seated, a game in play stays in play, and no balance changes. *)
Lemma handleResetRoom_keeps_seats ws roomId st room :
  isEmpty roomId = false →
  rooms st !! roomId = Some room →
  rooms (handleResetRoom ws (Some roomId) st).1
  = <[roomId := Room.with_winners [] (Room.with_calledNumbers [] room)]> (rooms st)
  ∧ Room.players (Room.with_winners [] (Room.with_calledNumbers [] room))
    = Room.players room
  ∧ Room.active (Room.with_winners [] (Room.with_calledNumbers [] room))
    = Room.active room
  ∧ (∀ k, players (handleResetRoom ws (Some roomId) st).1 !! k
          = if bool_decide (k ∈ Room.players room)
            then Player.with_markedNumbers ∅ <$> players st !! k
            else players st !! k)
  ∧ (∀ k, Player.balance <$> players (handleResetRoom ws (Some roomId) st).1 !! k
          = Player.balance <$> players st !! k).
Proof.
  intros Hnamed Hroom. unfold handleResetRoom. rewrite Hnamed, Hroom.
  cbn [fst rooms players]. split; [reflexivity |].
  split; [reflexivity |]. split; [reflexivity |].
  assert (∀ k, foldl clearMarks (players st) (elements (Room.players room)) !! k
               = if bool_decide (k ∈ Room.players room)
                 then Player.with_markedNumbers ∅ <$> players st !! k
                 else players st !! k) as Hmarks.
  { intros k. cbn [Room.players Room.with_winners Room.with_calledNumbers].
    rewrite foldl_clearMarks.
    destruct (decide (k ∈ Room.players room)) as [Hin | Hout].
    - rewrite !bool_decide_eq_true_2; [reflexivity | exact Hin |].
      apply elem_of_elements. exact Hin.
    - rewrite !bool_decide_eq_false_2; [reflexivity | exact Hout |].
      intros H. apply elem_of_elements in H. contradiction. }
  split; [exact Hmarks |].
  intros k. cbn [Room.players Room.with_winners Room.with_calledNumbers] in *.
  rewrite Hmarks. case_bool_decide; [| reflexivity].
  destruct (players st !! k); reflexivity.
Qed.

Lemma handleResetRoom_keeps_seats_witness :
  Room.calledNumbers
    <$> rooms (handleResetRoom Examples.adminSocket (Some "R7") Examples.called40).1
          !! "R7" = Some []
  ∧ Room.active
      <$> rooms (handleResetRoom Examples.adminSocket (Some "R7") Examples.called40).1
            !! "R7" = Some true.
Proof.
  destruct (handleResetRoom_keeps_seats Examples.adminSocket "R7" Examples.called40
              Examples.playedR7) as (-> & _).
  - reflexivity.
  - vm_compute. reflexivity.
  - rewrite lookup_insert_eq. split; reflexivity.
Defined.

(** X24.  Registration never replaces a player: whoever is registered is
    registered as before afterwards, with balance and room, also when
    the id is asked for again; and a player that is new starts with
    the payment as balance, a stake above zero and no room. *)
Lemma handleRegister_keeps_registered
  now ws playerId name phone stake gameType payment st :
  (∀ k p, players st !! k = Some p →
          players (handleRegister now ws playerId name phone stake gameType payment st).1
            !! k = Some p)
  ∧ rooms (handleRegister now ws playerId name phone stake gameType payment st).1
    = rooms st
  ∧ (players st !! playerId = None →
     ∀ p, players (handleRegister now ws playerId name phone stake gameType payment st).1
            !! playerId = Some p →
          Player.balance p = orNumber payment 0
          ∧ Player.roomId p = None
          ∧ 0 < Player.stake p).
Proof.
  unfold handleRegister.
  destruct (isEmpty name || isEmpty phone || (stake =? 0) || isEmpty gameType).
  { cbn [fst]. split; [auto |]. split; [reflexivity |]. intros Hnew p Hp. congruence. }
  destruct (Z.leb_spec stake 0) as [Hle | Hpos].
  { cbn [fst]. split; [auto |]. split; [reflexivity |]. intros Hnew p Hp. congruence. }
  case_bool_decide as Hthere.
  { cbn [fst]. split; [auto |]. split; [reflexivity |]. intros Hnew p Hp. congruence. }
  cbn [fst players rooms with_players]. split.
  - intros k p Hp. rewrite lookup_insert_ne; [exact Hp |].
    intros <-. apply Hthere. eauto.
  - split; [reflexivity |]. intros _ p. rewrite lookup_insert_eq. intros [= <-].
    cbn. auto.
Qed.

End ServerMoney.

(** ** The rate limiter of the middleware *)

Section RateLimiter.
Import Auth.

(** While the window of an entry lasts, the requests of the client are
    counted: the request that finds the count at [c] plus [i] is
    accepted when that is below the limit, and the window does not
    move. *)
Lemma requests_in_window times clientIp rateLimit c r :
  rateLimit !! clientIp = Some (mkLimit c r) →
  Forall (λ t, t ≤ r) times →
  (requests times clientIp rateLimit).1
  = (λ i : nat, bool_decide (c + Z.of_nat i < MAX_REQUESTS)) <$> seq 0 (length times)
  ∧ ∃ c', (requests times clientIp rateLimit).2 !! clientIp = Some (mkLimit c' r).
Proof.
  revert rateLimit c. induction times as [| t times IH]; intros rateLimit c Hentry Hall.
  - cbn. eauto.
  - apply Forall_cons in Hall as [Ht Hall].
    cbn [requests]. unfold checkRateLimit, checkKey. rewrite Hentry.
    cbn [resetTime count].
    destruct (Z.ltb_spec r t) as [Hover | _]; [lia |].
    destruct (Z.leb_spec MAX_REQUESTS c) as [Hfull | Hroom].
    + destruct (IH rateLimit c Hentry Hall) as [Hanswers Hfinal].
      destruct (requests times clientIp rateLimit) as [answers final].
      cbn [fst snd] in *. split; [| exact Hfinal].
      cbn [length seq fmap list_fmap]. f_equal.
      * symmetry. apply bool_decide_eq_false_2. lia.
      * rewrite Hanswers, <- fmap_S_seq, <- list_fmap_compose.
        apply Forall_fmap_ext, Forall_forall. intros i _. cbn.
        rewrite !bool_decide_eq_false_2 by lia. reflexivity.
    + destruct (IH (<[clientIp := mkLimit (c + 1) r]> rateLimit) (c + 1))
        as [Hanswers Hfinal]; [apply lookup_insert_eq | exact Hall |].
      destruct (requests times clientIp (<[clientIp := mkLimit (c + 1) r]> rateLimit))
        as [answers final].
      cbn [fst snd] in *. split; [| exact Hfinal].
      cbn [length seq fmap list_fmap]. f_equal.
      * symmetry. apply bool_decide_eq_true_2. lia.
      * rewrite Hanswers, <- fmap_S_seq, <- list_fmap_compose.
        apply Forall_fmap_ext, Forall_forall. intros i _. cbn.
        apply bool_decide_ext. lia.
Qed.

(** X25.  A client that the limiter does not know gets a window of fifteen
    minutes with its first request.  Of the requests it makes until the
    window ends, the first hundred are accepted and every further one is
    refused; the first request after the window is accepted again. *)
Lemma checkRateLimit_hundred_per_window first later after clientIp rateLimit :
  rateLimit !! clientIp = None →
  Forall (λ t, t ≤ first + RATE_LIMIT_WINDOW) later →
  first + RATE_LIMIT_WINDOW < after →
  (requests (first :: later) clientIp rateLimit).1
  = (λ i : nat, bool_decide (i < 100)%nat) <$> seq 0 (S (length later))
  ∧ (checkRateLimit after clientIp
       (requests (first :: later) clientIp rateLimit).2).2 = true.
Proof.
  intros Hnew Hall Hafter. cbn [requests].
  unfold checkRateLimit, checkKey. rewrite Hnew.
  destruct (requests_in_window later clientIp
              (<[clientIp := mkLimit 1 (first + RATE_LIMIT_WINDOW)]> rateLimit)
              1 (first + RATE_LIMIT_WINDOW)) as [Hanswers (c' & Hfinal)];
    [apply lookup_insert_eq | exact Hall |].
  destruct (requests later clientIp _) as [answers final].
  cbn [fst snd] in *. split.
  - cbn [seq fmap list_fmap]. f_equal.
    rewrite Hanswers, <- fmap_S_seq, <- list_fmap_compose.
    apply Forall_fmap_ext, Forall_forall. intros i _. cbn.
    apply bool_decide_ext. unfold MAX_REQUESTS. lia.
  - rewrite Hfinal. cbn [resetTime].
    destruct (Z.ltb_spec (first + RATE_LIMIT_WINDOW) after); [reflexivity | lia].
Qed.

Lemma checkRateLimit_hundred_per_window_witness :
  (requests [0; 10; 20] "10.0.0.7" ∅).1 = [true; true; true]
  ∧ (checkRateLimit 900001 "10.0.0.7" (requests [0; 10; 20] "10.0.0.7" ∅).2).2 = true.
Proof.
  apply (checkRateLimit_hundred_per_window 0 [10; 20] 900001 "10.0.0.7" ∅).
  - apply lookup_empty.
  - repeat constructor; vm_compute; discriminate.
  - vm_compute. reflexivity.
Defined.

Lemma checkKey_other limit now key other rateLimit :
  key ≠ other →
  (checkKey limit now key rateLimit).1 !! other = rateLimit !! other.
Proof.
  intros Hother. unfold checkKey. repeat case_match; cbn [fst];
    rewrite ?lookup_insert_ne by exact Hother; reflexivity.
Qed.

Lemma checkKey_answer limit now key rateLimit rateLimit' :
  rateLimit !! key = rateLimit' !! key →
  (checkKey limit now key rateLimit).2 = (checkKey limit now key rateLimit').2.
Proof.
  intros Hsame. unfold checkKey. rewrite Hsame. repeat case_match; reflexivity.
Qed.

(** X26.  Clients are counted apart, and players apart from clients, in the
    one map: what the limiter answers a client does not depend on a
    request of another client or of a player before it, unless the
    address of the client is the key [player_<id>] of the player; and a
    request that is refused leaves the whole map as it is. *)
Lemma rateLimit_entries_apart now now' clientIp other playerId rateLimit :
  clientIp ≠ other →
  clientIp ≠ String.append "player_" playerId →
  (checkRateLimit now' clientIp (checkRateLimit now other rateLimit).1).2
  = (checkRateLimit now' clientIp rateLimit).2
  ∧ (checkRateLimit now' clientIp (checkPlayerRateLimit now playerId rateLimit).1).2
    = (checkRateLimit now' clientIp rateLimit).2
  ∧ ((checkRateLimit now clientIp rateLimit).2 = false →
     (checkRateLimit now clientIp rateLimit).1 = rateLimit)
  ∧ ((checkPlayerRateLimit now playerId rateLimit).2 = false →
     (checkPlayerRateLimit now playerId rateLimit).1 = rateLimit).
Proof.
  intros Hother Hplayer. split; [| split; [| split]].
  - apply checkKey_answer, checkKey_other. congruence.
  - apply checkKey_answer, checkKey_other. congruence.
  - unfold checkRateLimit, checkKey. repeat case_match; cbn; congruence.
  - unfold checkPlayerRateLimit, checkKey. repeat case_match; cbn; congruence.
Qed.

Lemma rateLimit_entries_apart_witness :
  (checkRateLimit 6 "10.0.0.8" (checkPlayerRateLimit 5 "erin" ∅).1).2
  = (checkRateLimit 6 "10.0.0.8" ∅).2.
Proof.
  apply (rateLimit_entries_apart 5 6 "10.0.0.8" "10.0.0.7" "erin" ∅); discriminate.
Defined.

(** X27.  [cleanupRateLimit] is not seen by the clients: a request that comes
    at or after the time of the clean-up gets the answer it would have
    got without it, and leaves the same entry for the client. *)
Lemma cleanupRateLimit_unseen cleanedAt now clientIp rateLimit :
  cleanedAt ≤ now →
  (checkRateLimit now clientIp (cleanupRateLimit cleanedAt rateLimit)).2
  = (checkRateLimit now clientIp rateLimit).2
  ∧ (checkRateLimit now clientIp (cleanupRateLimit cleanedAt rateLimit)).1 !! clientIp
    = (checkRateLimit now clientIp rateLimit).1 !! clientIp.
Proof.
  intros Hlater. unfold checkRateLimit, checkKey, cleanupRateLimit.
  destruct (rateLimit !! clientIp) as [info |] eqn:Hinfo.
  - destruct (decide (resetTime info < cleanedAt)) as [Hold | Hfresh].
    + rewrite (proj2 (map_lookup_filter_None _ _ _)).
      * destruct (Z.ltb_spec (resetTime info) now); [| lia].
        cbn [fst snd]. rewrite !lookup_insert_eq. split; reflexivity.
      * right. intros x Hx. rewrite Hinfo in Hx. injection Hx as <-.
        cbn. intros Hkeep. apply Hkeep. exact Hold.
    + rewrite (map_lookup_filter_Some_2 _ _ _ info Hinfo) by exact Hfresh.
      repeat case_match; cbn [fst snd]; rewrite ?lookup_insert_eq;
        try (split; reflexivity).
      split; [reflexivity |]. rewrite Hinfo.
      apply map_lookup_filter_Some_2; assumption.
  - rewrite (proj2 (map_lookup_filter_None _ _ _)) by (left; exact Hinfo).
    cbn [fst snd]. rewrite !lookup_insert_eq. split; reflexivity.
Qed.

Lemma cleanupRateLimit_unseen_witness :
  (checkRateLimit 900005 "10.0.0.7"
     (cleanupRateLimit 900002 (checkRateLimit 1 "10.0.0.7" ∅).1)).2
  = (checkRateLimit 900005 "10.0.0.7" (checkRateLimit 1 "10.0.0.7" ∅).1).2.
Proof.
  apply (cleanupRateLimit_unseen 900002 900005 "10.0.0.7"
           (checkRateLimit 1 "10.0.0.7" ∅).1).
  vm_compute. discriminate.
Defined.

End RateLimiter.

(** ** The modular server beside its models *)

Section MainHandlers.
Import Interfaces.

(** X28.  The modular server keeps no stake ledger: a player who joins a room
    and leaves it again has the balance it had all along, and the rooms
    are as they were, a room that was opened for the join being gone
    again. *)
Lemma main_join_then_leave now ws ws' playerId roomId st player :
  Main.players st !! playerId = Some player →
  (∀ room, Main.rooms st !! roomId = Some room →
     (playerId ∉ Room.players room)
     ∧ Room.players room ≠ ∅
     ∧ (size (Room.players room) < 90)%nat) →
  Player.balance
    <$> Main.players (Main.handleJoinRoom now ws playerId roomId st).1 !! playerId
  = Some (Player.balance player)
  ∧ (Main.handleLeaveRoom ws' playerId roomId
       (Main.handleJoinRoom now ws playerId roomId st).1).1
    = Main.mkState (Main.rooms st)
        (<[playerId := Player.with_roomId None
                         (Player.with_socket (ws_socket ws) player)]> (Main.players st))
        (Main.adminConnections st).
Proof.
  intros Hplayer Hroom. unfold Main.handleJoinRoom. rewrite Hplayer.
  assert (∀ members : gset string,
            playerId ∉ members → (members ∪ {[playerId]}) ∖ {[playerId]} = members)
    as Hback.
  { intros members Hnew. apply set_eq. intros x.
    rewrite elem_of_difference, elem_of_union, elem_of_singleton.
    split; [tauto |]. intros Hx. split; [tauto |]. intros ->. contradiction. }
  assert (Player.with_roomId None
            (Player.with_socket (ws_socket ws) (Player.with_roomId (Some roomId) player))
          = Player.with_roomId None (Player.with_socket (ws_socket ws) player))
    as Hseat by (destruct player; reflexivity).
  destruct (Main.rooms st !! roomId) as [room |] eqn:Hr.
  - destruct (Hroom room eq_refl) as (Hnew & Hsome & Hsize).
    rewrite bool_decide_eq_false_2 by lia.
    cbn [fst Main.players Main.rooms Main.adminConnections].
    rewrite lookup_insert_eq. split; [reflexivity |].
    unfold Main.handleLeaveRoom. cbn [Main.players Main.rooms Main.adminConnections].
    rewrite !lookup_insert_eq. cbn [Room.players Room.with_players].
    rewrite Hback by exact Hnew. rewrite !insert_insert_eq.
    rewrite bool_decide_eq_false_2.
    + cbn [fst]. rewrite Hseat.
      assert (Room.with_players (Room.players room)
                (Room.with_players (Room.players room ∪ {[playerId]}) room) = room)
        as -> by (destruct room; reflexivity).
      rewrite (insert_id _ _ _ Hr). reflexivity.
    + intros Hzero. apply Hsome. apply leibniz_equiv, size_empty_iff. exact Hzero.
  - cbn [Main.newRoom Room.players]. rewrite size_empty.
    rewrite bool_decide_eq_false_2 by lia.
    cbn [fst Main.players Main.rooms Main.adminConnections].
    rewrite lookup_insert_eq. split; [reflexivity |].
    unfold Main.handleLeaveRoom. cbn [Main.players Main.rooms Main.adminConnections].
    rewrite !lookup_insert_eq. cbn [Room.players Room.with_players].
    rewrite Hback by apply not_elem_of_empty. rewrite !insert_insert_eq.
    rewrite bool_decide_eq_true_2 by apply size_empty.
    cbn [fst]. rewrite Hseat, delete_insert_eq, (delete_id _ _ Hr). reflexivity.
Qed.

Lemma main_join_then_leave_witness :
  Player.balance
    <$> Main.players (Main.handleJoinRoom 3 Examples.aliceSocket "alice" "R2"
                        Examples.waitingMain).1 !! "alice"
  = Some (Some 40)
  ∧ Main.rooms (Main.handleLeaveRoom Examples.aliceSocket "alice" "R2"
                  (Main.handleJoinRoom 3 Examples.aliceSocket "alice" "R2"
                     Examples.waitingMain).1).1
    = Main.rooms Examples.waitingMain.
Proof.
  destruct (main_join_then_leave 3 Examples.aliceSocket Examples.aliceSocket "alice" "R2"
              Examples.waitingMain Examples.alice) as [Hbalance Hstate].
  - vm_compute. reflexivity.
  - intros room Hroom. vm_compute in Hroom. discriminate.
  - split; [exact Hbalance |]. rewrite Hstate. reflexivity.
Defined.

(** X29.  [handleWithdraw] of the modular server moves the money that
    [processWithdrawal] of the player model moves: it refuses when the
    model refuses and changes nothing then, and otherwise every player
    has the balance and the withdrawn total that the model gives it. *)
Lemma main_handleWithdraw_is_processWithdrawal now ws playerId amount st :
  (PlayerModel.success (PlayerModel.processWithdrawal now playerId amount
                          (Main.players st)).2 = false →
   (Main.handleWithdraw ws playerId amount st).1 = st)
  ∧ Main.rooms (Main.handleWithdraw ws playerId amount st).1 = Main.rooms st
  ∧ ∀ k,
      Player.balance <$> Main.players (Main.handleWithdraw ws playerId amount st).1 !! k
      = Player.balance
          <$> (PlayerModel.processWithdrawal now playerId amount (Main.players st)).1 !! k
      ∧ Player.withdrawn
          <$> Main.players (Main.handleWithdraw ws playerId amount st).1 !! k
        = Player.withdrawn
            <$> (PlayerModel.processWithdrawal now playerId amount (Main.players st)).1 !! k.
Proof.
  unfold Main.handleWithdraw, PlayerModel.processWithdrawal.
  destruct (Main.players st !! playerId) as [player |] eqn:Hplayer.
  - destruct (or0 (Player.balance player) <? amount).
    + cbn. auto.
    + cbn [fst snd PlayerModel.success Main.players Main.rooms].
      split; [discriminate |]. split; [reflexivity |]. intros k.
      destruct (decide (playerId = k)) as [<- | Hne].
      * rewrite !lookup_insert_eq. split; reflexivity.
      * rewrite !lookup_insert_ne by exact Hne. split; reflexivity.
  - cbn. auto.
Qed.

End MainHandlers.

(** ** Sending to the members one by one *)

Section SendToPlayers.
Import Interfaces Broadcaster.

Lemma sendToPlayer_delivery net playerId msg pm :
  sendToPlayer net playerId msg pm
  = match memberDelivery net pm msg playerId with
    | Some delivery => (true, [delivery])
    | None => (false, [])
    end.
Proof.
  unfold sendToPlayer, memberDelivery, sendToClient.
  destruct (pm !! playerId) as [player |]; cbn; [| reflexivity].
  destruct (readyState (net (Player.socket player)) =? 1); cbn; [| reflexivity].
  destruct (sendThrows (net (Player.socket player))); reflexivity.
Qed.

Lemma sendToPlayers_deliveries net msg pm playerIds count wire :
  foldl (λ acc playerId,
           let '(ok, out) := sendToPlayer net playerId msg pm in
           (if ok then S acc.1 else acc.1, acc.2 ++ out))
        (count, wire) playerIds
  = ((count + length (omap (memberDelivery net pm msg) playerIds))%nat,
     wire ++ omap (memberDelivery net pm msg) playerIds).
Proof.
  revert count wire. induction playerIds as [| playerId rest IH]; intros count wire.
  - cbn. rewrite Nat.add_0_r, app_nil_r. reflexivity.
  - cbn [foldl omap list_omap]. rewrite sendToPlayer_delivery.
    destruct (memberDelivery net pm msg playerId) as [delivery |]; cbn [fst snd].
    + rewrite IH. cbn [length]. rewrite <- app_assoc. f_equal. lia.
    + rewrite app_nil_r. apply IH.
Qed.

(** X30.  [broadcastToRoom] is [sendToPlayers] on the members of the room:
    the same messages go on the same sockets in the same order, and the
    two return the same count. *)
Lemma broadcastToRoom_is_sendToPlayers net roomId msg st room :
  RoomModel.rooms st !! roomId = Some room →
  sendToPlayers net (elements (Room.players room)) msg (RoomModel.playerModel st)
  = (sentCount (broadcastToRoom net roomId msg st),
     sent (broadcastToRoom net roomId msg st)).
Proof.
  intros Hroom. unfold sendToPlayers, broadcastToRoom, sentCount.
  rewrite Hroom, sendToPlayers_deliveries, fold_sendToMember_sent.
  reflexivity.
Qed.

Lemma broadcastToRoom_is_sendToPlayers_witness :
  sendToPlayers Examples.healthy (elements (Room.players Examples.activeRoom))
    Examples.notice (RoomModel.playerModel Examples.activeStore)
  = (sentCount (broadcastToRoom Examples.healthy "R1" Examples.notice Examples.activeStore),
     sent (broadcastToRoom Examples.healthy "R1" Examples.notice Examples.activeStore)).
Proof.
  apply (broadcastToRoom_is_sendToPlayers Examples.healthy "R1" Examples.notice
           Examples.activeStore Examples.activeRoom).
  vm_compute. reflexivity.
Defined.

End SendToPlayers.
